(** * Dataset profiling and cleaning engine (dataUtils.ts, DataBot.tsx)

    A shallow embedding of the TypeScript functions [determineColumnType],
    [generateDataProfile], [generateCleaningSuggestions], [cleanDataset]
    and [generateAnswer], and the properties of them stated by the
    specification.

    JavaScript numbers are IEEE 754 binary64 values: they are modelled by
    the Standard Library's [spec_float] at precision 53 and maximal
    exponent 1024, so that [0 / 0] is [NaN] and every operation rounds as
    the engine does.  Strings are sequences of code units below 256.
    Objects are association lists in property enumeration order. *)

From Stdlib Require Import ZArith List String Ascii Bool Lia DecimalString.
From Stdlib Require Import SpecFloat.
From stdpp Require Import base option list strings gmap.
Import ListNotations.

Local Open Scope string_scope.
Local Open Scope list_scope.
Local Open Scope Z_scope.

Infix "+:+" := String.append (at level 60, right associativity).

(** ** Numbers *)

Module Num.

Definition prec : Z := 53.
Definition emax : Z := 1024.

Abbreviation number := spec_float.

Definition zero : number := S754_zero false.
Definition nan : number := S754_nan.
Definition infinity : number := S754_infinity false.
Definition neg_infinity : number := S754_infinity true.

(** An integer read as a number (an array length, a counter, a literal). *)
Definition of_Z (z : Z) : number := binary_normalize prec emax z 0 false.

Definition add : number -> number -> number := SFadd prec emax.
Definition sub : number -> number -> number := SFsub prec emax.
Definition mul : number -> number -> number := SFmul prec emax.
Definition div : number -> number -> number := SFdiv prec emax.

(** [a < b], [a > b] and [a <= b]: false as soon as one side is NaN. *)
Definition lt (a b : number) : bool := SFltb a b.
Definition gt (a b : number) : bool := SFltb b a.
Definition le (a b : number) : bool := SFleb a b.

Definition is_nan (x : number) : bool :=
  match x with S754_nan => true | _ => false end.

(** ToBoolean on a number: [0], [-0] and [NaN] are falsy. *)
Definition truthy (x : number) : bool :=
  match x with
  | S754_zero _ | S754_nan => false
  | _ => true
  end.

(** Strict equality [===] on numbers. *)
Definition strict_eq (a b : number) : bool := SFeqb a b.

(** SameValueZero, the equality of [Set] and [Map] keys. *)
Definition same_value_zero (a b : number) : bool :=
  match a, b with
  | S754_nan, S754_nan => true
  | S754_zero _, S754_zero _ => true
  | S754_infinity s, S754_infinity s' => Bool.eqb s s'
  | S754_finite s m e, S754_finite s' m' e' =>
      Bool.eqb s s' && Pos.eqb m m' && Z.eqb e e'
  | _, _ => false
  end.

(** [Math.min] and [Math.max] on two arguments: NaN is contagious and
    [-0] is below [+0]. *)
Definition min2 (a b : number) : number :=
  if is_nan a || is_nan b then nan
  else if lt a b then a
  else if lt b a then b
  else match a with S754_zero true => a | _ => b end.

Definition max2 (a b : number) : number :=
  if is_nan a || is_nan b then nan
  else if lt a b then b
  else if lt b a then a
  else match a with S754_zero false => a | _ => b end.

(** [Math.min(...l)] and [Math.max(...l)]. *)
Definition Math_min (l : list number) : number := fold_left min2 l infinity.
Definition Math_max (l : list number) : number := fold_left max2 l neg_infinity.

End Num.

Abbreviation number := spec_float.

(** ** Strings *)

Module Str.

Definition is_digit (c : ascii) : bool :=
  let n := N_of_ascii c in (48 <=? n)%N && (n <=? 57)%N.

(** [toLowerCase] on one code unit below 256: the letters A-Z and the
    capital letters of Latin-1 (all of U+00C0..U+00DE but the
    multiplication sign U+00D7) move up by 32. *)
Definition lower_char (c : ascii) : ascii :=
  let n := N_of_ascii c in
  if ((65 <=? n) && (n <=? 90))%N then ascii_of_N (n + 32)
  else if ((192 <=? n) && (n <=? 222) && negb (n =? 215))%N
       then ascii_of_N (n + 32)
  else c.

Fixpoint toLowerCase (s : string) : string :=
  match s with
  | EmptyString => EmptyString
  | String c t => String (lower_char c) (toLowerCase t)
  end.

(** [s.includes(sub)] *)
Fixpoint includes (s sub : string) : bool :=
  String.prefix sub s ||
  match s with
  | EmptyString => false
  | String _ t => includes t sub
  end.

(** [l.join(sep)] *)
Fixpoint join (sep : string) (l : list string) : string :=
  match l with
  | [] => ""
  | [x] => x
  | x :: t => x +:+ sep +:+ join sep t
  end.

(** The decimal text of an integer, as a template literal prints a
    count or a length. *)
Definition of_Z (z : Z) : string := NilZero.string_of_int (Z.to_int z).

Definition hex_digit (n : N) : ascii :=
  if (n <? 10)%N then ascii_of_N (48 + n) else ascii_of_N (87 + n).

(** QuoteJSONString on one code unit. *)
Definition quote_char (c : ascii) : string :=
  let n := N_of_ascii c in
  if (n =? 8)%N then "\b"
  else if (n =? 9)%N then "\t"
  else if (n =? 10)%N then "\n"
  else if (n =? 12)%N then "\f"
  else if (n =? 13)%N then "\r"
  else if (n =? 34)%N then "\" +:+ String (ascii_of_N 34) ""
  else if (n =? 92)%N then "\\"
  else if (n <? 32)%N then
    "\u00" +:+ String (hex_digit (n / 16)) (String (hex_digit (n mod 16)) "")
  else String c "".

Fixpoint quote_body (s : string) : string :=
  match s with
  | EmptyString => ""
  | String c t => quote_char c +:+ quote_body t
  end.

Definition dquote : string := String (ascii_of_N 34) "".

Definition quote (s : string) : string := dquote +:+ quote_body s +:+ dquote.

Definition eqb (a b : string) : bool := String.eqb a b.

End Str.

(** ** Regular expressions

    The fragment the date pattern needs: a disjunction of alternatives,
    each a sequence of atoms ([\d] or a literal character), an
    alternative being anchored when it starts with [^].  In a regular
    expression literal the bar binds weaker than concatenation, so an
    assertion belongs to the alternative it is written in. *)

Module RegExp.

Inductive atom := Digit | Char (c : ascii).

Record alternative := { anchored : bool; atoms : list atom }.

Definition regexp := list alternative.

Definition atom_matches (a : atom) (c : ascii) : bool :=
  match a with
  | Digit => Str.is_digit c
  | Char c' => Ascii.eqb c c'
  end.

(** The atoms match a prefix of [s]. *)
Fixpoint match_here (p : list atom) (s : string) : bool :=
  match p with
  | [] => true
  | a :: p' =>
      match s with
      | EmptyString => false
      | String c t => atom_matches a c && match_here p' t
      end
  end.

(** The atoms match at some position of [s]. *)
Fixpoint search (p : list atom) (s : string) : bool :=
  match_here p s ||
  match s with
  | EmptyString => false
  | String _ t => search p t
  end.

(** [r.test(s)] for a pattern without flags. *)
Definition test (r : regexp) (s : string) : bool :=
  existsb (fun alt => if anchored alt then match_here (atoms alt) s
                      else search (atoms alt) s) r.

Definition digits (n : nat) : list atom := repeat Digit n.

End RegExp.

(** ** Values and objects *)

Inductive value :=
| VNull
| VUndefined
| VNum (x : number)
| VBool (b : bool)
| VStr (s : string).

(** [v === null || v === undefined || v === ''] *)
Definition is_missing (v : value) : bool :=
  match v with
  | VNull | VUndefined => true
  | VStr s => Str.eqb s ""
  | _ => false
  end.

(** [v !== null && v !== undefined] *)
Definition is_defined (v : value) : bool :=
  match v with
  | VNull | VUndefined => false
  | _ => true
  end.

(** [typeof v === 'number'] *)
Definition is_number (v : value) : bool :=
  match v with VNum _ => true | _ => false end.

Definition typeof (v : value) : string :=
  match v with
  | VNull => "object"
  | VUndefined => "undefined"
  | VNum _ => "number"
  | VBool _ => "boolean"
  | VStr _ => "string"
  end.

(** SameValueZero on values: the membership test of [Set]. *)
Definition same_value_zero (a b : value) : bool :=
  match a, b with
  | VNull, VNull => true
  | VUndefined, VUndefined => true
  | VNum x, VNum y => Num.same_value_zero x y
  | VBool x, VBool y => Bool.eqb x y
  | VStr x, VStr y => Str.eqb x y
  | _, _ => false
  end.

(** [[...new Set(l)]]: the elements of [l] without repetition, each at
    the place of its first occurrence. *)
Fixpoint set_add {A} (eq : A -> A -> bool) (x : A) (seen : list A) : list A :=
  match seen with
  | [] => [x]
  | y :: t => if eq y x then seen else y :: set_add eq x t
  end.

Definition set_of {A} (eq : A -> A -> bool) (l : list A) : list A :=
  fold_left (fun seen x => set_add eq x seen) l [].

(** An object: its own enumerable properties in enumeration order.  Keys
    that are array indices (canonical decimal numerals below 2^32 - 1)
    come first, in increasing order; the other keys follow in the order
    they were created. *)
Definition obj (A : Type) := list (string * A).

Fixpoint digits_value (s : string) (acc : N) : option N :=
  match s with
  | EmptyString => Some acc
  | String c t =>
      if Str.is_digit c
      then digits_value t (10 * acc + (N_of_ascii c - 48))%N
      else None
  end.

Definition array_index (k : string) : option N :=
  match k with
  | EmptyString => None
  | String c t =>
      if Str.eqb k "0" then Some 0%N
      else if (N_of_ascii c =? 48)%N then None
      else match digits_value k 0 with
           | Some n => if (n <? 2 ^ 32 - 1)%N then Some n else None
           | None => None
           end
  end.

Fixpoint obj_get {A} (k : string) (o : obj A) : option A :=
  match o with
  | [] => None
  | (k', v) :: t => if Str.eqb k' k then Some v else obj_get k t
  end.

Fixpoint obj_replace {A} (k : string) (v : A) (o : obj A) : obj A :=
  match o with
  | [] => []
  | (k', v') :: t =>
      if Str.eqb k' k then (k', v) :: t else (k', v') :: obj_replace k v t
  end.

Fixpoint obj_insert_index {A} (n : N) (k : string) (v : A) (o : obj A) : obj A :=
  match o with
  | [] => [(k, v)]
  | (k', v') :: t =>
      match array_index k' with
      | Some n' =>
          if (n' <? n)%N then (k', v') :: obj_insert_index n k v t
          else (k, v) :: o
      | None => (k, v) :: o
      end
  end.

(** [o[k] = v]: an existing property keeps its place. *)
Definition obj_set {A} (k : string) (v : A) (o : obj A) : obj A :=
  match obj_get k o with
  | Some _ => obj_replace k v o
  | None =>
      match array_index k with
      | Some n => obj_insert_index n k v o
      | None => o ++ [(k, v)]
      end
  end.

(** A row of the dataset, [Record<string, any>]. *)
Definition row := obj value.

(** [r[field]]: an absent property reads as [undefined]. *)
Definition get (r : row) (field : string) : value :=
  match obj_get field r with
  | Some v => v
  | None => VUndefined
  end.

(** ** The data model of dataUtils.ts *)

Inductive column_type := TString | TNumber | TBoolean | TDate | TMixed.

Definition column_type_eqb (a b : column_type) : bool :=
  match a, b with
  | TString, TString | TNumber, TNumber | TBoolean, TBoolean
  | TDate, TDate | TMixed, TMixed => true
  | _, _ => false
  end.

(** [mode?: string | number] *)
Inductive mode_value := ModeStr (s : string) | ModeNum (x : number).

Module DataColumn.
Record t := mk {
  name : string;
  type : column_type;
  uniqueValues : option (list value);
  uniqueCount : option Z;
  nullCount : option Z;
  nullPercentage : option number;
  min : option number;
  max : option number;
  mean : option number;
  median : option number;
  categories : option (obj Z);
  mode : option mode_value
}.
End DataColumn.

Module DataProfile.
Record t := mk {
  rowCount : Z;
  columnCount : Z;
  columns : list DataColumn.t;
  nullValues : Z;
  nullPercentage : number;
  duplicateRows : Z;
  duplicatePercentage : number
}.
End DataProfile.

Inductive issue_kind := Missing | Outlier | Inconsistent | Duplicate.

Module CleaningSuggestion.
Record t := mk {
  column : string;
  issue : issue_kind;
  description : string;
  recommendation : string;
  autoFix : option bool
}.
End CleaningSuggestion.

Module DatasetType.
Record t := mk {
  data : list row;
  fields : list string;
  filename : string
}.
End DatasetType.

(** ** A runtime for the examples

    The conversions between numbers and text that the examples run with.
    [Number_toString_int] prints an integral value as [Number::toString]
    does below 1e21 and [StringToNumber_int] reads an unsigned decimal
    numeral; a value that is not integral is printed as its mantissa and
    exponent, which no example relies on. *)

Module Runtime.

(** The integer a finite number denotes, when it is one. *)
Definition integral (x : number) : option Z :=
  match x with
  | S754_zero _ => Some 0
  | S754_finite s m e =>
      let sign := if s then -1 else 1 in
      if 0 <=? e then Some (sign * (Z.pos m * 2 ^ e))
      else if (Z.pos m mod 2 ^ (- e)) =? 0
           then Some (sign * (Z.pos m / 2 ^ (- e)))
           else None
  | _ => None
  end.

Definition Number_toString_int (x : number) : string :=
  match x with
  | S754_nan => "NaN"
  | S754_infinity false => "Infinity"
  | S754_infinity true => "-Infinity"
  | S754_zero _ => "0"
  | S754_finite s m e =>
      match integral x with
      | Some z => Str.of_Z z
      | None => (if s then "-" else "") +:+ Str.of_Z (Z.pos m) +:+ "*2^" +:+ Str.of_Z e
      end
  end.

(** [x.toFixed(2)] below 1e21: the integer nearest to [100 x], the larger
    one of two, then its digits with a point before the last two. *)
Definition hundredths (m : positive) (e : Z) : Z :=
  if 0 <=? e then 100 * Z.pos m * 2 ^ e
  else (200 * Z.pos m + 2 ^ (- e)) / 2 ^ (1 - e).

Definition two_digits (n : Z) : string :=
  (if n <? 10 then "0" else "") +:+ Str.of_Z n.

Definition Number_toFixed_2 (x : number) (digits : Z) : string :=
  match x with
  | S754_nan => "NaN"
  | S754_infinity false => "Infinity"
  | S754_infinity true => "-Infinity"
  | S754_zero _ => "0.00"
  | S754_finite s m e =>
      let n := hundredths m e in
      (if s then "-" else "") +:+ Str.of_Z (n / 100) +:+ "." +:+ two_digits (n mod 100)
  end.

Definition StringToNumber_int (s : string) : number :=
  match s with
  | EmptyString => Num.zero
  | _ => match digits_value s 0 with
         | Some n => Num.of_Z (Z.of_N n)
         | None => Num.nan
         end
  end.

End Runtime.

(** ** The heap

    The objects that [cleanDataset] reads and creates: rows, arrays of
    rows, the array of field names and dataset objects, each at its
    address.  A computation takes the heap and gives a result and the
    heap it leaves; it has no result when it reads an address that does
    not hold the kind of object it expects. *)

Module Heap.

Definition loc := positive.

Inductive cell :=
| Object (r : row)
| Array (items : list loc)
| Strings (items : list string)
| Dataset (data fields : loc) (filename : string).

Abbreviation heap := (gmap loc cell).

Definition M (A : Type) : Type := heap -> option (A * heap).

Definition ret {A} (a : A) : M A := fun h => Some (a, h).

Definition bind {A B} (m : M A) (k : A -> M B) : M B :=
  fun h => match m h with
           | Some (a, h') => k a h'
           | None => None
           end.

(** A new object, at an address that holds nothing yet. *)
Definition alloc (c : cell) : M loc :=
  fun h => let l := fresh (dom h) in Some (l, <[l := c]> h).

Definition read_object (l : loc) : M row :=
  fun h => match h !! l with
           | Some (Object r) => Some (r, h)
           | _ => None
           end.

Definition read_array (l : loc) : M (list loc) :=
  fun h => match h !! l with
           | Some (Array items) => Some (items, h)
           | _ => None
           end.

Definition read_dataset (l : loc) : M (loc * loc * string) :=
  fun h => match h !! l with
           | Some (Dataset data fields filename) => Some (data, fields, filename, h)
           | _ => None
           end.

(** [o[k] = v] on the object at [l]: the one write of the engine. *)
Definition write_property (l : loc) (k : string) (v : value) : M unit :=
  fun h => match h !! l with
           | Some (Object r) => Some (tt, <[l := Object (obj_set k v r)]> h)
           | _ => None
           end.

Fixpoint for_each {A B} (f : A -> M B) (l : list A) : M (list B) :=
  match l with
  | [] => ret []
  | x :: t => bind (f x) (fun y => bind (for_each f t) (fun ys => ret (y :: ys)))
  end.

Fixpoint fold {A S} (f : S -> A -> M S) (l : list A) (s : S) : M S :=
  match l with
  | [] => ret s
  | x :: t => bind (f s x) (fun s' => fold f t s')
  end.

(** The rows that the addresses [items] hold. *)
Definition rows_at (h : heap) (items : list loc) (rows : list row) : Prop :=
  Forall2 (fun l r => h !! l = Some (Object r)) items rows.

(** The dataset that the address [l] holds. *)
Definition dataset_at (h : heap) (l : loc) (dataset : DatasetType.t) : Prop :=
  exists data fields items,
    h !! l = Some (Dataset data fields (DatasetType.filename dataset))
    /\ h !! data = Some (Array items)
    /\ h !! fields = Some (Strings (DatasetType.fields dataset))
    /\ rows_at h items (DatasetType.data dataset).

(** The array of rows that the address [l] holds. *)
Definition array_at (h : heap) (l : loc) (rows : list row) : Prop :=
  exists items, h !! l = Some (Array items) /\ rows_at h items rows.

(** The computation [m] has a result from the heap [h]; it leaves every
    object of [h] as it was, and its result and the heap it leaves
    satisfy [Q]. *)
Definition runs {A} (m : M A) (h : heap) (Q : A -> heap -> Prop) : Prop :=
  exists a h', m h = Some (a, h') /\ h ⊆ h' /\ Q a h'.

End Heap.

Notation "x <- m ;; k" := (Heap.bind m (fun x => k))
  (at level 100, m at next level, right associativity, only parsing).
(** ** The engine *)

Section Engine.

(** The runtime's conversions between numbers and text: [Number::toString]
    (template literals, [String(x)], [JSON.stringify] on a finite number),
    [x.toFixed(d)] and [StringToNumber] (the coercion of a string argument
    of [Math.max]).  The engine is stated for any such functions. *)
Variable Number_toString : number -> string.
Variable Number_toFixed : number -> Z -> string.
Variable StringToNumber : string -> number.

(** [String(v)] *)
Definition String_of (v : value) : string :=
  match v with
  | VNull => "null"
  | VUndefined => "undefined"
  | VNum x => Number_toString x
  | VBool true => "true"
  | VBool false => "false"
  | VStr s => s
  end.

(** [JSON.stringify] on the value of a property: [undefined] has no text
    (the property is left out), and a number that is not finite is
    written [null]. *)
Definition JSON_value (v : value) : option string :=
  match v with
  | VNull => Some "null"
  | VUndefined => None
  | VNum (S754_nan) | VNum (S754_infinity _) => Some "null"
  | VNum x => Some (Number_toString x)
  | VBool true => Some "true"
  | VBool false => Some "false"
  | VStr s => Some (Str.quote s)
  end.

Definition JSON_members (r : row) : list string :=
  flat_map (fun '(k, v) =>
              match JSON_value v with
              | Some t => [Str.quote k +:+ ":" +:+ t]
              | None => []
              end) r.

(** [JSON.stringify(row)] *)
Definition JSON_stringify (r : row) : string :=
  "{" +:+ Str.join "," (JSON_members r) +:+ "}".

(** *** determineColumnType *)

(** [/^\d{4}-\d{2}-\d{2}|\d{2}\/\d{2}\/\d{4}|\d{2}-\d{2}-\d{4}/] *)
Definition datePattern : RegExp.regexp :=
  [ {| RegExp.anchored := true;
       RegExp.atoms := RegExp.digits 4 ++ [RegExp.Char "-"] ++ RegExp.digits 2
                       ++ [RegExp.Char "-"] ++ RegExp.digits 2 |};
    {| RegExp.anchored := false;
       RegExp.atoms := RegExp.digits 2 ++ [RegExp.Char "/"] ++ RegExp.digits 2
                       ++ [RegExp.Char "/"] ++ RegExp.digits 4 |};
    {| RegExp.anchored := false;
       RegExp.atoms := RegExp.digits 2 ++ [RegExp.Char "-"] ++ RegExp.digits 2
                       ++ [RegExp.Char "-"] ++ RegExp.digits 4 |} ].

(** The callback of [nonNullValues.map]. *)
Definition value_type (v : value) : column_type :=
  match v with
  | VNum _ => TNumber
  | VBool _ => TBoolean
  | VStr s => if RegExp.test datePattern s then TDate else TString
  | _ => TString
  end.

Definition determineColumnType (values : list value) : column_type :=
  let nonNullValues := List.filter (fun v => negb (is_missing v)) values in
  if (length nonNullValues =? 0)%nat then TString
  else
    let types := map value_type nonNullValues in
    let uniqueTypes := set_of column_type_eqb types in
    match uniqueTypes with
    | [t] => t
    | _ => TMixed
    end.

(** *** generateDataProfile *)

(** [values.filter(v => typeof v === 'number')] *)
Definition numbers_of (values : list value) : list number :=
  flat_map (fun v => match v with VNum x => [x] | _ => [] end) values.

(** [[...l].sort((a, b) => a - b)]: a stable insertion, [x] going before
    the first [y] with [x - y < 0]. *)
Fixpoint sort_insert (x : number) (l : list number) : list number :=
  match l with
  | [] => [x]
  | y :: t =>
      if Num.lt (Num.sub x y) Num.zero then x :: l else y :: sort_insert x t
  end.

Definition sort_ascending (l : list number) : list number :=
  fold_left (fun sorted x => sort_insert x sorted) l [].

(** [l.reduce((a, b) => a + b, 0) / l.length] *)
Definition mean_of (l : list number) : number :=
  Num.div (fold_left Num.add l Num.zero) (Num.of_Z (Z.of_nat (length l))).

(** The median of a list that is not empty; an index out of range would
    read [undefined], which arithmetic turns into NaN. *)
Definition median_of (l : list number) : number :=
  let sorted := sort_ascending l in
  let mid := Nat.div (length sorted) 2 in
  if Nat.even (length sorted)
  then Num.div (Num.add (nth (mid - 1) sorted Num.nan) (nth mid sorted Num.nan))
               (Num.of_Z 2)
  else nth mid sorted Num.nan.

(** The frequency table of the values that are not missing:
    [categories[key] = (categories[key] || 0) + 1], for keys that the
    object literal does not inherit.  A key that names a property of
    [Object.prototype] is outside the model: the code reads the
    inherited value there, and stores a text or nothing. *)
Definition count_categories (values : list value) : obj Z :=
  fold_left (fun categories v =>
               if is_missing v then categories
               else
                 let key := String_of v in
                 obj_set key (default 0 (obj_get key categories) + 1) categories)
            values [].

(** The first key of [Object.entries(categories)] with the highest count. *)
Definition find_mode (categories : obj Z) : option string :=
  snd (fold_left (fun '(maxCount, mode) '(v, count) =>
                    if maxCount <? count then (count, Some v) else (maxCount, mode))
                 categories (0, None)).

(** [(part / whole) * 100] *)
Definition percentage (part whole : number) : number :=
  Num.mul (Num.div part whole) (Num.of_Z 100).

(** The callback of [fields.map]; [fieldNulls] is returned beside the
    column, to be added to the counter [nullCount]. *)
Definition profile_column (data : list row) (field : string) : Z * DataColumn.t :=
  let rowCount := Z.of_nat (length data) in
  let values := map (fun r => get r field) data in
  let fieldNulls := Z.of_nat (length (List.filter is_missing values)) in
  let type := determineColumnType values in
  let uniqueValues := set_of same_value_zero values in
  let numericValues :=
    if column_type_eqb type TNumber then numbers_of values else [] in
  let stats (f : list number -> number) : option number :=
    if (0 <? length numericValues)%nat then Some (f numericValues) else None in
  let categorical :=
    column_type_eqb type TString || column_type_eqb type TBoolean in
  let categories := count_categories values in
  (fieldNulls,
   {| DataColumn.name := field;
      DataColumn.type := type;
      DataColumn.uniqueValues := Some uniqueValues;
      DataColumn.uniqueCount := Some (Z.of_nat (length uniqueValues));
      DataColumn.nullCount := Some fieldNulls;
      DataColumn.nullPercentage :=
        Some (percentage (Num.of_Z fieldNulls) (Num.of_Z rowCount));
      DataColumn.min := stats Num.Math_min;
      DataColumn.max := stats Num.Math_max;
      DataColumn.mean := stats mean_of;
      DataColumn.median := stats median_of;
      DataColumn.categories := if categorical then Some categories else None;
      DataColumn.mode :=
        if categorical then ModeStr <$> find_mode categories else None |}).

(** [fields.map(...)] with the counter it updates on its way. *)
Definition profile_columns (data : list row) (fields : list string)
  : Z * list DataColumn.t :=
  fold_left (fun '(nullCount, columns) field =>
               let '(fieldNulls, column) := profile_column data field in
               (nullCount + fieldNulls, columns ++ [column]))
            fields (0, []).

Definition generateDataProfile (dataset : DatasetType.t) : DataProfile.t :=
  let data := DatasetType.data dataset in
  let fields := DatasetType.fields dataset in
  let rowCount := Z.of_nat (length data) in
  let columnCount := Z.of_nat (length fields) in
  let totalCells := rowCount * columnCount in
  let '(nullCount, columns) := profile_columns data fields in
  let stringifiedRows := map JSON_stringify data in
  let uniqueRows := set_of Str.eqb stringifiedRows in
  let duplicateRows := rowCount - Z.of_nat (length uniqueRows) in
  {| DataProfile.rowCount := rowCount;
     DataProfile.columnCount := columnCount;
     DataProfile.columns := columns;
     DataProfile.nullValues := nullCount;
     DataProfile.nullPercentage :=
       percentage (Num.of_Z nullCount) (Num.of_Z totalCells);
     DataProfile.duplicateRows := duplicateRows;
     DataProfile.duplicatePercentage :=
       percentage (Num.of_Z duplicateRows) (Num.of_Z rowCount) |}.

(** *** generateCleaningSuggestions *)

(** ToBoolean on [column.mode]. *)
Definition mode_truthy (m : option mode_value) : bool :=
  match m with
  | Some (ModeStr s) => negb (Str.eqb s "")
  | Some (ModeNum x) => Num.truthy x
  | None => false
  end.

(** A value that may be [undefined], inside a template literal. *)
Definition template {A} (show : A -> string) (x : option A) : string :=
  match x with
  | Some a => show a
  | None => "undefined"
  end.

Definition mode_text (m : mode_value) : string :=
  match m with
  | ModeStr s => s
  | ModeNum x => Number_toString x
  end.

Definition toFixed2 (x : number) : string := Number_toFixed x 2.

Definition missing_recommendation (column : DataColumn.t) : string :=
  if column_type_eqb (DataColumn.type column) TNumber
  then "Fill with mean or median value"
  else if column_type_eqb (DataColumn.type column) TString
          && mode_truthy (DataColumn.mode column)
  then "Fill with most common value: " +:+ Str.dquote
       +:+ template mode_text (DataColumn.mode column) +:+ Str.dquote
  else "Remove rows or fill with placeholder".

(** [column.nullPercentage && column.nullPercentage > 0] *)
Definition has_missing (column : DataColumn.t) : bool :=
  match DataColumn.nullPercentage column with
  | Some p => Num.truthy p && Num.gt p Num.zero
  | None => false
  end.

Definition missing_suggestion (column : DataColumn.t) : CleaningSuggestion.t :=
  {| CleaningSuggestion.column := DataColumn.name column;
     CleaningSuggestion.issue := Missing;
     CleaningSuggestion.description :=
       template Str.of_Z (DataColumn.nullCount column) +:+ " missing values ("
       +:+ template toFixed2 (DataColumn.nullPercentage column) +:+ "%)";
     CleaningSuggestion.recommendation := missing_recommendation column;
     CleaningSuggestion.autoFix := Some true |}.

Definition missing_suggestions (profile : DataProfile.t) : list CleaningSuggestion.t :=
  flat_map (fun column => if has_missing column then [missing_suggestion column] else [])
           (DataProfile.columns profile).

Definition duplicate_suggestions (profile : DataProfile.t) : list CleaningSuggestion.t :=
  if Num.gt (DataProfile.duplicatePercentage profile) Num.zero
  then [ {| CleaningSuggestion.column := "Multiple";
            CleaningSuggestion.issue := Duplicate;
            CleaningSuggestion.description :=
              Str.of_Z (DataProfile.duplicateRows profile) +:+ " duplicate rows ("
              +:+ toFixed2 (DataProfile.duplicatePercentage profile) +:+ "%)";
            CleaningSuggestion.recommendation := "Remove duplicate rows";
            CleaningSuggestion.autoFix := Some true |} ]
  else [].

Definition outlier_suggestion (column : DataColumn.t) : list CleaningSuggestion.t :=
  match DataColumn.min column, DataColumn.max column, DataColumn.mean column with
  | Some min, Some max, Some mean =>
      let range := Num.sub max min in
      if Num.gt range Num.zero && Num.gt max (Num.mul mean (Num.of_Z 3))
      then [ {| CleaningSuggestion.column := DataColumn.name column;
                CleaningSuggestion.issue := Outlier;
                CleaningSuggestion.description :=
                  "Potential outliers detected (max value " +:+ Number_toString max
                  +:+ " is far from mean " +:+ toFixed2 mean +:+ ")";
                CleaningSuggestion.recommendation :=
                  "Consider capping extreme values or removing outliers";
                CleaningSuggestion.autoFix := Some true |} ]
      else []
  | _, _, _ => []
  end.

Definition outlier_suggestions (profile : DataProfile.t) : list CleaningSuggestion.t :=
  flat_map outlier_suggestion
           (List.filter (fun col => column_type_eqb (DataColumn.type col) TNumber)
                        (DataProfile.columns profile)).

Definition generateCleaningSuggestions (profile : DataProfile.t)
  : list CleaningSuggestion.t :=
  missing_suggestions profile ++ duplicate_suggestions profile
  ++ outlier_suggestions profile.

(** *** cleanDataset *)

Definition issue_eqb (a b : issue_kind) : bool :=
  match a, b with
  | Missing, Missing | Outlier, Outlier
  | Inconsistent, Inconsistent | Duplicate, Duplicate => true
  | _, _ => false
  end.

(** [suggestion.issue === kind && suggestion.autoFix] *)
Definition selects (kind : issue_kind) (suggestion : CleaningSuggestion.t) : bool :=
  issue_eqb (CleaningSuggestion.issue suggestion) kind
  && match CleaningSuggestion.autoFix suggestion with
     | Some true => true
     | _ => false
     end.

(** [m.set(k, v)] on a [Map]: a key that is present keeps its place and
    takes the new value, a new key goes last. *)
Fixpoint Map_set {A} (k : string) (v : A) (m : list (string * A)) : list (string * A) :=
  match m with
  | [] => [(k, v)]
  | (k', v') :: t =>
      if Str.eqb k' k then (k', v) :: t else (k', v') :: Map_set k v t
  end.

(** The [Map] built by the loop of the duplicate branch. *)
Definition uniqueRows {A} (key : A -> string) (rows : list A) : list (string * A) :=
  fold_left (fun m r => Map_set (key r) r m) rows [].

(** [Array.from(uniqueRows.values())] *)
Definition remove_duplicates {A} (key : A -> string) (rows : list A) : list A :=
  map snd (uniqueRows key rows).

(** [profile.columns.find(col => col.name === name)] *)
Definition find_column (profile : DataProfile.t) (name : string)
  : option DataColumn.t :=
  List.find (fun col => Str.eqb (DataColumn.name col) name)
            (DataProfile.columns profile).

(** The value written into a missing cell. *)
Definition fill_value (column : DataColumn.t) : value :=
  match column_type_eqb (DataColumn.type column) TNumber,
        DataColumn.median column, DataColumn.mode column with
  | true, Some median, _ => VNum median
  | _, _, Some (ModeStr s) => VStr s
  | _, _, Some (ModeNum x) => VNum x
  | true, _, None => VNum Num.zero
  | false, _, None => VStr "Unknown"
  end.

(** The callback of [cleanedData.map] in the missing branch. *)
Definition fill_missing (column : DataColumn.t) (name : string) (r : row) : row :=
  if is_missing (get r name) then obj_set name (fill_value column) r else r.

(** [typeof r[name] === 'number' && r[name] > cap] *)
Definition above_cap (cap : number) (name : string) (r : row) : bool :=
  match get r name with
  | VNum x => Num.gt x cap
  | _ => false
  end.

(** The callback of [cleanedData.map] in the outlier branch. *)
Definition cap_outlier (cap : number) (name : string) (r : row) : row :=
  if above_cap cap name r then obj_set name (VNum cap) r else r.

(** The column an outlier suggestion may cap, with its cap. *)
Definition outlier_cap (profile : DataProfile.t) (name : string) : option number :=
  match find_column profile name with
  | Some column =>
      if column_type_eqb (DataColumn.type column) TNumber
      then match DataColumn.median column with
           | Some median => Some (Num.mul median (Num.of_Z 3))
           | None => None
           end
      else None
  | None => None
  end.

(** The body of the loop over the selected suggestions: three tests in a
    row, the last two leaving the body early when the column is not one
    the profile knows. *)
Definition apply_suggestion (profile : DataProfile.t) (cleanedData : list row)
  (suggestion : CleaningSuggestion.t) : list row :=
  let name := CleaningSuggestion.column suggestion in
  let cleanedData :=
    if selects Duplicate suggestion
    then remove_duplicates JSON_stringify cleanedData
    else cleanedData in
  if selects Missing suggestion
  then match find_column profile name with
       | None => cleanedData
       | Some column =>
           let cleanedData := map (fill_missing column name) cleanedData in
           if selects Outlier suggestion
           then match outlier_cap profile name with
                | None => cleanedData
                | Some cap => map (cap_outlier cap name) cleanedData
                end
           else cleanedData
       end
  else if selects Outlier suggestion
  then match outlier_cap profile name with
       | None => cleanedData
       | Some cap => map (cap_outlier cap name) cleanedData
       end
  else cleanedData.

Definition cleanDataset (dataset : DatasetType.t) (profile : DataProfile.t)
  (selectedSuggestions : list CleaningSuggestion.t) : DatasetType.t :=
  {| DatasetType.data :=
       fold_left (apply_suggestion profile) selectedSuggestions
                 (DatasetType.data dataset);
     DatasetType.fields := DatasetType.fields dataset;
     DatasetType.filename := DatasetType.filename dataset |}.

(** *** generateAnswer (DataBot.tsx) *)

(** The function returns a string, or fails with the [TypeError] of a
    property read on [undefined]. *)
Inductive outcome := Returns (s : string) | TypeError.

(** [questionLower.includes(p1) || questionLower.includes(p2) || ...] *)
Definition asks (questionLower : string) (phrases : list string) : bool :=
  existsb (Str.includes questionLower) phrases.

(** ToNumber, applied by [Math.max] and [Math.min] to their arguments. *)
Definition ToNumber (v : value) : number :=
  match v with
  | VNull => Num.zero
  | VUndefined => Num.nan
  | VNum x => x
  | VBool true => Num.of_Z 1
  | VBool false => Num.zero
  | VStr s => StringToNumber s
  end.

Definition newline : string := String (ascii_of_N 10) "".

(** [data.map(row => row[column])] *)
Definition column_values (data : list row) (column : string) : list value :=
  map (fun r => get r column) data.

(** [values.length > 0 && typeof values[0] === 'number'] *)
Definition first_is_number (values : list value) : bool :=
  match values with
  | VNum _ :: _ => true
  | _ => false
  end.

Definition maximum_answer (data : list row) (mentionedColumn : string) : string :=
  let values := List.filter is_defined (column_values data mentionedColumn) in
  "The maximum value in the " +:+ Str.dquote +:+ mentionedColumn +:+ Str.dquote
  +:+ " column is " +:+ Number_toString (Num.Math_max (map ToNumber values)) +:+ ".".

Definition minimum_answer (data : list row) (mentionedColumn : string) : string :=
  let values := List.filter is_defined (column_values data mentionedColumn) in
  "The minimum value in the " +:+ Str.dquote +:+ mentionedColumn +:+ Str.dquote
  +:+ " column is " +:+ Number_toString (Num.Math_min (map ToNumber values)) +:+ ".".

(** [data.filter(row => row[c] === null || row[c] === undefined || row[c] === '').length] *)
Definition missingCount (data : list row) (column : string) : Z :=
  Z.of_nat (length (List.filter is_missing (column_values data column))).

Definition missing_percentage (data : list row) (column : string) : number :=
  percentage (Num.of_Z (missingCount data column))
             (Num.of_Z (Z.of_nat (length data))).

Definition unique_count (data : list row) (column : string) : Z :=
  Z.of_nat (length (set_of same_value_zero (column_values data column))).

(** The summary of a column; [data[0][column]] fails on an empty array. *)
Definition column_summary (data : list row) (mentionedColumn : string) : outcome :=
  match data with
  | [] => TypeError
  | first :: _ =>
      Returns ("Information about " +:+ Str.dquote +:+ mentionedColumn
               +:+ Str.dquote +:+ ": " +:+ newline
               +:+ "- " +:+ Str.of_Z (unique_count data mentionedColumn)
               +:+ " unique values" +:+ newline
               +:+ "- " +:+ Str.of_Z (missingCount data mentionedColumn)
               +:+ " missing values ("
               +:+ toFixed2 (missing_percentage data mentionedColumn) +:+ "%)"
               +:+ newline
               +:+ "- Type: " +:+ typeof (get first mentionedColumn))
  end.

(** The tests on a mentioned column, from the one on missing values on. *)
Definition answer_from_missing (questionLower : string) (data : list row)
  (mentionedColumn : string) : outcome :=
  if asks questionLower ["missing"; "null"; "empty"]
  then Returns ("There are " +:+ Str.of_Z (missingCount data mentionedColumn)
                +:+ " missing values ("
                +:+ toFixed2 (missing_percentage data mentionedColumn)
                +:+ "%) in the " +:+ Str.dquote +:+ mentionedColumn +:+ Str.dquote
                +:+ " column.")
  else column_summary data mentionedColumn.

Definition answer_from_unique (questionLower : string) (data : list row)
  (mentionedColumn : string) : outcome :=
  if asks questionLower ["unique"; "distinct"]
  then Returns ("There are " +:+ Str.of_Z (unique_count data mentionedColumn)
                +:+ " unique values in the " +:+ Str.dquote +:+ mentionedColumn
                +:+ Str.dquote +:+ " column.")
  else answer_from_missing questionLower data mentionedColumn.

Definition answer_from_average (questionLower : string) (data : list row)
  (mentionedColumn : string) : outcome :=
  let values := numbers_of (column_values data mentionedColumn) in
  if asks questionLower ["average"; "mean"] && (0 <? length values)%nat
  then Returns ("The average value in the " +:+ Str.dquote +:+ mentionedColumn
                +:+ Str.dquote +:+ " column is " +:+ toFixed2 (mean_of values)
                +:+ ".")
  else answer_from_unique questionLower data mentionedColumn.

Definition answer_from_minimum (questionLower : string) (data : list row)
  (mentionedColumn : string) : outcome :=
  let values := List.filter is_defined (column_values data mentionedColumn) in
  if asks questionLower ["minimum"; "min"; "lowest"] && first_is_number values
  then Returns (minimum_answer data mentionedColumn)
  else answer_from_average questionLower data mentionedColumn.

Definition answer_from_maximum (questionLower : string) (data : list row)
  (mentionedColumn : string) : outcome :=
  let values := List.filter is_defined (column_values data mentionedColumn) in
  if asks questionLower ["maximum"; "max"; "highest"] && first_is_number values
  then Returns (maximum_answer data mentionedColumn)
  else answer_from_minimum questionLower data mentionedColumn.

Definition fallback_answer : string :=
  "I'm not sure how to answer that question about your data. Try asking about specific columns, row counts, or statistics like maximum, minimum, or average values.".

(** [fields.find(field => questionLower.includes(field.toLowerCase()))] *)
Definition mentioned_column (questionLower : string) (fields : list string)
  : option string :=
  List.find (fun field => Str.includes questionLower (Str.toLowerCase field)) fields.

Definition generateAnswer (question : string) (dataset : DatasetType.t) : outcome :=
  let data := DatasetType.data dataset in
  let fields := DatasetType.fields dataset in
  let questionLower := Str.toLowerCase question in
  if asks questionLower ["how many rows"; "how many records"]
  then Returns ("There are " +:+ Str.of_Z (Z.of_nat (length data))
                +:+ " rows in this dataset.")
  else if asks questionLower ["how many columns"; "how many fields"]
  then Returns ("There are " +:+ Str.of_Z (Z.of_nat (length fields))
                +:+ " columns in this dataset: " +:+ Str.join ", " fields +:+ ".")
  else if asks questionLower ["what columns"; "what fields"]
  then Returns ("The columns in this dataset are: " +:+ Str.join ", " fields +:+ ".")
  else
    match mentioned_column questionLower fields with
    | Some mentionedColumn =>
        (* [if (mentionedColumn)]: the empty name is falsy *)
        if Str.eqb mentionedColumn "" then Returns fallback_answer
        else answer_from_maximum questionLower data mentionedColumn
    | None => Returns fallback_answer
    end.

(** *** cleanDataset on the heap

    The same function with the objects it shares and creates: the rows
    it leaves alone stay at their addresses, a row it changes is a copy
    at a new address, and every array it builds is a new one. *)

Definition remove_duplicates_heap (cleanedData : Heap.loc) : Heap.M Heap.loc :=
  rows <- Heap.read_array cleanedData;;
  keyed <- Heap.for_each
             (fun l => r <- Heap.read_object l;; Heap.ret (JSON_stringify r, l))
             rows;;
  let uniqueRows := fold_left (fun m kl => Map_set (fst kl) (snd kl) m) keyed [] in
  Heap.alloc (Heap.Array (map snd uniqueRows)).

Definition fill_missing_heap (column : DataColumn.t) (name : string)
  (l : Heap.loc) : Heap.M Heap.loc :=
  r <- Heap.read_object l;;
  if is_missing (get r name)
  then
    newRow <- Heap.alloc (Heap.Object r);;
    _ <- Heap.write_property newRow name (fill_value column);;
    Heap.ret newRow
  else Heap.ret l.

Definition cap_outlier_heap (cap : number) (name : string) (l : Heap.loc)
  : Heap.M Heap.loc :=
  r <- Heap.read_object l;;
  if above_cap cap name r
  then Heap.alloc (Heap.Object (obj_set name (VNum cap) r))
  else Heap.ret l.

(** [cleanedData.map(f)] *)
Definition map_array (f : Heap.loc -> Heap.M Heap.loc) (cleanedData : Heap.loc)
  : Heap.M Heap.loc :=
  rows <- Heap.read_array cleanedData;;
  rows' <- Heap.for_each f rows;;
  Heap.alloc (Heap.Array rows').

Definition apply_suggestion_heap (profile : DataProfile.t) (cleanedData : Heap.loc)
  (suggestion : CleaningSuggestion.t) : Heap.M Heap.loc :=
  let name := CleaningSuggestion.column suggestion in
  cleanedData <- (if selects Duplicate suggestion
                  then remove_duplicates_heap cleanedData
                  else Heap.ret cleanedData);;
  if selects Missing suggestion
  then match find_column profile name with
       | None => Heap.ret cleanedData
       | Some column =>
           cleanedData <- map_array (fill_missing_heap column name) cleanedData;;
           if selects Outlier suggestion
           then match outlier_cap profile name with
                | None => Heap.ret cleanedData
                | Some cap => map_array (cap_outlier_heap cap name) cleanedData
                end
           else Heap.ret cleanedData
       end
  else if selects Outlier suggestion
  then match outlier_cap profile name with
       | None => Heap.ret cleanedData
       | Some cap => map_array (cap_outlier_heap cap name) cleanedData
       end
  else Heap.ret cleanedData.

Definition cleanDataset_heap (dataset : Heap.loc) (profile : DataProfile.t)
  (selectedSuggestions : list CleaningSuggestion.t) : Heap.M Heap.loc :=
  d <- Heap.read_dataset dataset;;
  let '(data, fields, filename) := d in
  rows <- Heap.read_array data;;
  cleanedData <- Heap.alloc (Heap.Array rows);;
  cleanedData <- Heap.fold (apply_suggestion_heap profile) selectedSuggestions
                           cleanedData;;
  Heap.alloc (Heap.Dataset cleanedData fields filename).

(** *** categorizeColumns *)


(** *** The cleaning page (DataCleaning.tsx) *)

(** [prev.includes(index)] *)
Definition includes_index (selected : list nat) (index : nat) : bool :=
  existsb (Nat.eqb index) selected.

(** The update of the selection by [toggleSuggestion]. *)
Definition toggleSuggestion (prev : list nat) (index : nat) : list nat :=
  if includes_index prev index
  then List.filter (fun i => negb (Nat.eqb i index)) prev
  else prev ++ [index].

(** [l.filter((_, index) => keep(index))], the elements numbered from [i]. *)
Fixpoint filter_indexed {A} (keep : nat -> bool) (i : nat) (l : list A) : list A :=
  match l with
  | [] => []
  | x :: t =>
      if keep i then x :: filter_indexed keep (S i) t
      else filter_indexed keep (S i) t
  end.

(** [suggestions.filter((_, index) => selectedSuggestions.includes(index))] *)
Definition selectedSuggestionsArr (suggestions : list CleaningSuggestion.t)
  (selectedSuggestions : list nat) : list CleaningSuggestion.t :=
  filter_indexed (includes_index selectedSuggestions) 0 suggestions.

(** The dataset that [applyCleaningActions] stores. *)
Definition applyCleaningActions (dataset : DatasetType.t) (profile : DataProfile.t)
  (suggestions : list CleaningSuggestion.t) (selectedSuggestions : list nat)
  : DatasetType.t :=
  cleanDataset dataset profile (selectedSuggestionsArr suggestions selectedSuggestions).

(** [cleaningSuggestions.map((_, index) => index)]: all selected, as
    [handleFileUpload] leaves the page. *)
Definition select_all {A} (suggestions : list A) : list nat :=
  seq 0 (length suggestions).

(** *** The categories shown by the profiling page (DataProfiling.tsx) *)

(** [entries.sort((a, b) => b[1] - a[1])]: a stable insertion, [x] going
    before the first [y] with [y[1] - x[1] < 0]. *)
Fixpoint insert_by_count (x : string * Z) (l : list (string * Z)) : list (string * Z) :=
  match l with
  | [] => [x]
  | y :: t => if snd y - snd x <? 0 then x :: l else y :: insert_by_count x t
  end.

Definition sort_by_count (entries : list (string * Z)) : list (string * Z) :=
  fold_left (fun sorted x => insert_by_count x sorted) entries [].

(** [Object.entries(column.categories).sort(...).slice(0, 10)] *)
Definition top_categories (categories : obj Z) : list (string * Z) :=
  firstn 10 (sort_by_count categories).

(** ** Vocabulary of the properties *)

(** The sum over the columns of each column's [nullCount]. *)
Definition sum_nullCount (columns : list DataColumn.t) : Z :=
  foldr Z.add 0 (map (fun c => default 0 (DataColumn.nullCount c)) columns).

(** The first alternative of the date pattern read as written, and the
    other two as the pattern would have them if it were anchored as a
    whole. *)
Definition starts_with_date (s : string) : bool :=
  existsb (fun alt => RegExp.match_here (RegExp.atoms alt) s) datePattern.

(** The datasets of the scenarios of the specification. *)
Definition scenario_A : DatasetType.t :=
  {| DatasetType.data :=
       [ [("age", VNum (Num.of_Z 25)); ("city", VStr "NY")];
         [("age", VNull); ("city", VStr "NY")];
         [("age", VNum (Num.of_Z 25)); ("city", VStr "NY")] ];
     DatasetType.fields := ["age"; "city"];
     DatasetType.filename := "scenario-a.csv" |}.

Definition numeric_column (name : string) (values : list Z) : list row :=
  map (fun z => [(name, VNum (Num.of_Z z))]) values.

Definition scenario_D : DatasetType.t :=
  {| DatasetType.data := numeric_column "amount" [10; 10; 10; 1000];
     DatasetType.fields := ["amount"];
     DatasetType.filename := "scenario-d.csv" |}.

(** A column of flags with one missing cell. *)
Definition flags_dataset : DatasetType.t :=
  {| DatasetType.data := [ [("active", VBool true)]; [("active", VNull)] ];
     DatasetType.fields := ["active"];
     DatasetType.filename := "flags.csv" |}.

(** A column whose first cell is text and whose other cells are numbers. *)
Definition scores_dataset : DatasetType.t :=
  {| DatasetType.data :=
       [ [("score", VStr "n/a")]; [("score", VNum (Num.of_Z 5))];
         [("score", VNum (Num.of_Z 7))] ];
     DatasetType.fields := ["score"];
     DatasetType.filename := "scores.csv" |}.

(** The recommendation of a missing suggestion, by the column's type. *)
Definition recommendation_for (column : DataColumn.t) : string :=
  match DataColumn.type column with
  | TNumber => "Fill with mean or median value"
  | TString =>
      if mode_truthy (DataColumn.mode column)
      then "Fill with most common value: " +:+ Str.dquote
           +:+ template mode_text (DataColumn.mode column) +:+ Str.dquote
      else "Remove rows or fill with placeholder"
  | TBoolean | TDate | TMixed => "Remove rows or fill with placeholder"
  end.

(** The keys of a list without repetition, each at the place of its first
    occurrence. *)
Fixpoint first_occurrences (l : list string) : list string :=
  match l with
  | [] => []
  | x :: t => x :: List.filter (fun y => negb (Str.eqb x y)) (first_occurrences t)
  end.

(** What capping the cell [name] of a row [r] at [cap] may give as [r']. *)
Definition capped_at (cap : number) (name : string) (r r' : row) : Prop :=
  match get r name with
  | VNum x =>
      if Num.gt x cap
      then get r' name = VNum cap
           /\ (forall f, f <> name -> get r' f = get r f)
           /\ map fst r' = map fst r
      else r' = r
  | _ => r' = r
  end.

(** The canonical keys of the rows of a dataset, as a set. *)
Definition canonical_keys (dataset : DatasetType.t) : gset string :=
  list_to_set (map JSON_stringify (DatasetType.data dataset)).

(** The dataset without rows, and the one without rows nor fields. *)
Definition no_rows : DatasetType.t :=
  {| DatasetType.data := [];
     DatasetType.fields := ["age"; "city"];
     DatasetType.filename := "empty.csv" |}.

(** A heap that holds the dataset of scenario A at address 6. *)
Definition scenario_A_heap : Heap.heap :=
  <[6%positive := Heap.Dataset 4%positive 5%positive "scenario-a.csv"]>
  (<[5%positive := Heap.Strings ["age"; "city"]]>
  (<[4%positive := Heap.Array [1; 2; 3]%positive]>
  (<[3%positive := Heap.Object [("age", VNum (Num.of_Z 25)); ("city", VStr "NY")]]>
  (<[2%positive := Heap.Object [("age", VNull); ("city", VStr "NY")]]>
  (<[1%positive := Heap.Object [("age", VNum (Num.of_Z 25)); ("city", VStr "NY")]]>
   ∅))))).

(** The suggestion to remove duplicate rows. *)
Definition duplicate_suggestion : CleaningSuggestion.t :=
  {| CleaningSuggestion.column := "Multiple";
     CleaningSuggestion.issue := Duplicate;
     CleaningSuggestion.description := "1 duplicate rows (33.33%)";
     CleaningSuggestion.recommendation := "Remove duplicate rows";
     CleaningSuggestion.autoFix := Some true |}.

(** *** Vocabulary of the further properties *)

(** The values of a column that are not missing. *)
Definition present (values : list value) : list value :=
  List.filter (fun v => negb (is_missing v)) values.

(** The column of a field in the rows of a dataset. *)
Definition cells (dataset : DatasetType.t) (field : string) : list value :=
  map (fun r => get r field) (DatasetType.data dataset).

(** The number of missing cells of a column. *)
Definition missing_cells (dataset : DatasetType.t) (field : string) : Z :=
  Z.of_nat (length (List.filter is_missing (cells dataset field))).

(** A number between 0 and 100, as the comparisons of numbers tell. *)
Definition is_percentage (x : number) : Prop :=
  Num.le Num.zero x = true /\ Num.le x (Num.of_Z 100) = true.

(** The sum of the counts of a frequency table. *)
Definition total_count (categories : obj Z) : Z :=
  foldr Z.add 0 (map snd categories).

(** The entry [(k, c)] is the first one of [categories] with the highest
    count. *)
Definition first_highest (categories : obj Z) (k : string) (c : Z) : Prop :=
  exists before after,
    categories = before ++ (k, c) :: after
    /\ Forall (fun e => snd e < c) before
    /\ Forall (fun e => snd e <= c) after.

(** The suggestions of one kind. *)
Definition of_kind (kind : issue_kind) (suggestions : list CleaningSuggestion.t)
  : list CleaningSuggestion.t :=
  List.filter (fun s => issue_eqb (CleaningSuggestion.issue s) kind) suggestions.

(** The suggestions that [cleanDataset] passes over: those without
    [autoFix], those of the kind [inconsistent], and those on a column
    that the profile does not have, or cannot cap. *)
Definition passed_over (profile : DataProfile.t) (s : CleaningSuggestion.t) : Prop :=
  CleaningSuggestion.autoFix s <> Some true
  \/ CleaningSuggestion.issue s = Inconsistent
  \/ (CleaningSuggestion.issue s = Missing
      /\ find_column profile (CleaningSuggestion.column s) = None)
  \/ (CleaningSuggestion.issue s = Outlier
      /\ outlier_cap profile (CleaningSuggestion.column s) = None).




(** The entries of a list come with counts that do not go up. *)
Fixpoint descending (entries : list (string * Z)) : Prop :=
  match entries with
  | [] => True
  | x :: t => Forall (fun y => snd y <= snd x) t /\ descending t
  end.


(** The examples of the further properties. *)
Definition column_at (n : nat) (profile : DataProfile.t) : DataColumn.t :=
  nth n (DataProfile.columns profile)
      (DataColumn.mk "" TString None None None None None None None None None None).

(** A suggestion to fill the missing cells of a field. *)
Definition fill_suggestion (field : string) : CleaningSuggestion.t :=
  {| CleaningSuggestion.column := field;
     CleaningSuggestion.issue := Missing;
     CleaningSuggestion.description := "";
     CleaningSuggestion.recommendation := "";
     CleaningSuggestion.autoFix := Some true |}.

(** A suggestion that asks for a review, and one that is not to be
    applied by the program. *)
Definition review_suggestion : CleaningSuggestion.t :=
  {| CleaningSuggestion.column := "city";
     CleaningSuggestion.issue := Inconsistent;
     CleaningSuggestion.description := "";
     CleaningSuggestion.recommendation := "";
     CleaningSuggestion.autoFix := Some true |}.

Definition manual_suggestion : CleaningSuggestion.t :=
  {| CleaningSuggestion.column := "age";
     CleaningSuggestion.issue := Missing;
     CleaningSuggestion.description := "";
     CleaningSuggestion.recommendation := "";
     CleaningSuggestion.autoFix := None |}.

(** A frequency table in which two keys share the highest count. *)
Definition example_categories : obj Z := [("a", 1); ("b", 2); ("c", 2)].

(** The names of the properties that an object literal inherits from
    [Object.prototype]. *)
Definition Object_prototype_keys : list string :=
  ["constructor"; "hasOwnProperty"; "isPrototypeOf"; "propertyIsEnumerable";
   "toLocaleString"; "toString"; "valueOf"; "__proto__"; "__defineGetter__";
   "__defineSetter__"; "__lookupGetter__"; "__lookupSetter__"].

(** No value of a column that is not missing has, as its text, the name
    of an inherited property: the reads [categories[key]] of the count
    then find the counts only. *)
Definition own_keys (values : list value) : bool :=
  forallb (fun v => negb (existsb (Str.eqb (String_of v)) Object_prototype_keys))
          (present values).

(** *** Rounding in binary64 *)

(** The exponent of the numbers of a given magnitude. *)
Definition fexp64 (e : Z) : Z := fexp Num.prec Num.emax e.

(** The excess of a location over the truncated mantissa: 0 when exact. *)
Definition inexact (l : location) : Z :=
  match l with loc_Exact => 0 | loc_Inexact _ => 1 end.

(** The record [mrs] is what [n] right shifts make of the mantissa [m]
    with location [l]. *)
Definition shifted (m : Z) (l : location) (n : Z) (mrs : shr_record) : Prop :=
  shr_m mrs = m / 2 ^ n
  /\ (shr_r mrs = true -> (2 * shr_m mrs + 1) * 2 ^ n <= 2 * m + inexact l).

Definition bra : bool -> Z -> Z -> location -> number :=
  binary_round_aux Num.prec Num.emax.

(** *** Maps on the heap *)

(** The map of the addresses and the map of the rows, entry by entry. *)
Definition same_entries (h : Heap.heap) (ml : list (string * Heap.loc))
  (mr : list (string * row)) : Prop :=
  Forall2 (fun el er => fst el = fst er /\ h !! snd el = Some (Heap.Object (snd er))) ml mr.


(** ** Rounding in binary64 *)


Lemma fexp64_eq (e : Z) : fexp64 e = Z.max (e - 53) (-1074).
Proof. reflexivity. Qed.

Lemma Zdigits2_log2 (m : Z) : 0 < m -> Zdigits2 m = Z.log2 m + 1.
Proof.
  destruct m as [|p|p]; try lia. intros _. simpl.
  assert (H : forall q, digits2_pos q = Pos.size q) by (induction q; simpl; congruence).
  destruct p; simpl; rewrite ?H; lia.
Qed.

Lemma Zdigits2_bounds (m : Z) :
  0 < m -> 2 ^ (Zdigits2 m - 1) <= m < 2 ^ Zdigits2 m.
Proof.
  intros Hm. rewrite Zdigits2_log2 by done.
  pose proof (Z.log2_spec m Hm). replace (Z.log2 m + 1 - 1) with (Z.log2 m) by lia.
  replace (Z.log2 m + 1) with (Z.succ (Z.log2 m)) by lia. done.
Qed.

Lemma Zdigits2_nonneg (m : Z) : 0 <= Zdigits2 m.
Proof. destruct m; simpl; lia. Qed.

Lemma Zdigits2_pos (m : Z) : 0 < m -> 0 < Zdigits2 m.
Proof. destruct m; simpl; lia. Qed.

Lemma Zdigits2_mono (a b : Z) : 0 <= a <= b -> Zdigits2 a <= Zdigits2 b.
Proof.
  intros [Ha Hab]. destruct (Z.eq_dec a 0) as [->|Hne].
  - apply Zdigits2_nonneg.
  - rewrite !Zdigits2_log2 by lia. pose proof (Z.log2_le_mono a b Hab). lia.
Qed.

Lemma Zdigits2_unique (m d : Z) : 2 ^ (d - 1) <= m < 2 ^ d -> 0 < d -> Zdigits2 m = d.
Proof.
  intros H Hd. assert (0 < m).
  { pose proof (Z.pow_pos_nonneg 2 (d - 1)). lia. }
  rewrite Zdigits2_log2 by done.
  rewrite (Z.log2_unique m (d - 1)); [lia|lia|].
  replace (Z.succ (d - 1)) with d by lia. done.
Qed.

Lemma Zdigits2_div_pow2 (m n : Z) :
  0 <= n -> 0 < m / 2 ^ n -> Zdigits2 (m / 2 ^ n) = Zdigits2 m - n.
Proof.
  intros Hn Hq.
  assert (Hp : 0 < 2 ^ n) by (apply Z.pow_pos_nonneg; lia).
  assert (Hm : 0 < m).
  { destruct (Z.le_gt_cases m 0) as [H|H]; [|done].
    pose proof (Z.div_le_upper_bound m (2 ^ n) 0 Hp). lia. }
  rewrite !Zdigits2_log2 by done.
  rewrite <- Z.shiftr_div_pow2 by done.
  rewrite Z.log2_shiftr by done.
  rewrite <- Z.shiftr_div_pow2 in Hq by done.
  destruct (Z.le_gt_cases n (Z.log2 m)); [lia|].
  rewrite Z.shiftr_eq_0 in Hq; lia.
Qed.

(** The invariant of [n] steps of right shift. *)
Lemma iter_pos_invariant {A} (f : A -> A) (P : Z -> A -> Prop) :
  (forall n x, 0 <= n -> P n x -> P (n + 1) (f x)) ->
  forall p n x, 0 <= n -> P n x -> P (n + Z.pos p) (SpecFloat.iter_pos f p x).
Proof.
  intros Hstep. induction p as [p IH|p IH|]; intros n x Hn Hx; simpl.
  - replace (n + Z.pos p~1) with (n + 1 + Z.pos p + Z.pos p) by lia.
    apply IH; [lia|]. apply IH; [lia|]. by apply Hstep.
  - replace (n + Z.pos p~0) with (n + Z.pos p + Z.pos p) by lia.
    apply IH; [lia|]. by apply IH.
  - by apply Hstep.
Qed.



Lemma shifted_0 (m : Z) (l : location) : shifted m l 0 (shr_record_of_loc m l).
Proof.
  unfold shifted. rewrite Z.pow_0_r, Z.div_1_r.
  destruct l as [|[]]; simpl; split; try done; lia.
Qed.

Lemma shifted_step (m : Z) (l : location) (n : Z) (mrs : shr_record) :
  0 <= m -> 0 <= n -> shifted m l n mrs -> shifted m l (n + 1) (shr_1 mrs).
Proof.
  intros Hm Hn [Hq _]. destruct mrs as [a r s]. simpl in Hq.
  assert (Hp : 0 < 2 ^ n) by (apply Z.pow_pos_nonneg; lia).
  assert (Ha : 0 <= a) by (subst a; apply Z.div_pos; lia).
  assert (Ha2 : a * 2 ^ n <= m).
  { subst a. pose proof (Z.mul_div_le m (2 ^ n) Hp). lia. }
  assert (Hdiv : a / 2 = m / 2 ^ (n + 1)).
  { subst a. rewrite Z.pow_add_r, Z.pow_1_r by lia. rewrite Z.div_div; lia. }
  assert (Hl : 0 <= inexact l) by (destruct l; simpl; lia).
  unfold shifted. rewrite <- Hdiv, Z.pow_add_r, Z.pow_1_r by lia.
  destruct a as [|[p|p|]|p]; simpl; try lia; (split; [try done|intros; try done]).
  - change (Z.pos p = Z.pos p~1 / 2). rewrite Pos2Z.inj_xI.
    apply Z.div_unique with 1; lia.
  - rewrite Pos2Z.inj_xI in Ha2. nia.
  - change (Z.pos p = Z.pos p~0 / 2). rewrite Pos2Z.inj_xO.
    apply Z.div_unique with 0; lia.
  - nia.
Qed.

Lemma shr_shifted (m e n : Z) (l : location) :
  0 <= m -> 0 <= n ->
  shifted m l n (fst (shr (shr_record_of_loc m l) e n))
  /\ snd (shr (shr_record_of_loc m l) e n) = e + n.
Proof.
  intros Hm Hn. destruct n as [|p|p]; simpl; try lia.
  - split; [apply shifted_0|lia].
  - split; [|done].
    apply (iter_pos_invariant shr_1 (shifted m l)
             (fun k x Hk Hx => shifted_step m l k x Hm Hk Hx) p 0); [lia|].
    apply shifted_0.
Qed.

Lemma shr_fexp_shifted (m e : Z) (l : location) :
  0 <= m -> e <= fexp64 (Zdigits2 m + e) ->
  shifted m l (fexp64 (Zdigits2 m + e) - e) (fst (shr_fexp Num.prec Num.emax m e l))
  /\ snd (shr_fexp Num.prec Num.emax m e l) = fexp64 (Zdigits2 m + e).
Proof.
  intros Hm He. unfold shr_fexp. fold (fexp64 (Zdigits2 m + e)).
  destruct (shr_shifted m e (fexp64 (Zdigits2 m + e) - e) l) as [H1 H2]; [done|lia|].
  split; [done|]. rewrite H2. lia.
Qed.

Lemma shr_fexp_zero (e : Z) (l : location) :
  shr_m (fst (shr_fexp Num.prec Num.emax 0 e l)) = 0.
Proof.
  unfold shr_fexp. set (n := _ - e). destruct (Z.le_gt_cases 0 n) as [Hn|Hn].
  - destruct (shr_shifted 0 e n l) as [[H _] _]; [done|done|].
    rewrite H. apply Z.div_0_l. apply Z.pow_nonzero; lia.
  - destruct n; try lia. by destruct l as [|[]].
Qed.

Lemma round_nearest_even_cases (mrs : shr_record) :
  round_nearest_even (shr_m mrs) (loc_of_shr_record mrs) = shr_m mrs
  \/ (shr_r mrs = true
      /\ round_nearest_even (shr_m mrs) (loc_of_shr_record mrs) = shr_m mrs + 1).
Proof.
  destruct mrs as [a [] []]; simpl; auto.
  destruct (Z.even a); auto.
Qed.


(** Every [fexp64 x] of the goal and of the hypotheses, as a maximum. *)
Ltac fexp_facts :=
  repeat match goal with
         | |- context [fexp64 ?x] =>
             lazymatch goal with
             | _ : fexp64 x = Z.max (x - 53) (-1074) |- _ => fail
             | _ => pose proof (fexp64_eq x)
             end
         | _ : context [fexp64 ?x] |- _ =>
             lazymatch goal with
             | _ : fexp64 x = Z.max (x - 53) (-1074) |- _ => fail
             | _ => pose proof (fexp64_eq x)
             end
         end.

(** Rounding a positive quantity that is at most [K * 2 ^ et], a point of
    the grid on which the quantity is rounded, gives a number that is at
    most that point, and that is zero or in canonical form. *)
Lemma bra_upper (mx ex : Z) (lx : location) (K : Z) :
  let et := fexp64 (Zdigits2 mx + ex) in
  0 < mx -> ex <= et ->
  mx + inexact lx <= K * 2 ^ (et - ex) ->
  et <= 971 -> Zdigits2 K + et <= 1024 ->
  bra false mx ex lx = S754_zero false
  \/ exists m e,
       bra false mx ex lx = S754_finite false m e
       /\ et <= e
       /\ Z.pos m * 2 ^ (e - et) <= K
       /\ fexp64 (Z.pos (digits2_pos m) + e) = e.
Proof.
  intros et Hmx Hex HK Het HdK.
  assert (Eet : et = fexp64 (Zdigits2 mx + ex)) by reflexivity. clearbody et.
  assert (Hp : 0 < 2 ^ (et - ex)) by (apply Z.pow_pos_nonneg; lia).
  assert (Hl : 0 <= inexact lx <= 1) by (destruct lx; simpl; lia).
  unfold bra, binary_round_aux.
  destruct (shr_fexp_shifted mx ex lx) as [[Hmt Hr] He1]; [lia|by rewrite <- Eet|].
  rewrite <- Eet in Hmt, Hr, He1.
  destruct (shr_fexp Num.prec Num.emax mx ex lx) as [mrs e1]. simpl in Hmt, Hr, He1.
  subst e1.
  remember (shr_m mrs) as mt eqn:Emt.
  assert (Hmt0 : 0 <= mt) by (rewrite Hmt; apply Z.div_pos; lia).
  assert (Hmt1 : mt * 2 ^ (et - ex) <= mx).
  { rewrite Hmt. pose proof (Z.mul_div_le mx _ Hp). lia. }
  (* the rounded mantissa *)
  remember (round_nearest_even mt (loc_of_shr_record mrs)) as mr eqn:Emr.
  assert (Hmr : mt <= mr <= mt + 1 /\ mr <= K).
  { destruct (round_nearest_even_cases mrs) as [E|[Hr1 E]];
      rewrite <- Emt in E; rewrite <- Emr in E.
    - rewrite E. split; [lia|]. nia.
    - rewrite E. split; [lia|]. specialize (Hr Hr1).
      destruct (Z.le_gt_cases (mt + 1) K) as [|Hgt]; [done|exfalso].
      assert (K * 2 ^ (et - ex) <= mt * 2 ^ (et - ex))
        by (apply Z.mul_le_mono_nonneg_r; lia).
      lia. }
  destruct Hmr as [Hmr HmrK].
  (* the exponent of the rounded mantissa *)
  assert (Hcan : mr = 0 \/ et <= fexp64 (Zdigits2 mr + et)).
  { destruct (Z.eq_dec mt 0) as [Hz|Hnz].
    - destruct (Z.eq_dec mr 0); [by left|right].
      assert (mr = 1) as -> by lia. simpl.
      assert (mx < 2 ^ (et - ex)).
      { rewrite Hz in Hmt. symmetry in Hmt.
        apply Z.div_small_iff in Hmt; lia. }
      pose proof (Zdigits2_bounds mx Hmx) as [Hlo _].
      assert (Zdigits2 mx - 1 < et - ex).
      { apply (Z.pow_lt_mono_r_iff 2); lia. }
      fexp_facts. lia.
    - right. assert (Hd : Zdigits2 mt = Zdigits2 mx - (et - ex)).
      { rewrite Hmt. apply Zdigits2_div_pow2; [lia|]. rewrite <- Hmt. lia. }
      pose proof (Zdigits2_mono mt mr ltac:(lia)).
      fexp_facts. lia. }
  destruct Hcan as [Hz|Hcan].
  { left. rewrite Hz. pose proof (shr_fexp_zero et loc_Exact) as H0.
    destruct (shr_fexp Num.prec Num.emax 0 et loc_Exact) as [mrs0 e0].
    simpl in H0. by rewrite H0. }
  destruct (shr_fexp_shifted mr et loc_Exact) as [[Hm2 _] He2]; [lia|done|].
  destruct (shr_fexp Num.prec Num.emax mr et loc_Exact) as [mrs2 e2].
  simpl in Hm2, He2. subst e2.
  remember (fexp64 (Zdigits2 mr + et)) as e2 eqn:Ee2.
  assert (Hpk : 0 < 2 ^ (e2 - et)) by (apply Z.pow_pos_nonneg; lia).
  assert (Hm2le : shr_m mrs2 * 2 ^ (e2 - et) <= mr).
  { rewrite Hm2. pose proof (Z.mul_div_le mr _ Hpk). lia. }
  assert (Hm2pos : 0 <= shr_m mrs2) by (rewrite Hm2; apply Z.div_pos; lia).
  destruct (shr_m mrs2) as [|m2|m2] eqn:E2; [by left| |lia].
  right. exists m2, e2.
  assert (Hover : e2 <= 971).
  { pose proof (Zdigits2_mono mr K ltac:(lia)). fexp_facts. lia. }
  split.
  { change (Num.emax - Num.prec) with 971.
    destruct (Z.leb_spec e2 971); [done|lia]. }
  split; [lia|]. split; [lia|].
  change (Z.pos (digits2_pos m2)) with (Zdigits2 (Z.pos m2)).
  rewrite Hm2, Zdigits2_div_pow2; [|lia|rewrite <- Hm2; lia].
  rewrite Ee2. f_equal. lia.
Qed.

Lemma Zdigits2_mul_pow2 (m k : Z) :
  0 < m -> 0 <= k -> Zdigits2 (m * 2 ^ k) = Zdigits2 m + k.
Proof.
  intros Hm Hk. pose proof (Zdigits2_bounds m Hm) as [Hlo Hhi].
  pose proof (Zdigits2_pos m Hm).
  assert (Hp : 0 < 2 ^ k) by (apply Z.pow_pos_nonneg; lia).
  apply Zdigits2_unique; [|lia].
  replace (Zdigits2 m + k - 1) with (Zdigits2 m - 1 + k) by lia.
  rewrite !Z.pow_add_r by lia. split.
  - apply Z.mul_le_mono_nonneg_r; lia.
  - apply Z.mul_lt_mono_pos_r; lia.
Qed.

Lemma Zdigits2_pow2 (k : Z) : 0 <= k -> Zdigits2 (2 ^ k) = k + 1.
Proof.
  intros Hk. replace (2 ^ k) with (1 * 2 ^ k) by lia.
  rewrite Zdigits2_mul_pow2 by lia. simpl. lia.
Qed.

Lemma Zdigits2_lt_pow2 (m a : Z) : 0 <= a -> 0 <= m < 2 ^ a -> Zdigits2 m <= a.
Proof.
  intros Ha [Hm Hlt]. destruct (Z.eq_dec m 0) as [->|Hne]; [simpl; lia|].
  pose proof (Zdigits2_bounds m ltac:(lia)) as [Hlo _].
  assert (Zdigits2 m - 1 < a); [|lia].
  apply (Z.pow_lt_mono_r_iff 2); lia.
Qed.

Lemma Zdigits2_ge_pow2 (m a : Z) : 0 <= a -> 2 ^ a <= m -> a + 1 <= Zdigits2 m.
Proof.
  intros Ha Hm. rewrite <- (Zdigits2_pow2 a) by done.
  apply Zdigits2_mono. split; [|done]. apply Z.pow_nonneg. lia.
Qed.

(** Two positive numbers in canonical form, the second one normal,
    compare as their values do. *)
Lemma le_of_scaled (m : positive) (e : Z) (mB : positive) (eB et : Z) :
  fexp64 (Z.pos (digits2_pos m) + e) = e ->
  Z.pos (digits2_pos mB) = 53 -> -1074 <= eB ->
  et <= e -> et <= eB ->
  Z.pos m * 2 ^ (e - et) <= Z.pos mB * 2 ^ (eB - et) ->
  Num.le (S754_finite false m e) (S754_finite false mB eB) = true.
Proof.
  intros Hcan HdB HeB He1 He2 Hle. unfold Num.le, SFleb, SFcompare.
  change (Z.pos (digits2_pos m)) with (Zdigits2 (Z.pos m)) in Hcan.
  change (Z.pos (digits2_pos mB)) with (Zdigits2 (Z.pos mB)) in HdB.
  pose proof (Zdigits2_bounds (Z.pos mB) ltac:(lia)) as [_ HhiB]. rewrite HdB in HhiB.
  assert (Hp : 0 < 2 ^ (eB - et)) by (apply Z.pow_pos_nonneg; lia).
  destruct (Z.compare_spec e eB) as [Heq|Hlt|Hgt]; [|done|exfalso].
  - subst e. assert (Z.pos m <= Z.pos mB).
    { apply (Z.mul_le_mono_pos_r _ _ (2 ^ (eB - et))); done. }
    fold (Pos.compare m mB). destruct (Pos.compare_spec m mB); [done|done|lia].
  - assert (Hd : Zdigits2 (Z.pos m) = 53) by (fexp_facts; lia).
    pose proof (Zdigits2_bounds (Z.pos m) ltac:(lia)) as [Hlo _]. rewrite Hd in Hlo.
    replace (e - et) with ((e - eB - 1) + 1 + (eB - et)) in Hle by lia.
    rewrite !Z.pow_add_r in Hle by lia.
    assert (0 < 2 ^ (e - eB - 1)) by (apply Z.pow_pos_nonneg; lia).
    change (2 ^ (53 - 1)) with 4503599627370496 in Hlo.
    change (2 ^ 53) with 9007199254740992 in HhiB.
    change (2 ^ 1) with 2 in Hle.
    set (A := 2 ^ (e - eB - 1)) in *. set (P := 2 ^ (eB - et)) in *.
    assert (P <= A * P) by nia.
    assert (4503599627370496 * P <= Z.pos m * P)
      by (apply Z.mul_le_mono_nonneg_r; lia).
    assert (Z.pos m * P <= Z.pos m * (A * P))
      by (apply Z.mul_le_mono_nonneg_l; lia).
    assert (Z.pos mB * P < 9007199254740992 * P)
      by (apply Z.mul_lt_mono_pos_r; lia).
    lia.
Qed.

Lemma zero_le_nonneg (x : number) :
  x = S754_zero false \/ (exists m e, x = S754_finite false m e) ->
  Num.le Num.zero x = true.
Proof. by intros [->|(m & e & ->)]. Qed.

Lemma le_zero_finite (m : positive) (e : Z) :
  Num.le (S754_zero false) (S754_finite false m e) = true.
Proof. reflexivity. Qed.

(** *** Integers as numbers *)

Lemma iter_xO (p d : positive) : Z.pos (Pos.iter xO p d) = Z.pos p * 2 ^ Z.pos d.
Proof.
  induction d as [|d IH] using Pos.peano_ind.
  - simpl. lia.
  - rewrite Pos.iter_succ, Pos2Z.inj_xO, IH, Pos2Z.inj_succ, Z.pow_succ_r; lia.
Qed.

Lemma bra_exact (s : bool) (m : positive) (e : Z) :
  fexp64 (Z.pos (digits2_pos m) + e) = e -> e <= 971 ->
  bra s (Z.pos m) e loc_Exact = S754_finite s m e.
Proof.
  intros Hcan He. unfold bra, binary_round_aux, shr_fexp. simpl Zdigits2.
  fold (fexp64 (Z.pos (digits2_pos m) + e)). rewrite Hcan, Z.sub_diag. simpl.
  fold (fexp64 (Z.pos (digits2_pos m) + e)). rewrite Hcan, Z.sub_diag. simpl.
  change (Num.emax - Num.prec) with 971.
  destruct (Z.leb_spec e 971); [done|lia].
Qed.

(** A positive integer below 2^53 is a number exactly: its mantissa has
    53 digits and its value is the integer. *)
Lemma of_Z_exact (n : Z) :
  0 < n < 2 ^ 53 ->
  exists m e,
    Num.of_Z n = S754_finite false m e
    /\ Z.pos (digits2_pos m) = 53
    /\ e = Zdigits2 n - 53
    /\ Z.pos m = n * 2 ^ (- e).
Proof.
  intros [Hn Hlt]. destruct n as [|p|p]; try lia.
  pose proof (Zdigits2_lt_pow2 (Z.pos p) 53 ltac:(lia) ltac:(lia)) as Hd.
  pose proof (Zdigits2_pos (Z.pos p) ltac:(lia)) as Hd0.
  unfold Num.of_Z, binary_normalize, binary_round.
  fold (fexp64 (Z.pos (digits2_pos p) + 0)).
  change (Z.pos (digits2_pos p)) with (Zdigits2 (Z.pos p)) in *.
  assert (Hf : fexp64 (Zdigits2 (Z.pos p) + 0) = Zdigits2 (Z.pos p) - 53)
    by (fexp_facts; lia).
  rewrite Hf. unfold shl_align. rewrite Z.sub_0_r.
  destruct (Zdigits2 (Z.pos p) - 53) as [|q|q] eqn:E; try lia.
  - exists p, 0. fold bra. rewrite bra_exact; [|simpl Zdigits2 in *; fexp_facts; lia|lia].
    simpl Zdigits2 in *. split; [done|]. split; [lia|]. split; [done|].
    simpl. lia.
  - exists (Pos.iter xO p q), (Z.neg q). fold bra.
    assert (Hm : Z.pos (Pos.iter xO p q) = Z.pos p * 2 ^ Z.pos q) by apply iter_xO.
    assert (Hdm : Zdigits2 (Z.pos (Pos.iter xO p q)) = 53).
    { rewrite Hm, Zdigits2_mul_pow2; lia. }
    simpl Zdigits2 in Hdm.
    rewrite bra_exact; [|rewrite Hdm; fexp_facts; lia|lia].
    split; [done|]. split; [done|]. split; [done|].
    rewrite Hm. reflexivity.
Qed.

Lemma inexact_new_location (n k : Z) :
  inexact (new_location n k) = if k =? 0 then 0 else 1.
Proof.
  unfold new_location, new_location_even, new_location_odd.
  destruct (Z.even n), (k =? 0); reflexivity.
Qed.

(** *** A quotient that is at most one *)

Lemma div_le_one (mx : positive) (ex : Z) (my : positive) (ey : Z) :
  Z.pos (digits2_pos mx) = 53 -> Z.pos (digits2_pos my) = 53 ->
  ex <= ey -> ey - ex <= 60 ->
  Z.pos mx <= Z.pos my * 2 ^ (ey - ex) ->
  Num.div (S754_finite false mx ex) (S754_finite false my ey) = S754_zero false
  \/ exists m e,
       Num.div (S754_finite false mx ex) (S754_finite false my ey)
       = S754_finite false m e
       /\ e <= 0
       /\ Z.pos m <= 2 ^ (- e)
       /\ fexp64 (Z.pos (digits2_pos m) + e) = e.
Proof.
  intros Hdx Hdy He1 He2 Hle.
  unfold Num.div, SFdiv, SFdiv_core_binary. simpl Zdigits2. rewrite Hdx, Hdy.
  fold (fexp64 (53 + ex - (53 + ey))).
  assert (Hf : fexp64 (53 + ex - (53 + ey)) = ex - ey - 53) by (fexp_facts; lia).
  rewrite Hf. rewrite Z.min_l by lia.
  replace (ex - ey - (ex - ey - 53)) with 53 by lia.
  rewrite Z.shiftl_mul_pow2 by lia.
  pose proof (Z_div_mod (Z.pos mx * 2 ^ 53) (Z.pos my) ltac:(lia)) as Hdm.
  destruct (Z.div_eucl (Z.pos mx * 2 ^ 53) (Z.pos my)) as [q r].
  destruct Hdm as [Hdm Hr].
  change (Z.pos (digits2_pos mx)) with (Zdigits2 (Z.pos mx)) in Hdx.
  change (Z.pos (digits2_pos my)) with (Zdigits2 (Z.pos my)) in Hdy.
  pose proof (Zdigits2_bounds (Z.pos mx) ltac:(lia)) as [Hxlo _]. rewrite Hdx in Hxlo.
  pose proof (Zdigits2_bounds (Z.pos my) ltac:(lia)) as [_ Hyhi]. rewrite Hdy in Hyhi.
  change (2 ^ (53 - 1)) with 4503599627370496 in Hxlo.
  change (2 ^ 53) with 9007199254740992 in *.
  set (P := 2 ^ (ey - ex)) in *.
  assert (HP : 0 < P) by (apply Z.pow_pos_nonneg; lia).
  (* the quotient has 53 digits or more, and is at most 2^53 * P *)
  assert (Hqlo : 4503599627370496 <= q) by nia.
  assert (Hqhi : q + (if r =? 0 then 0 else 1) <= 9007199254740992 * P).
  { assert (Z.pos my * q + r <= Z.pos my * (9007199254740992 * P)) by nia.
    destruct (Z.eqb_spec r 0); nia. }
  pose proof (Zdigits2_ge_pow2 q 52 ltac:(lia) ltac:(done)) as Hdqlo.
  assert (Hdqhi : Zdigits2 q <= 54 + (ey - ex)).
  { apply Zdigits2_lt_pow2; [lia|]. split; [lia|].
    replace (54 + (ey - ex)) with (53 + 1 + (ey - ex)) by lia.
    rewrite !Z.pow_add_r by lia. fold P.
    change (2 ^ 53) with 9007199254740992. change (2 ^ 1) with 2.
    destruct (r =? 0); lia. }
  set (et := fexp64 (Zdigits2 q + (ex - ey - 53))).
  assert (Het : et = Zdigits2 q + (ex - ey - 53) - 53) by (unfold et; fexp_facts; lia).
  simpl xorb. fold bra.
  destruct (bra_upper q (ex - ey - 53) (new_location (Z.pos my) r) (2 ^ (- et)))
    as [Hz|(m & e & Hb & Hee & Hv & Hcan)]; fold et.
  - lia.
  - lia.
  - rewrite inexact_new_location, <- Z.pow_add_r by lia.
    replace (- et + (et - (ex - ey - 53))) with (53 + (ey - ex)) by lia.
    rewrite Z.pow_add_r by lia. fold P. change (2 ^ 53) with 9007199254740992. lia.
  - lia.
  - rewrite Zdigits2_pow2 by lia. lia.
  - by left.
  - right. exists m, e. split; [exact Hb|]. fold et in Hee, Hv.
    assert (Hpe : 0 < 2 ^ (e - et)) by (apply Z.pow_pos_nonneg; lia).
    assert (Hpe' : 0 < 2 ^ (- et)) by (apply Z.pow_pos_nonneg; lia).
    assert (He0 : e <= 0).
    { destruct (Z.le_gt_cases e 0); [done|exfalso].
      assert (2 ^ (- et) < 2 ^ (e - et)) by (apply Z.pow_lt_mono_r; lia). nia. }
    split; [done|]. split; [|done].
    replace (- et) with (- e + (e - et)) in Hv by lia.
    rewrite Z.pow_add_r in Hv by lia.
    apply (Z.mul_le_mono_pos_r _ _ (2 ^ (e - et))); done.
Qed.

(** *** A hundred times a number that is at most one *)

Lemma mul_hundred_le (m : positive) (e : Z) :
  e <= 0 -> Z.pos m <= 2 ^ (- e) ->
  fexp64 (Z.pos (digits2_pos m) + e) = e ->
  Num.le Num.zero (Num.mul (S754_finite false m e) (Num.of_Z 100)) = true
  /\ Num.le (Num.mul (S754_finite false m e) (Num.of_Z 100)) (Num.of_Z 100) = true.
Proof.
  intros He Hm Hcan.
  change (Num.of_Z 100) with (S754_finite false 7036874417766400 (-46)).
  unfold Num.mul, SFmul. simpl xorb. fold bra.
  change (Z.pos (digits2_pos m)) with (Zdigits2 (Z.pos m)) in Hcan.
  rewrite Pos2Z.inj_mul.
  set (M := 7036874417766400) in *.
  assert (HM : 2 ^ 52 <= M < 2 ^ 53) by (unfold M; split; [by vm_compute|reflexivity]).
  assert (HdM : Zdigits2 M = 53) by reflexivity.
  assert (Hpe : 0 < 2 ^ (- e)) by (apply Z.pow_pos_nonneg; lia).
  pose proof (Zdigits2_bounds (Z.pos m) ltac:(lia)) as [Hlo _].
  pose proof (Zdigits2_pos (Z.pos m) ltac:(lia)) as Hd0.
  assert (HDlo : Zdigits2 (Z.pos m) + 52 <= Zdigits2 (Z.pos m * M)).
  { replace (Zdigits2 (Z.pos m) + 52) with (Zdigits2 (Z.pos m) - 1 + 52 + 1) by lia.
    apply Zdigits2_ge_pow2; [lia|]. rewrite Z.pow_add_r by lia.
    apply Z.mul_le_mono_nonneg; try lia. }
  assert (HDhi : Zdigits2 (Z.pos m * M) <= 53 - e).
  { apply Zdigits2_lt_pow2; [lia|]. split; [lia|].
    replace (53 - e) with (- e + 53) by lia. rewrite Z.pow_add_r by lia.
    apply Z.le_lt_trans with (2 ^ (- e) * M).
    - apply Z.mul_le_mono_nonneg_r; lia.
    - apply Z.mul_lt_mono_pos_l; lia. }
  set (et := fexp64 (Zdigits2 (Z.pos m * M) + (e + -46))).
  assert (Het1 : e + -46 <= et) by (unfold et; fexp_facts; lia).
  assert (Het2 : et <= -46) by (unfold et; fexp_facts; lia).
  assert (Hpk : 0 < 2 ^ (-46 - et)) by (apply Z.pow_pos_nonneg; lia).
  destruct (bra_upper (Z.pos m * M) (e + -46) loc_Exact (M * 2 ^ (-46 - et)))
    as [Hz|(m2 & e2 & Hb & Hee & Hv & Hcan2)]; fold et.
  - lia.
  - done.
  - simpl inexact. rewrite <- Z.mul_assoc, <- Z.pow_add_r by lia.
    replace (-46 - et + (et - (e + -46))) with (- e) by lia.
    rewrite Z.add_0_r, (Z.mul_comm (Z.pos m)).
    apply Z.mul_le_mono_nonneg_l; lia.
  - lia.
  - rewrite Zdigits2_mul_pow2 by lia. lia.
  - rewrite Hz. split; reflexivity.
  - rewrite Hb. split; [reflexivity|]. fold et in Hee, Hv.
    apply (le_of_scaled m2 e2 _ (-46) et); try done; lia.
Qed.

(** For integers [0 <= d <= r] with [r] positive and below 2^53, the
    number [(d / r) * 100] lies between 0 and 100. *)
Lemma percentage_bounds (d r : Z) :
  0 <= d <= r -> 0 < r < 2 ^ 53 ->
  Num.le Num.zero (percentage (Num.of_Z d) (Num.of_Z r)) = true
  /\ Num.le (percentage (Num.of_Z d) (Num.of_Z r)) (Num.of_Z 100) = true.
Proof.
  intros [Hd Hdr] Hr. unfold percentage.
  destruct (of_Z_exact r Hr) as (mr & er & -> & Hdmr & Her & Hmr).
  destruct (Z.eq_dec d 0) as [->|Hd0]; [split; reflexivity|].
  destruct (of_Z_exact d ltac:(lia)) as (md & ed & -> & Hdmd & Hed & Hmd).
  pose proof (Zdigits2_mono d r ltac:(lia)) as Hmono.
  pose proof (Zdigits2_pos d ltac:(lia)).
  pose proof (Zdigits2_lt_pow2 r 53 ltac:(lia) ltac:(lia)).
  destruct (div_le_one md ed mr er) as [->|(m & e & -> & He & Hm & Hcan)];
    try done; try lia.
  - rewrite Hmd, Hmr, <- Z.mul_assoc, <- Z.pow_add_r by lia.
    replace (- er + (er - ed)) with (- ed) by lia.
    apply Z.mul_le_mono_nonneg_r; [apply Z.pow_nonneg|]; lia.
  - by apply mul_hundred_le.
Qed.

(** ** Properties of the profile *)

Lemma profile_columns_acc (data : list row) (fields : list string) (n : Z)
  (cols : list DataColumn.t) :
  fold_left (fun '(nullCount, columns) field =>
               let '(fieldNulls, column) := profile_column data field in
               (nullCount + fieldNulls, columns ++ [column]))
            fields (n, cols)
  = (n + foldr Z.add 0 (map (fun f => fst (profile_column data f)) fields),
     cols ++ map (fun f => snd (profile_column data f)) fields).
Proof.
  revert n cols. induction fields as [|f fields IH]; intros n cols; simpl.
  - by rewrite Z.add_0_r, app_nil_r.
  - destruct (profile_column data f) as [k c] eqn:E. rewrite IH. simpl.
    f_equal; [lia | by rewrite <- app_assoc].
Qed.

Lemma profile_columns_eq (data : list row) (fields : list string) :
  profile_columns data fields
  = (foldr Z.add 0 (map (fun f => fst (profile_column data f)) fields),
     map (fun f => snd (profile_column data f)) fields).
Proof. unfold profile_columns. by rewrite profile_columns_acc. Qed.

Lemma profile_column_nullCount (data : list row) (f : string) :
  DataColumn.nullCount (snd (profile_column data f)) = Some (fst (profile_column data f)).
Proof. reflexivity. Qed.

Lemma generateDataProfile_columns (dataset : DatasetType.t) :
  DataProfile.columns (generateDataProfile dataset)
  = map (fun f => snd (profile_column (DatasetType.data dataset) f))
        (DatasetType.fields dataset).
Proof. unfold generateDataProfile. by rewrite profile_columns_eq. Qed.

Lemma generateDataProfile_nullValues (dataset : DatasetType.t) :
  DataProfile.nullValues (generateDataProfile dataset)
  = foldr Z.add 0 (map (fun f => fst (profile_column (DatasetType.data dataset) f))
                       (DatasetType.fields dataset)).
Proof. unfold generateDataProfile. by rewrite profile_columns_eq. Qed.

(** C1. For every dataset, the profile's [nullValues] is the sum over its
    columns of the column's [nullCount], and every column has one. *)
Theorem C1_nullValues_is_sum_of_nullCount (dataset : DatasetType.t) :
  let profile := generateDataProfile dataset in
  Forall (fun c => is_Some (DataColumn.nullCount c)) (DataProfile.columns profile)
  /\ DataProfile.nullValues profile = sum_nullCount (DataProfile.columns profile).
Proof.
  cbv zeta. rewrite generateDataProfile_columns, generateDataProfile_nullValues.
  split.
  - apply List.Forall_forall. intros c Hc. apply in_map_iff in Hc as (f & <- & _).
    rewrite profile_column_nullCount. by eexists.
  - unfold sum_nullCount.
    induction (DatasetType.fields dataset) as [|f fs IH]; cbn [map foldr].
    + reflexivity.
    + rewrite IH, profile_column_nullCount. reflexivity.
Qed.

(** ** The date pattern *)

Lemma match_here_search (p : list RegExp.atom) (s : string) :
  RegExp.match_here p s = true -> RegExp.search p s = true.
Proof. intros H. destruct s; simpl; rewrite H; reflexivity. Qed.

(** A string that starts with a date in one of the three formats is
    classified as a date. *)
Lemma starts_with_date_is_date (s : string) :
  starts_with_date s = true -> value_type (VStr s) = TDate.
Proof.
  unfold starts_with_date, value_type, RegExp.test, datePattern.
  cbn [existsb RegExp.anchored RegExp.atoms]. intros H.
  apply orb_true_iff in H as [H|H]; [by rewrite H|].
  apply orb_true_iff in H as [H|H].
  - rewrite (match_here_search _ _ H). by rewrite orb_true_r.
  - apply orb_true_iff in H as [H|H]; [|done].
    rewrite (match_here_search _ _ H). by rewrite !orb_true_r.
Qed.

(** C3. The string ["x12/31/2020"] starts with none of the three date
    formats, and still [determineColumnType] classifies it as a date:
    only the first alternative of the pattern is anchored. *)
Theorem C3_date_found_inside_a_string :
  starts_with_date "x12/31/2020" = false
  /\ value_type (VStr "x12/31/2020") = TDate
  /\ determineColumnType [VStr "x12/31/2020"] = TDate.
Proof. repeat split; vm_compute; reflexivity. Qed.

(** ** Recommendations *)

Lemma missing_recommendation_by_type (column : DataColumn.t) :
  missing_recommendation column = recommendation_for column.
Proof.
  unfold missing_recommendation, recommendation_for.
  destruct (DataColumn.type column); reflexivity.
Qed.

(** C4 (amended). Every missing suggestion that [generateCleaningSuggestions]
    emits comes from a column of the profile and carries the text
    ['Fill with mean or median value'] when the column's type is number,
    ['Fill with most common value: "<mode>"'] when its type is string and
    its mode is truthy, and ['Remove rows or fill with placeholder'] in
    every other case, boolean columns included. *)
Theorem C4_missing_recommendation_by_type (profile : DataProfile.t)
  (s : CleaningSuggestion.t) :
  In s (generateCleaningSuggestions profile) ->
  CleaningSuggestion.issue s = Missing ->
  exists column,
    In column (DataProfile.columns profile)
    /\ CleaningSuggestion.column s = DataColumn.name column
    /\ CleaningSuggestion.recommendation s = recommendation_for column.
Proof.
  unfold generateCleaningSuggestions. intros Hin Hissue.
  apply in_app_or in Hin as [Hin|Hin]; [|apply in_app_or in Hin as [Hin|Hin]].
  - unfold missing_suggestions in Hin. apply in_flat_map in Hin as (c & Hc & Hs).
    destruct (has_missing c); [|contradiction].
    destruct Hs as [<-|[]]. exists c. split; [done|]. split; [done|].
    apply missing_recommendation_by_type.
  - unfold duplicate_suggestions in Hin.
    destruct (Num.gt _ _); [|contradiction].
    destruct Hin as [<-|[]]. discriminate.
  - unfold outlier_suggestions in Hin. apply in_flat_map in Hin as (c & _ & Hs).
    unfold outlier_suggestion in Hs.
    destruct (DataColumn.min c), (DataColumn.max c), (DataColumn.mean c);
      try contradiction.
    destruct (_ && _); [|contradiction].
    destruct Hs as [<-|[]]. discriminate.
Qed.

(** ** Answers *)

(** C8. A question that contains "how many rows" or "how many records",
    whatever its case, is answered with the number of rows; the question
    "How many rows are in this dataset?" on the dataset of scenario A is
    answered "There are 3 rows in this dataset." *)
Theorem C8_row_count_answer :
  (forall (question : string) (dataset : DatasetType.t),
      Str.includes (Str.toLowerCase question) "how many rows" = true
      \/ Str.includes (Str.toLowerCase question) "how many records" = true ->
      generateAnswer question dataset
      = Returns ("There are "
                 +:+ Str.of_Z (Z.of_nat (length (DatasetType.data dataset)))
                 +:+ " rows in this dataset."))
  /\ generateAnswer "How many rows are in this dataset?" scenario_A
     = Returns "There are 3 rows in this dataset.".
Proof.
  split; [|reflexivity].
  intros question dataset H. unfold generateAnswer, asks. cbn [existsb].
  destruct H as [-> | ->]; [reflexivity|]. by rewrite orb_true_r.
Qed.

Lemma answer_from_average_not_extremum (q : string) (data : list row) (c : string) :
  answer_from_average q data c <> Returns (maximum_answer data c)
  /\ answer_from_average q data c <> Returns (minimum_answer data c).
Proof.
  unfold answer_from_average, answer_from_unique, answer_from_missing,
    column_summary, maximum_answer, minimum_answer.
  split; repeat (match goal with |- context [if ?b then _ else _] => destruct b end);
    try destruct data; simpl; intros H; discriminate H.
Qed.

Lemma answer_from_minimum_fallthrough (q : string) (data : list row) (c : string) :
  first_is_number (List.filter is_defined (column_values data c)) = false ->
  answer_from_minimum q data c = answer_from_average q data c.
Proof. unfold answer_from_minimum. intros ->. by rewrite andb_false_r. Qed.

(** C10. When the question names a column, the maximum (or minimum)
    answer is given if the first value of the column that is neither
    null nor undefined is a number; if it is not a number, the answer is
    the one of the later tests (average, unique, missing, summary),
    never a maximum or a minimum, whatever the other cells hold. *)
Theorem C10_extremum_needs_first_value_numeric (question : string)
  (dataset : DatasetType.t) (mentionedColumn : string) :
  let q := Str.toLowerCase question in
  let data := DatasetType.data dataset in
  let values := List.filter is_defined (column_values data mentionedColumn) in
  asks q ["how many rows"; "how many records"] = false ->
  asks q ["how many columns"; "how many fields"] = false ->
  asks q ["what columns"; "what fields"] = false ->
  mentioned_column q (DatasetType.fields dataset) = Some mentionedColumn ->
  mentionedColumn <> "" ->
  (asks q ["maximum"; "max"; "highest"] = true ->
   first_is_number values = true ->
   generateAnswer question dataset = Returns (maximum_answer data mentionedColumn))
  /\ (asks q ["maximum"; "max"; "highest"] = false ->
      asks q ["minimum"; "min"; "lowest"] = true ->
      first_is_number values = true ->
      generateAnswer question dataset = Returns (minimum_answer data mentionedColumn))
  /\ (first_is_number values = false ->
      generateAnswer question dataset = answer_from_average q data mentionedColumn
      /\ generateAnswer question dataset <> Returns (maximum_answer data mentionedColumn)
      /\ generateAnswer question dataset <> Returns (minimum_answer data mentionedColumn)).
Proof.
  intros q data values Hrows Hcols Hwhat Hmentioned Hname.
  assert (Hgen : generateAnswer question dataset
                 = answer_from_maximum q data mentionedColumn).
  { unfold generateAnswer. fold q. fold data.
    rewrite Hrows, Hcols, Hwhat, Hmentioned.
    destruct (Str.eqb mentionedColumn "") eqn:E; [|reflexivity].
    apply String.eqb_eq in E. contradiction. }
  rewrite Hgen. unfold answer_from_maximum. fold values.
  split; [|split].
  - intros -> ->. reflexivity.
  - intros -> Hmin Hnum. cbn [andb]. unfold answer_from_minimum. fold values.
    by rewrite Hmin, Hnum.
  - intros Hnum. rewrite Hnum, andb_false_r.
    rewrite answer_from_minimum_fallthrough by exact Hnum.
    split; [reflexivity|]. apply answer_from_average_not_extremum.
Qed.

(** ** Objects *)

Lemma obj_get_replace_eq {A} (k : string) (v : A) (o : obj A) :
  is_Some (obj_get k o) -> obj_get k (obj_replace k v o) = Some v.
Proof.
  induction o as [|[k' v'] o IH]; simpl; intros H.
  - by destruct H.
  - destruct (Str.eqb k' k) eqn:E; simpl; rewrite E; auto.
Qed.

Lemma obj_get_replace_ne {A} (k f : string) (v : A) (o : obj A) :
  f <> k -> obj_get f (obj_replace k v o) = obj_get f o.
Proof.
  intros Hne. induction o as [|[k' v'] o IH]; simpl; [done|].
  destruct (Str.eqb k' k) eqn:E; simpl.
  - apply String.eqb_eq in E as ->.
    destruct (Str.eqb k f) eqn:E'; [|done].
    apply String.eqb_eq in E'. congruence.
  - by rewrite IH.
Qed.

Lemma obj_replace_keys {A} (k : string) (v : A) (o : obj A) :
  map fst (obj_replace k v o) = map fst o.
Proof.
  induction o as [|[k' v'] o IH]; simpl; [done|].
  destruct (Str.eqb k' k); simpl; by rewrite ?IH.
Qed.

Lemma obj_get_insert_index_eq {A} (n : N) (k : string) (v : A) (o : obj A) :
  obj_get k o = None -> obj_get k (obj_insert_index n k v o) = Some v.
Proof.
  induction o as [|[k' v'] o IH]; simpl; intros H.
  - unfold Str.eqb. by rewrite String.eqb_refl.
  - destruct (Str.eqb k' k) eqn:E; [done|].
    destruct (array_index k') as [n'|]; [destruct (n' <? n)%N|]; simpl;
      rewrite ?E; auto; unfold Str.eqb; by rewrite String.eqb_refl.
Qed.

Lemma obj_get_insert_index_ne {A} (n : N) (k f : string) (v : A) (o : obj A) :
  f <> k -> obj_get f (obj_insert_index n k v o) = obj_get f o.
Proof.
  intros Hne.
  assert (Hk : Str.eqb k f = false) by (apply String.eqb_neq; congruence).
  induction o as [|[k' v'] o IH]; simpl; [by rewrite Hk|].
  destruct (array_index k') as [n'|]; [destruct (n' <? n)%N|]; simpl;
    rewrite ?Hk, ?IH; reflexivity.
Qed.

Lemma obj_get_app_eq {A} (k : string) (v : A) (o : obj A) :
  obj_get k o = None -> obj_get k (o ++ [(k, v)]) = Some v.
Proof.
  induction o as [|[k' v'] o IH]; simpl; intros H.
  - unfold Str.eqb. by rewrite String.eqb_refl.
  - destruct (Str.eqb k' k); [done|auto].
Qed.

Lemma obj_get_app_ne {A} (k f : string) (v : A) (o : obj A) :
  f <> k -> obj_get f (o ++ [(k, v)]) = obj_get f o.
Proof.
  intros Hne.
  assert (Hk : Str.eqb k f = false) by (apply String.eqb_neq; congruence).
  induction o as [|[k' v'] o IH]; simpl; [by rewrite Hk|].
  by rewrite IH.
Qed.

(** Reading back the property that was written, and any other one. *)
Lemma get_set_eq (k : string) (v : value) (r : row) :
  get (obj_set k v r) k = v.
Proof.
  unfold get, obj_set. destruct (obj_get k r) eqn:E.
  - rewrite obj_get_replace_eq; [done|by rewrite E].
  - destruct (array_index k).
    + by rewrite obj_get_insert_index_eq.
    + by rewrite obj_get_app_eq.
Qed.

Lemma get_set_ne (k f : string) (v : value) (r : row) :
  f <> k -> get (obj_set k v r) f = get r f.
Proof.
  intros Hne. unfold get, obj_set. destruct (obj_get k r).
  - by rewrite obj_get_replace_ne.
  - destruct (array_index k).
    + by rewrite obj_get_insert_index_ne.
    + by rewrite obj_get_app_ne.
Qed.

Lemma obj_set_keys_present {A} (k : string) (v : A) (o : obj A) :
  is_Some (obj_get k o) -> map fst (obj_set k v o) = map fst o.
Proof.
  intros [x Hx]. unfold obj_set. rewrite Hx. apply obj_replace_keys.
Qed.

(** ** Capping outliers *)

Lemma cap_outlier_capped (cap : number) (name : string) (r : row) :
  capped_at cap name r (cap_outlier cap name r).
Proof.
  unfold capped_at, cap_outlier, above_cap.
  destruct (get r name) as [| |x| |] eqn:E; try reflexivity.
  destruct (Num.gt x cap); [|reflexivity].
  split; [apply get_set_eq|]. split; [intros f Hf; by apply get_set_ne|].
  apply obj_set_keys_present. unfold get in E.
  destruct (obj_get name r); [by eexists|discriminate].
Qed.

Lemma selects_spec (kind : issue_kind) (s : CleaningSuggestion.t) :
  selects kind s = true
  <-> CleaningSuggestion.issue s = kind /\ CleaningSuggestion.autoFix s = Some true.
Proof.
  unfold selects.
  destruct (CleaningSuggestion.issue s), kind, (CleaningSuggestion.autoFix s) as [[]|];
    simpl; split; intros H; try discriminate; try done; destruct H; discriminate.
Qed.

Lemma selects_other (kind kind' : issue_kind) (s : CleaningSuggestion.t) :
  CleaningSuggestion.issue s = kind -> kind <> kind' -> selects kind' s = false.
Proof.
  intros Hs Hne. destruct (selects kind' s) eqn:E; [|done].
  apply selects_spec in E as [E _]. congruence.
Qed.

Lemma apply_outlier (profile : DataProfile.t) (rows : list row)
  (s : CleaningSuggestion.t) (cap : number) :
  CleaningSuggestion.issue s = Outlier ->
  CleaningSuggestion.autoFix s = Some true ->
  outlier_cap profile (CleaningSuggestion.column s) = Some cap ->
  apply_suggestion profile rows s
  = map (cap_outlier cap (CleaningSuggestion.column s)) rows.
Proof.
  intros Hissue Hfix Hcap. unfold apply_suggestion.
  rewrite (selects_other Outlier Duplicate), (selects_other Outlier Missing) by done.
  assert (Hsel : selects Outlier s = true) by by apply selects_spec.
  by rewrite Hsel, Hcap.
Qed.

(** The outlier suggestions are the suggestions of the third rule. *)
Lemma outliers_of_suggestions (profile : DataProfile.t) :
  List.filter (fun s => issue_eqb (CleaningSuggestion.issue s) Outlier)
              (generateCleaningSuggestions profile)
  = outlier_suggestions profile.
Proof.
  unfold generateCleaningSuggestions. rewrite !List.filter_app.
  assert (Hmissing : List.filter (fun s => issue_eqb (CleaningSuggestion.issue s) Outlier)
                                 (missing_suggestions profile) = []).
  { unfold missing_suggestions.
    induction (DataProfile.columns profile) as [|c cs IH]; simpl; [done|].
    rewrite List.filter_app, IH. by destruct (has_missing c). }
  assert (Hduplicate : List.filter (fun s => issue_eqb (CleaningSuggestion.issue s) Outlier)
                                   (duplicate_suggestions profile) = []).
  { unfold duplicate_suggestions. by destruct (Num.gt _ _). }
  rewrite Hmissing, Hduplicate. simpl. unfold outlier_suggestions.
  induction (List.filter _ (DataProfile.columns profile)) as [|c cs IH]; simpl; [done|].
  rewrite List.filter_app, IH. f_equal. unfold outlier_suggestion.
  destruct (DataColumn.min c), (DataColumn.max c), (DataColumn.mean c); try done.
  by destruct (_ && _).
Qed.

(** C6. An outlier suggestion with [autoFix], on a column that the
    profile has as a number with a median, replaces by [median * 3]
    every cell of that column that is a number greater than
    [median * 3], and leaves every other cell and every other row as it
    was; on the column [10, 10, 10, 1000] of scenario D the suggestion
    that the profile gives turns the cell 1000 into 30. *)
Theorem C6_outlier_cells_are_capped :
  (forall (dataset : DatasetType.t) (profile : DataProfile.t)
          (s : CleaningSuggestion.t) (column : DataColumn.t) (median : number),
      CleaningSuggestion.issue s = Outlier ->
      CleaningSuggestion.autoFix s = Some true ->
      find_column profile (CleaningSuggestion.column s) = Some column ->
      DataColumn.type column = TNumber ->
      DataColumn.median column = Some median ->
      Forall2 (capped_at (Num.mul median (Num.of_Z 3)) (CleaningSuggestion.column s))
              (DatasetType.data dataset)
              (DatasetType.data (cleanDataset dataset profile [s])))
  /\ (let profile := generateDataProfile scenario_D in
      let outliers :=
        List.filter (fun s => issue_eqb (CleaningSuggestion.issue s) Outlier)
                    (generateCleaningSuggestions profile) in
      length outliers = 1%nat
      /\ DatasetType.data (cleanDataset scenario_D profile outliers)
         = numeric_column "amount" [10; 10; 10; 30]).
Proof.
  split.
  - intros dataset profile s column median Hissue Hfix Hfind Htype Hmedian.
    cbn [cleanDataset DatasetType.data fold_left].
    rewrite (apply_outlier _ _ _ (Num.mul median (Num.of_Z 3))); try done.
    + induction (DatasetType.data dataset) as [|r rows IH]; simpl; constructor;
        [apply cap_outlier_capped|exact IH].
    + unfold outlier_cap. by rewrite Hfind, Htype, Hmedian.
  - cbv zeta. rewrite outliers_of_suggestions. vm_compute. split; reflexivity.
Qed.

(** ** Removing duplicates *)

Section Dedup.

Context {A : Type} (key : A -> string).

Lemma Map_set_keys (k : string) (v : A) (m : list (string * A)) :
  map fst (Map_set k v m) = set_add Str.eqb k (map fst m).
Proof.
  induction m as [|[k' v'] m IH]; simpl; [done|].
  destruct (Str.eqb k' k); simpl; by rewrite ?IH.
Qed.

Lemma Map_set_fresh (k : string) (v : A) (m : list (string * A)) :
  ~ In k (map fst m) -> Map_set k v m = m ++ [(k, v)].
Proof.
  induction m as [|[k' v'] m IH]; simpl; intros H; [done|].
  destruct (Str.eqb k' k) eqn:E.
  - apply String.eqb_eq in E. tauto.
  - rewrite IH; [done|tauto].
Qed.

Lemma Map_set_values (k : string) (v : A) (m : list (string * A)) (P : string -> A -> Prop) :
  P k v -> Forall (fun e => P (fst e) (snd e)) m ->
  Forall (fun e => P (fst e) (snd e)) (Map_set k v m).
Proof.
  intros Hv. induction 1 as [|[k' v'] m Hx Hm IH]; simpl.
  - by repeat constructor.
  - destruct (Str.eqb k' k) eqn:E; constructor; auto.
    apply String.eqb_eq in E as ->. exact Hv.
Qed.

Lemma uniqueRows_acc_keys (rows : list A) (m : list (string * A)) :
  map fst (fold_left (fun m r => Map_set (key r) r m) rows m)
  = fold_left (fun seen k => set_add Str.eqb k seen) (map key rows) (map fst m).
Proof.
  revert m. induction rows as [|r rows IH]; intros m; simpl; [done|].
  by rewrite IH, Map_set_keys.
Qed.

Lemma uniqueRows_acc_values (rows : list A) (m : list (string * A))
  (P : string -> A -> Prop) :
  (forall r, In r rows -> P (key r) r) ->
  Forall (fun e => P (fst e) (snd e)) m ->
  Forall (fun e => P (fst e) (snd e)) (fold_left (fun m r => Map_set (key r) r m) rows m).
Proof.
  revert m. induction rows as [|r rows IH]; intros m Hrows Hm; simpl; [done|].
  apply IH; [intros; apply Hrows; by right|].
  apply Map_set_values; [apply Hrows; by left|done].
Qed.

(** The keys of the map are those of the rows, each once, at the place of
    its first occurrence. *)
Lemma uniqueRows_keys (rows : list A) :
  map fst (uniqueRows key rows) = set_of Str.eqb (map key rows).
Proof. unfold uniqueRows, set_of. by rewrite uniqueRows_acc_keys. Qed.

(** Feeding the values of a map whose keys are distinct, and are the keys
    of its values, to the loop builds that map again. *)
Lemma uniqueRows_rebuild (m2 m1 : list (string * A)) :
  NoDup (map fst (m1 ++ m2)) ->
  Forall (fun e => key (snd e) = fst e) m2 ->
  fold_left (fun m r => Map_set (key r) r m) (map snd m2) m1 = m1 ++ m2.
Proof.
  revert m1. induction m2 as [|[k r] m2 IH]; intros m1 Hnd Hkeys; simpl.
  - by rewrite app_nil_r.
  - inversion Hkeys as [|? ? Hk Hrest]; subst. simpl in Hk. rewrite Hk.
    rewrite Map_set_fresh.
    + rewrite IH; [by rewrite <- app_assoc| |done].
      by rewrite <- app_assoc.
    + rewrite map_app in Hnd. simpl in Hnd.
      apply NoDup_app in Hnd as (_ & Hnd & _). intros Hin.
      apply (Hnd k); [by apply list_elem_of_In|left].
Qed.

End Dedup.

(** *** Sets of strings *)

Lemma Str_eqb_sym (a b : string) : Str.eqb a b = Str.eqb b a.
Proof. apply String.eqb_sym. Qed.

Lemma Str_eqb_refl (a : string) : Str.eqb a a = true.
Proof. apply String.eqb_refl. Qed.

Lemma Str_eqb_eq (a b : string) : Str.eqb a b = true <-> a = b.
Proof. apply String.eqb_eq. Qed.

Definition seen_in (seen : list string) (y : string) : bool :=
  existsb (Str.eqb y) seen.

Lemma seen_in_spec (seen : list string) (y : string) :
  seen_in seen y = true <-> In y seen.
Proof.
  unfold seen_in. rewrite existsb_exists. split.
  - intros (x & Hx & E). apply String.eqb_eq in E. by subst.
  - intros H. exists y. split; [done|apply String.eqb_refl].
Qed.

Lemma set_add_seen (x : string) (seen : list string) :
  set_add Str.eqb x seen = if seen_in seen x then seen else seen ++ [x].
Proof.
  induction seen as [|y seen IH]; simpl; [done|].
  rewrite (Str_eqb_sym x y).
  destruct (Str.eqb y x); simpl; [done|].
  fold (seen_in seen x). rewrite IH. by destruct (seen_in seen x).
Qed.

Lemma List_filter_filter {A} (f g : A -> bool) (l : list A) :
  List.filter f (List.filter g l) = List.filter (fun x => f x && g x) l.
Proof.
  induction l as [|x l IH]; simpl; [done|].
  destruct (g x); simpl; rewrite ?andb_false_r, ?andb_true_r;
    [destruct (f x)|]; by rewrite IH.
Qed.

Lemma set_of_acc (l seen : list string) :
  fold_left (fun seen x => set_add Str.eqb x seen) l seen
  = seen ++ List.filter (fun y => negb (seen_in seen y)) (first_occurrences l).
Proof.
  revert seen. induction l as [|x l IH]; intros seen; simpl.
  - by rewrite app_nil_r.
  - rewrite IH, set_add_seen. destruct (seen_in seen x) eqn:E; simpl.
    + f_equal. rewrite List_filter_filter. apply List.filter_ext_in. intros y _.
      destruct (seen_in seen y) eqn:Ey; simpl; [done|].
      destruct (Str.eqb x y) eqn:Exy; [|done].
      apply Str_eqb_eq in Exy. subst. congruence.
    + rewrite <- app_assoc. simpl. f_equal. f_equal.
      rewrite List_filter_filter. apply List.filter_ext_in. intros y _.
      unfold seen_in. rewrite existsb_app. simpl. rewrite orb_false_r.
      fold (seen_in seen y). rewrite (Str_eqb_sym y x).
      by rewrite negb_orb.
Qed.

(** [Set] keeps the first occurrence of each string. *)
Lemma set_of_first_occurrences (l : list string) :
  set_of Str.eqb l = first_occurrences l.
Proof.
  unfold set_of. rewrite set_of_acc. simpl.
  induction (first_occurrences l); simpl; congruence.
Qed.

Lemma first_occurrences_In (l : list string) (x : string) :
  In x (first_occurrences l) <-> In x l.
Proof.
  induction l as [|y l IH]; simpl; [done|].
  rewrite filter_In, IH. split.
  - intros [?|[? _]]; auto.
  - intros [?|?]; [by left|].
    destruct (String.eqb y x) eqn:E.
    + apply String.eqb_eq in E. by left.
    + right. unfold Str.eqb. by rewrite E.
Qed.

Lemma NoDup_List_filter {A} (f : A -> bool) (l : list A) :
  NoDup l -> NoDup (List.filter f l).
Proof.
  induction 1 as [|x l Hx _ IH]; simpl; [constructor|].
  destruct (f x); [|done]. constructor; [|done].
  rewrite list_elem_of_In, filter_In, <- list_elem_of_In. tauto.
Qed.

Lemma first_occurrences_NoDup (l : list string) : NoDup (first_occurrences l).
Proof.
  induction l as [|y l IH]; simpl; constructor.
  - rewrite list_elem_of_In, filter_In. intros [_ H]. unfold Str.eqb in H.
    by rewrite String.eqb_refl in H.
  - by apply NoDup_List_filter.
Qed.

Lemma first_occurrences_length (l : list string) :
  (length (first_occurrences l) <= length l)%nat.
Proof.
  induction l as [|y l IH]; simpl; [done|].
  pose proof (List.filter_length_le (fun y0 => negb (Str.eqb y y0)) (first_occurrences l)).
  lia.
Qed.

(** *** The duplicate branch *)

Lemma remove_duplicates_keys {A} (key : A -> string) (rows : list A) :
  map key (remove_duplicates key rows) = first_occurrences (map key rows).
Proof.
  rewrite <- set_of_first_occurrences, <- uniqueRows_keys.
  unfold remove_duplicates. rewrite map_map.
  assert (H : Forall (fun e => key (snd e) = fst e) (uniqueRows key rows)).
  { apply (uniqueRows_acc_values key rows [] (fun k r => key r = k)); [done|constructor]. }
  induction H as [|e m He _ IH]; simpl; congruence.
Qed.

Lemma remove_duplicates_incl {A} (key : A -> string) (rows : list A) :
  incl (remove_duplicates key rows) rows.
Proof.
  assert (H : Forall (fun e => In (snd e) rows) (uniqueRows key rows)).
  { apply (uniqueRows_acc_values key rows [] (fun _ r => In r rows)); [done|constructor]. }
  unfold remove_duplicates. intros r Hr. apply in_map_iff in Hr as (e & <- & He).
  rewrite List.Forall_forall in H. by apply H.
Qed.

Lemma remove_duplicates_idempotent {A} (key : A -> string) (rows : list A) :
  remove_duplicates key (remove_duplicates key rows) = remove_duplicates key rows.
Proof.
  unfold remove_duplicates at 1 3. f_equal. unfold remove_duplicates.
  unfold uniqueRows at 1. rewrite uniqueRows_rebuild; [done| |].
  - simpl. rewrite uniqueRows_keys, set_of_first_occurrences.
    apply first_occurrences_NoDup.
  - apply (uniqueRows_acc_values key rows [] (fun k r => key r = k)); [done|constructor].
Qed.

Lemma apply_duplicate (profile : DataProfile.t) (rows : list row)
  (s : CleaningSuggestion.t) :
  CleaningSuggestion.issue s = Duplicate ->
  apply_suggestion profile rows s
  = if selects Duplicate s then remove_duplicates JSON_stringify rows else rows.
Proof.
  intros Hissue. unfold apply_suggestion.
  by rewrite (selects_other Duplicate Missing), (selects_other Duplicate Outlier).
Qed.

(** C7. Applying a duplicate suggestion twice, in one call or in two
    calls in a row, gives the dataset that applying it once gives; with
    [autoFix] the rows that remain are rows of the input, one for each
    key [JSON.stringify(row)], in the order in which the keys first
    occur. *)
Theorem C7_duplicate_removal_is_idempotent (dataset : DatasetType.t)
  (profile : DataProfile.t) (s : CleaningSuggestion.t) :
  CleaningSuggestion.issue s = Duplicate ->
  let once := cleanDataset dataset profile [s] in
  cleanDataset dataset profile [s; s] = once
  /\ cleanDataset once profile [s] = once
  /\ (CleaningSuggestion.autoFix s = Some true ->
      map JSON_stringify (DatasetType.data once)
      = first_occurrences (map JSON_stringify (DatasetType.data dataset))
      /\ NoDup (map JSON_stringify (DatasetType.data once))
      /\ incl (DatasetType.data once) (DatasetType.data dataset)).
Proof.
  intros Hissue. cbv zeta. unfold cleanDataset. cbn [fold_left DatasetType.data
    DatasetType.fields DatasetType.filename].
  rewrite !apply_duplicate by done.
  destruct (selects Duplicate s) eqn:Hsel.
  - rewrite remove_duplicates_idempotent. split; [done|]. split; [done|].
    intros _. rewrite remove_duplicates_keys.
    split; [done|]. split; [apply first_occurrences_NoDup|apply remove_duplicates_incl].
  - split; [done|]. split; [done|]. intros Hfix.
    assert (selects Duplicate s = true) by by apply selects_spec. congruence.
Qed.

(** ** Percentages of the profile *)

Lemma generateDataProfile_unfold (dataset : DatasetType.t) :
  let data := DatasetType.data dataset in
  let fields := DatasetType.fields dataset in
  let profile := generateDataProfile dataset in
  DataProfile.rowCount profile = Z.of_nat (length data)
  /\ DataProfile.nullPercentage profile
     = percentage (Num.of_Z (DataProfile.nullValues profile))
                  (Num.of_Z (Z.of_nat (length data) * Z.of_nat (length fields)))
  /\ DataProfile.duplicateRows profile
     = Z.of_nat (length data)
       - Z.of_nat (length (set_of Str.eqb (map JSON_stringify data)))
  /\ DataProfile.duplicatePercentage profile
     = percentage (Num.of_Z (DataProfile.duplicateRows profile))
                  (Num.of_Z (Z.of_nat (length data))).
Proof.
  cbv zeta. unfold generateDataProfile. rewrite profile_columns_eq. done.
Qed.

Lemma profile_column_no_rows (f : string) :
  fst (profile_column [] f) = 0
  /\ DataColumn.nullPercentage (snd (profile_column [] f)) = Some Num.nan.
Proof. split; reflexivity. Qed.

Lemma nullValues_no_rows (fields : list string) :
  foldr Z.add 0 (map (fun f => fst (profile_column [] f)) fields) = 0.
Proof. induction fields as [|f fields IH]; [done|]. cbn [map foldr]. by rewrite IH. Qed.

(** C2 (amended). For a dataset without rows every percentage of the
    profile (the [nullPercentage] of each column, the [nullPercentage]
    and the [duplicatePercentage] of the profile) is NaN, the quotient
    of 0 by 0 times 100, and for a dataset without fields the
    [nullPercentage] of the profile is NaN. *)
Theorem C2_zero_divisor_gives_NaN (dataset : DatasetType.t) :
  let profile := generateDataProfile dataset in
  (DatasetType.data dataset = [] ->
   Forall (fun c => DataColumn.nullPercentage c = Some Num.nan)
          (DataProfile.columns profile)
   /\ DataProfile.nullPercentage profile = Num.nan
   /\ DataProfile.duplicatePercentage profile = Num.nan)
  /\ (DatasetType.fields dataset = [] ->
      DataProfile.nullPercentage profile = Num.nan).
Proof.
  cbv zeta. destruct (generateDataProfile_unfold dataset) as (Hrows & Hnull & Hdup & Hpct).
  cbv zeta in Hrows, Hnull, Hdup, Hpct.
  split.
  - intros Hdata. rewrite Hnull, Hpct, Hdup.
    rewrite generateDataProfile_columns, generateDataProfile_nullValues, Hdata.
    rewrite nullValues_no_rows. split; [|done].
    apply List.Forall_forall. intros c Hc. apply in_map_iff in Hc as (f & <- & _).
    apply profile_column_no_rows.
  - intros Hfields. rewrite Hnull, generateDataProfile_nullValues, Hfields.
    cbn [length map foldr]. by rewrite Z.mul_0_r.
Qed.

Lemma canonical_keys_size (dataset : DatasetType.t) :
  size (canonical_keys dataset)
  = length (set_of Str.eqb (map JSON_stringify (DatasetType.data dataset))).
Proof.
  unfold canonical_keys. rewrite set_of_first_occurrences.
  set (l := map JSON_stringify (DatasetType.data dataset)).
  rewrite <- (size_list_to_set (C := gset string) (first_occurrences l))
    by apply first_occurrences_NoDup.
  f_equal. apply set_eq. intros x.
  rewrite !elem_of_list_to_set, !list_elem_of_In. symmetry.
  apply first_occurrences_In.
Qed.

(** C5 (amended). For every dataset [duplicateRows] is [rowCount] minus
    the number of distinct keys [JSON.stringify(row)], a number between 0
    and [rowCount]; for a dataset that has rows (fewer than 2^53)
    [duplicatePercentage] is a number between 0 and 100, and for a
    dataset without rows it is NaN. *)
Theorem C5_duplicate_rows_and_percentage (dataset : DatasetType.t) :
  let profile := generateDataProfile dataset in
  let rows := Z.of_nat (length (DatasetType.data dataset)) in
  DataProfile.duplicateRows profile
  = DataProfile.rowCount profile - Z.of_nat (size (canonical_keys dataset))
  /\ 0 <= DataProfile.duplicateRows profile <= DataProfile.rowCount profile
  /\ (0 < rows < 2 ^ 53 ->
      Num.le Num.zero (DataProfile.duplicatePercentage profile) = true
      /\ Num.le (DataProfile.duplicatePercentage profile) (Num.of_Z 100) = true)
  /\ (rows = 0 -> DataProfile.duplicatePercentage profile = Num.nan).
Proof.
  cbv zeta. destruct (generateDataProfile_unfold dataset) as (Hrows & _ & Hdup & Hpct).
  cbv zeta in Hrows, Hdup, Hpct.
  rewrite canonical_keys_size, Hpct, Hdup, Hrows.
  set (l := map JSON_stringify (DatasetType.data dataset)).
  assert (Hlen : (length (set_of Str.eqb l) <= length (DatasetType.data dataset))%nat).
  { rewrite set_of_first_occurrences.
    etransitivity; [apply first_occurrences_length|]. unfold l. by rewrite length_map. }
  split; [done|]. split; [lia|]. split.
  - intros Hr. apply percentage_bounds; lia.
  - intros Hr. rewrite Hr.
    assert (length (set_of Str.eqb l) = 0%nat) as -> by lia. reflexivity.
Qed.

(** ** cleanDataset on the heap *)

Section HeapRules.

Import Heap.

Lemma runs_ret {A} (a : A) (h : heap) (Q : A -> heap -> Prop) :
  Q a h -> runs (ret a) h Q.
Proof. intros HQ. by exists a, h. Qed.

Lemma runs_bind {A B} (m : M A) (k : A -> M B) (h : heap) (Q : B -> heap -> Prop) :
  runs m h (fun a h1 => runs (k a) h1 Q) -> runs (bind m k) h Q.
Proof.
  intros (a & h1 & Hm & Hsub & b & h2 & Hk & Hsub' & HQ).
  exists b, h2. unfold bind. rewrite Hm. split; [done|]. split; [|done].
  by transitivity h1.
Qed.

Lemma runs_weaken {A} (m : M A) (h : heap) (Q Q' : A -> heap -> Prop) :
  (forall a h', h ⊆ h' -> Q a h' -> Q' a h') -> runs m h Q -> runs m h Q'.
Proof. intros HQ (a & h' & Hm & Hsub & Ha). exists a, h'. auto. Qed.

Lemma runs_alloc (c : cell) (h : heap) (Q : loc -> heap -> Prop) :
  (forall l, h !! l = None -> Q l (<[l := c]> h)) -> runs (alloc c) h Q.
Proof.
  intros HQ. set (l := fresh (dom h)).
  assert (Hl : h !! l = None) by (apply not_elem_of_dom, is_fresh).
  exists l, (<[l := c]> h). split; [done|]. split; [by apply insert_subseteq|auto].
Qed.

Lemma runs_read_object (l : loc) (r : row) (h : heap) (Q : row -> heap -> Prop) :
  h !! l = Some (Object r) -> Q r h -> runs (read_object l) h Q.
Proof. intros Hl HQ. exists r, h. unfold read_object. by rewrite Hl. Qed.

Lemma runs_read_array (l : loc) (items : list loc) (h : heap)
  (Q : list loc -> heap -> Prop) :
  h !! l = Some (Array items) -> Q items h -> runs (read_array l) h Q.
Proof. intros Hl HQ. exists items, h. unfold read_array. by rewrite Hl. Qed.

Lemma rows_at_weaken (h h' : heap) (items : list loc) (rows : list row) :
  h ⊆ h' -> rows_at h items rows -> rows_at h' items rows.
Proof.
  intros Hsub Hrows. unfold rows_at. eapply Forall2_impl; [exact Hrows|].
  intros l r Hl. exact (lookup_weaken _ _ _ _ Hl Hsub).
Qed.

Lemma array_at_new (h : heap) (l : loc) (items : list loc) (rows : list row) :
  h !! l = None -> rows_at h items rows ->
  array_at (<[l := Array items]> h) l rows.
Proof.
  intros Hl Hrows. exists items. split; [by rewrite lookup_insert_eq|].
  eapply rows_at_weaken; [by apply insert_subseteq|done].
Qed.

(** A loop that makes of each row [r] a row [g r], at its address or at a
    new one. *)
Lemma runs_for_each (f : loc -> M loc) (g : row -> row) (items : list loc)
  (rows : list row) (h0 : heap) :
  rows_at h0 items rows ->
  (forall l r h1, h0 ⊆ h1 -> h1 !! l = Some (Object r) ->
                  runs (f l) h1 (fun l' h2 => h2 !! l' = Some (Object (g r)))) ->
  forall h, h0 ⊆ h ->
    runs (for_each f items) h (fun items' h' => rows_at h' items' (map g rows)).
Proof.
  intros Hrows Hf. induction Hrows as [|l r items rows Hl _ IH]; intros h Hsub; simpl.
  - apply runs_ret. constructor.
  - apply runs_bind.
    destruct (Hf l r h Hsub) as (l' & h1 & Hrun & Hsub1 & Hl');
      [by eapply lookup_weaken|].
    exists l', h1. split; [done|]. split; [done|].
    apply runs_bind. eapply runs_weaken; [|apply IH; by transitivity h].
    intros items' h2 Hsub2 Hitems. apply runs_ret. constructor; [|done].
    by eapply lookup_weaken.
Qed.

Lemma fill_missing_heap_runs (column : DataColumn.t) (name : string) (l : loc)
  (r : row) (h : heap) :
  h !! l = Some (Object r) ->
  runs (fill_missing_heap column name l) h
       (fun l' h' => h' !! l' = Some (Object (fill_missing column name r))).
Proof.
  intros Hl. unfold fill_missing_heap, fill_missing. apply runs_bind.
  apply (runs_read_object l r); [done|].
  destruct (is_missing (get r name)); [|by apply runs_ret].
  (* the copy is written at the address that was just created *)
  set (newRow := fresh (dom h)).
  assert (Hnew : h !! newRow = None) by (apply not_elem_of_dom, is_fresh).
  exists newRow, (<[newRow := Object (obj_set name (fill_value column) r)]> h).
  split.
  - unfold bind, alloc, write_property, ret. fold newRow.
    by rewrite lookup_insert_eq, insert_insert_eq.
  - split; [by apply insert_subseteq|by rewrite lookup_insert_eq].
Qed.

Lemma cap_outlier_heap_runs (cap : number) (name : string) (l : loc)
  (r : row) (h : heap) :
  h !! l = Some (Object r) ->
  runs (cap_outlier_heap cap name l) h
       (fun l' h' => h' !! l' = Some (Object (cap_outlier cap name r))).
Proof.
  intros Hl. unfold cap_outlier_heap, cap_outlier. apply runs_bind.
  apply (runs_read_object l r); [done|].
  destruct (above_cap cap name r); [|by apply runs_ret].
  apply runs_alloc. intros l' _. by rewrite lookup_insert_eq.
Qed.

Lemma map_array_runs (f : loc -> M loc) (g : row -> row) (cleanedData : loc)
  (rows : list row) (h : heap) :
  (forall l r h1, h ⊆ h1 -> h1 !! l = Some (Object r) ->
                  runs (f l) h1 (fun l' h2 => h2 !! l' = Some (Object (g r)))) ->
  array_at h cleanedData rows ->
  runs (map_array f cleanedData) h (fun l' h' => array_at h' l' (map g rows)).
Proof.
  intros Hf (items & Harr & Hrows). unfold map_array. apply runs_bind.
  apply (runs_read_array cleanedData items); [done|]. apply runs_bind.
  eapply runs_weaken; [|by apply (runs_for_each f g items rows h)].
  intros items' h1 _ Hitems. apply runs_alloc. intros l' Hl'.
  by apply array_at_new.
Qed.

(** Reading the key of every row changes nothing. *)
Lemma keys_for_each (items : list loc) (rows : list row) (h : heap) :
  rows_at h items rows ->
  for_each (fun l => r <- read_object l;; ret (JSON_stringify r, l)) items h
  = Some (zip (map JSON_stringify rows) items, h).
Proof.
  set (f := fun l => r <- read_object l;; ret (JSON_stringify r, l)).
  induction 1 as [|l r items rows Hl _ IH]; simpl; [done|].
  unfold bind at 1.
  replace (f l h) with (Some ((JSON_stringify r, l), h))
    by (unfold f, bind, read_object, ret; by rewrite Hl).
  unfold bind at 1. by rewrite IH.
Qed.

Lemma Map_set_same_entries (h : heap) (k : string) (l : loc) (r : row)
  (ml : list (string * loc)) (mr : list (string * row)) :
  h !! l = Some (Object r) -> same_entries h ml mr ->
  same_entries h (Map_set k l ml) (Map_set k r mr).
Proof.
  intros Hl. induction 1 as [|[k1 l1] [k2 r2] ml mr [Hk Hv] Htl IH]; simpl.
  - by repeat constructor.
  - simpl in Hk, Hv. subst k2.
    destruct (Str.eqb k1 k); constructor; simpl; auto.
Qed.

Lemma uniqueRows_same_entries (h : heap) (items : list loc) (rows : list row)
  (ml : list (string * loc)) (mr : list (string * row)) :
  rows_at h items rows -> same_entries h ml mr ->
  same_entries h
    (fold_left (fun m kl => Map_set (fst kl) (snd kl) m)
               (zip (map JSON_stringify rows) items) ml)
    (fold_left (fun m r => Map_set (JSON_stringify r) r m) rows mr).
Proof.
  intros Hrows. revert ml mr.
  induction Hrows as [|l r items rows Hl _ IH]; intros ml mr Hm; simpl; [done|].
  apply IH. by apply Map_set_same_entries.
Qed.

Lemma remove_duplicates_heap_runs (cleanedData : loc) (rows : list row) (h : heap) :
  array_at h cleanedData rows ->
  runs (remove_duplicates_heap cleanedData) h
       (fun l' h' => array_at h' l' (remove_duplicates JSON_stringify rows)).
Proof.
  intros (items & Harr & Hrows). unfold remove_duplicates_heap. apply runs_bind.
  apply (runs_read_array cleanedData items); [done|]. apply runs_bind.
  exists (zip (map JSON_stringify rows) items), h.
  split; [by apply keys_for_each|]. split; [done|].
  apply runs_alloc. intros l' Hl'. apply array_at_new; [done|].
  pose proof (uniqueRows_same_entries h items rows [] [] Hrows ltac:(constructor)) as H.
  unfold remove_duplicates, uniqueRows, rows_at.
  induction H as [|el er ml mr [_ Hv] _ IH]; simpl; constructor; done.
Qed.

Lemma apply_suggestion_heap_runs (profile : DataProfile.t) (cleanedData : loc)
  (s : CleaningSuggestion.t) (rows : list row) (h : heap) :
  array_at h cleanedData rows ->
  runs (apply_suggestion_heap profile cleanedData s) h
       (fun l' h' => array_at h' l' (apply_suggestion profile rows s)).
Proof.
  intros Harr. unfold apply_suggestion_heap, apply_suggestion. apply runs_bind.
  set (rows1 := if selects Duplicate s
                then remove_duplicates JSON_stringify rows else rows).
  apply (runs_weaken _ _ (fun l' h' => array_at h' l' rows1)).
  2:{ unfold rows1. destruct (selects Duplicate s);
        [by apply remove_duplicates_heap_runs|by apply runs_ret]. }
  clear Harr. intros l1 h1 _ Harr.
  assert (Hout : forall l2 h2 rows2, array_at h2 l2 rows2 ->
            runs (if selects Outlier s
                  then match outlier_cap profile (CleaningSuggestion.column s) with
                       | None => ret l2
                       | Some cap =>
                           map_array (cap_outlier_heap cap (CleaningSuggestion.column s)) l2
                       end
                  else ret l2) h2
                 (fun l' h' => array_at h' l'
                    (if selects Outlier s
                     then match outlier_cap profile (CleaningSuggestion.column s) with
                          | None => rows2
                          | Some cap =>
                              map (cap_outlier cap (CleaningSuggestion.column s)) rows2
                          end
                     else rows2))).
  { intros l2 h2 rows2 H2. destruct (selects Outlier s); [|by apply runs_ret].
    destruct (outlier_cap profile _) as [cap|]; [|by apply runs_ret].
    apply map_array_runs; [|done]. intros. by apply cap_outlier_heap_runs. }
  destruct (selects Missing s); [|by apply Hout].
  destruct (find_column profile _) as [column|]; [|by apply runs_ret].
  apply runs_bind.
  eapply runs_weaken;
    [|apply (map_array_runs _ (fill_missing column (CleaningSuggestion.column s)));
      [intros; by apply fill_missing_heap_runs|done]].
  intros l2 h2 _ H2. by apply Hout.
Qed.

Lemma fold_suggestions_runs (profile : DataProfile.t)
  (selected : list CleaningSuggestion.t) (cleanedData : loc) (rows : list row)
  (h : heap) :
  array_at h cleanedData rows ->
  runs (fold (apply_suggestion_heap profile) selected cleanedData) h
       (fun l' h' => array_at h' l' (fold_left (apply_suggestion profile) selected rows)).
Proof.
  revert cleanedData rows h.
  induction selected as [|s selected IH]; intros cleanedData rows h Harr; simpl.
  - by apply runs_ret.
  - apply runs_bind. eapply runs_weaken; [|by apply apply_suggestion_heap_runs].
    intros l1 h1 _ H1. by apply IH.
Qed.

Lemma dataset_at_weaken (h h' : heap) (l : loc) (dataset : DatasetType.t) :
  h ⊆ h' -> dataset_at h l dataset -> dataset_at h' l dataset.
Proof.
  intros Hsub (data & fields & items & Hl & Hdata & Hfields & Hrows).
  exists data, fields, items.
  repeat split; try (by eapply lookup_weaken). by eapply rows_at_weaken.
Qed.

(** C9. [cleanDataset] returns a new dataset object with the fields and
    the filename of its input, and changes no object that existed when
    it was called: the input dataset, its array of rows, its rows and
    its field names read afterwards as they did before.  (The profile
    is only read.) *)
Theorem C9_cleanDataset_leaves_its_input (h : heap) (l : loc)
  (dataset : DatasetType.t) (profile : DataProfile.t)
  (selectedSuggestions : list CleaningSuggestion.t) :
  dataset_at h l dataset ->
  exists l' h',
    cleanDataset_heap l profile selectedSuggestions h = Some (l', h')
    /\ h ⊆ h'
    /\ h !! l' = None
    /\ dataset_at h' l dataset
    /\ dataset_at h' l' (cleanDataset dataset profile selectedSuggestions)
    /\ DatasetType.fields (cleanDataset dataset profile selectedSuggestions)
       = DatasetType.fields dataset
    /\ DatasetType.filename (cleanDataset dataset profile selectedSuggestions)
       = DatasetType.filename dataset.
Proof.
  intros Hd. pose proof Hd as (data & fields & items & Hl & Hdata & Hfields & Hrows).
  (* the copy of the array of rows *)
  set (copy := fresh (dom h)).
  assert (Hcopy : h !! copy = None) by (apply not_elem_of_dom, is_fresh).
  set (h1 := <[copy := Array items]> h).
  assert (Hsub1 : h ⊆ h1) by by apply insert_subseteq.
  destruct (fold_suggestions_runs profile selectedSuggestions copy
              (DatasetType.data dataset) h1)
    as (cleaned & h2 & Hfold & Hsub2 & Hcleaned).
  { by apply array_at_new. }
  (* the dataset object that is returned *)
  set (l' := fresh (dom h2)).
  assert (Hl' : h2 !! l' = None) by (apply not_elem_of_dom, is_fresh).
  set (h3 := <[l' := Dataset cleaned fields (DatasetType.filename dataset)]> h2).
  assert (Hsub3 : h2 ⊆ h3) by by apply insert_subseteq.
  assert (Hsub : h ⊆ h3) by (transitivity h1; [done|by transitivity h2]).
  exists l', h3. split.
  { unfold cleanDataset_heap, bind, read_dataset, read_array, alloc.
    rewrite Hl, Hdata. fold copy. fold h1. rewrite Hfold. reflexivity. }
  split; [done|]. split.
  { destruct (h !! l') eqn:E; [|done].
    eapply lookup_weaken in E; [|by transitivity h1]. congruence. }
  split; [by eapply dataset_at_weaken|]. split; [|done].
  destruct Hcleaned as (items' & Harr & Hrows').
  exists cleaned, fields, items'. simpl. split; [by apply lookup_insert_eq|].
  split; [by eapply lookup_weaken|]. split; [by eapply lookup_weaken|].
  exact (rows_at_weaken _ _ _ _ Hsub3 Hrows').
Qed.

End HeapRules.

(** ** Further properties: the type of a column *)

Lemma column_type_eqb_eq (a b : column_type) : column_type_eqb a b = true <-> a = b.
Proof. destruct a, b; simpl; split; intros H; try done. Qed.

Section SetOf.

Context {A : Type} (eq : A -> A -> bool).
Hypothesis eq_spec : forall a b, eq a b = true <-> a = b.

Lemma set_add_In (x y : A) (seen : list A) :
  In y (set_add eq x seen) <-> y = x \/ In y seen.
Proof using eq_spec.
  induction seen as [|z seen IH]; simpl; [intuition congruence|].
  destruct (eq z x) eqn:E; simpl.
  - apply eq_spec in E. subst. intuition congruence.
  - rewrite IH. intuition congruence.
Qed.

Lemma set_of_acc_In (y : A) (l seen : list A) :
  In y (fold_left (fun seen x => set_add eq x seen) l seen) <-> In y l \/ In y seen.
Proof using eq_spec.
  revert seen. induction l as [|x l IH]; intros seen; simpl; [tauto|].
  rewrite IH, set_add_In. intuition congruence.
Qed.

Lemma set_of_In (y : A) (l : list A) : In y (set_of eq l) <-> In y l.
Proof using eq_spec. unfold set_of. rewrite set_of_acc_In. simpl. tauto. Qed.

Lemma set_add_length (x : A) (seen : list A) :
  (length seen <= length (set_add eq x seen) <= S (length seen))%nat.
Proof.
  induction seen as [|z seen IH]; simpl; [lia|].
  destruct (eq z x); simpl; lia.
Qed.

Lemma set_of_acc_length (l seen : list A) :
  (length seen <= length (fold_left (fun seen x => set_add eq x seen) l seen)
   <= length seen + length l)%nat.
Proof.
  revert seen. induction l as [|x l IH]; intros seen; simpl; [lia|].
  pose proof (IH (set_add eq x seen)). pose proof (set_add_length x seen). lia.
Qed.

Lemma set_of_length (l : list A) : (length (set_of eq l) <= length l)%nat.
Proof. unfold set_of. pose proof (set_of_acc_length l []). simpl in *. lia. Qed.

Lemma set_of_nonempty (l : list A) : l <> [] -> set_of eq l <> [].
Proof.
  destruct l as [|x l]; [done|]. intros _ H. unfold set_of in H. simpl in H.
  pose proof (set_of_acc_length l [x]) as Hlen. rewrite H in Hlen. simpl in Hlen. lia.
Qed.

Lemma set_of_constant (t : A) (l : list A) :
  l <> [] -> (forall x, In x l -> x = t) -> set_of eq l = [t].
Proof using eq_spec.
  destruct l as [|x l]; [done|]. intros _ Hall. unfold set_of. simpl.
  rewrite (Hall x) by by left.
  assert (H : forall x, In x l -> x = t) by (intros; apply Hall; by right).
  clear Hall. induction l as [|y l IH]; simpl; [done|].
  rewrite (H y) by by left. rewrite (proj2 (eq_spec t t) eq_refl).
  apply IH. intros; apply H; by right.
Qed.

Lemma set_of_singleton (t : A) (l : list A) :
  set_of eq l = [t] -> forall x, In x l -> x = t.
Proof using eq_spec.
  intros H x Hx. apply set_of_In in Hx. rewrite H in Hx. by destruct Hx as [->|[]].
Qed.

End SetOf.

Lemma determineColumnType_cases (values : list value) :
  determineColumnType values
  = match set_of column_type_eqb (map value_type (present values)) with
    | [] => TString
    | [t] => t
    | _ => TMixed
    end.
Proof.
  unfold determineColumnType. fold (present values).
  destruct (present values) as [|v vs] eqn:E; [done|].
  change (length (v :: vs) =? 0)%nat with false. cbv iota.
  destruct (set_of column_type_eqb (map value_type (v :: vs))) as [|t [|]] eqn:Es;
    try done.
  exfalso. revert Es. by apply set_of_nonempty.
Qed.

Lemma determineColumnType_by_types (values : list value) :
  (present values = [] -> determineColumnType values = TString)
  /\ (forall t, present values <> [] ->
                (forall v, In v (present values) -> value_type v = t) ->
                determineColumnType values = t)
  /\ (forall v w, In v (present values) -> In w (present values) ->
                  value_type v <> value_type w ->
                  determineColumnType values = TMixed).
Proof.
  rewrite determineColumnType_cases. split; [by intros ->|]. split.
  - intros t Hne Hall.
    rewrite (set_of_constant column_type_eqb column_type_eqb_eq t); [done| |].
    + destruct (present values); [done|discriminate].
    + intros x Hx. apply in_map_iff in Hx as (v & <- & Hv). by apply Hall.
  - intros v w Hv Hw Hne.
    destruct (set_of column_type_eqb (map value_type (present values)))
      as [|t [|]] eqn:Es; [| |done].
    + exfalso. revert Es. apply set_of_nonempty. destruct (present values); [done|discriminate].
    + exfalso. apply Hne.
      pose proof (set_of_singleton column_type_eqb column_type_eqb_eq t _ Es) as H.
      rewrite (H (value_type v)), (H (value_type w)); [done| |];
        apply in_map; done.
Qed.

(** X1. The type of a column is decided by its values that are not
    missing: string when there is none, the type of those values when
    they all have the same one, and mixed as soon as two of them have
    different types. *)
Theorem determineColumnType_characterisation (values : list value) :
  (present values = [] -> determineColumnType values = TString)
  /\ (forall t, present values <> [] ->
                (forall v, In v (present values) -> value_type v = t) ->
                determineColumnType values = t)
  /\ (forall v w, In v (present values) -> In w (present values) ->
                  value_type v <> value_type w ->
                  determineColumnType values = TMixed).
Proof. exact (determineColumnType_by_types values). Qed.

Lemma present_Permutation (values values' : list value) :
  Permutation values values' -> Permutation (present values) (present values').
Proof.
  unfold present. induction 1 as [|x l l' _ IH|x y l|l l' l'' _ IH1 _ IH2]; simpl.
  - constructor.
  - destruct (negb (is_missing x)); [by constructor|done].
  - destruct (negb (is_missing x)), (negb (is_missing y)); try done. constructor.
  - by etransitivity.
Qed.

Lemma column_type_eq_dec (a b : column_type) : {a = b} + {a <> b}.
Proof. decide equality. Qed.

(** X2. The type of a column does not depend on the order of its rows. *)
Theorem determineColumnType_Permutation (values values' : list value) :
  Permutation values values' ->
  determineColumnType values = determineColumnType values'.
Proof.
  intros Hperm. apply present_Permutation in Hperm.
  destruct (determineColumnType_by_types values) as (H1 & H2 & H3).
  destruct (determineColumnType_by_types values') as (H1' & H2' & H3').
  destruct (present values) as [|v vs] eqn:E.
  - apply Permutation_nil in Hperm. by rewrite H1, H1'.
  - assert (Hne' : present values' <> []).
    { intros E'. rewrite E' in Hperm. symmetry in Hperm.
      by apply Permutation_nil in Hperm. }
    destruct (forallb (fun x => column_type_eqb (value_type x) (value_type v)) (v :: vs))
      eqn:Hall.
    + rewrite forallb_forall in Hall.
      rewrite (H2 (value_type v)), (H2' (value_type v)); try done.
      * intros x Hx. apply column_type_eqb_eq, Hall.
        eapply Permutation_in; [symmetry; exact Hperm|done].
      * intros x Hx. by apply column_type_eqb_eq, Hall.
    + assert (exists w, In w (v :: vs) /\ value_type w <> value_type v) as (w & Hw & Hne).
      { clear -Hall. induction (v :: vs) as [|x l IH]; [done|]. simpl in Hall.
        destruct (column_type_eqb (value_type x) (value_type v)) eqn:Ex.
        - destruct (IH Hall) as (w & Hw & Hne). exists w. split; [by right|done].
        - exists x. split; [by left|]. intros Heq.
          apply column_type_eqb_eq in Heq. congruence. }
      assert (Hv : In v (v :: vs)) by (by left).
      assert (Hv' : In v (present values'))
        by (eapply Permutation_in; [exact Hperm|exact Hv]).
      assert (Hw' : In w (present values'))
        by (eapply Permutation_in; [exact Hperm|exact Hw]).
      by rewrite (H3 w v Hw Hv Hne), (H3' w v Hw' Hv' Hne).
Qed.

(** ** Further properties: the profile *)

Lemma generateDataProfile_columnCount (dataset : DatasetType.t) :
  DataProfile.columnCount (generateDataProfile dataset)
  = Z.of_nat (length (DatasetType.fields dataset)).
Proof. unfold generateDataProfile. by destruct (profile_columns _ _). Qed.


Lemma missing_cells_bounds (dataset : DatasetType.t) (field : string) :
  0 <= missing_cells dataset field <= Z.of_nat (length (DatasetType.data dataset)).
Proof.
  unfold missing_cells, cells.
  pose proof (List.filter_length_le is_missing
                (map (fun r => get r field) (DatasetType.data dataset))) as H.
  rewrite length_map in H. lia.
Qed.


(** X4. In the profile of a dataset that has rows (fewer than 2^53) the
    [nullCount] of every column is between 0 and [rowCount], and its
    [nullPercentage] is a number between 0 and 100. *)
Theorem column_null_statistics_in_range (dataset : DatasetType.t)
  (column : DataColumn.t) :
  let profile := generateDataProfile dataset in
  0 < DataProfile.rowCount profile < 2 ^ 53 ->
  In column (DataProfile.columns profile) ->
  exists n p,
    DataColumn.nullCount column = Some n
    /\ 0 <= n <= DataProfile.rowCount profile
    /\ DataColumn.nullPercentage column = Some p
    /\ is_percentage p.
Proof.
  cbv zeta. destruct (generateDataProfile_unfold dataset) as (-> & _).
  rewrite generateDataProfile_columns. intros Hrows Hin.
  apply in_map_iff in Hin as (f & <- & _).
  exists (missing_cells dataset f), (percentage (Num.of_Z (missing_cells dataset f))
                                     (Num.of_Z (Z.of_nat (length (DatasetType.data dataset))))).
  pose proof (missing_cells_bounds dataset f).
  split; [done|]. split; [done|]. split; [done|].
  apply percentage_bounds; lia.
Qed.

Lemma nullValues_bound (data : list row) (fields : list string) :
  0 <= foldr Z.add 0 (map (fun f => fst (profile_column data f)) fields)
  <= Z.of_nat (length data) * Z.of_nat (length fields).
Proof.
  induction fields as [|f fields IH]; cbn [map foldr length]; [lia|].
  pose proof (missing_cells_bounds (DatasetType.mk data [] "") f) as H.
  change (missing_cells (DatasetType.mk data [] "") f)
    with (fst (profile_column data f)) in H.
  simpl DatasetType.data in H. lia.
Qed.

(** X5. In the profile of a dataset with rows and fields (fewer than 2^53
    cells) [nullValues] is at most the number of cells and the
    [nullPercentage] of the dataset is a number between 0 and 100. *)
Theorem dataset_null_statistics_in_range (dataset : DatasetType.t) :
  let profile := generateDataProfile dataset in
  0 < DataProfile.rowCount profile * DataProfile.columnCount profile < 2 ^ 53 ->
  0 <= DataProfile.nullValues profile
    <= DataProfile.rowCount profile * DataProfile.columnCount profile
  /\ is_percentage (DataProfile.nullPercentage profile).
Proof.
  cbv zeta. destruct (generateDataProfile_unfold dataset) as (Hrows & Hnull & _).
  cbv zeta in Hrows, Hnull.
  rewrite Hnull, Hrows, generateDataProfile_columnCount.
  rewrite generateDataProfile_nullValues. intros Hcells.
  pose proof (nullValues_bound (DatasetType.data dataset) (DatasetType.fields dataset)).
  split; [done|]. apply percentage_bounds; lia.
Qed.

(** X6. The [uniqueCount] of every column of a profile is at most
    [rowCount], and at least 1 when the dataset has a row. *)
Theorem uniqueCount_in_range (dataset : DatasetType.t) (column : DataColumn.t) :
  let profile := generateDataProfile dataset in
  In column (DataProfile.columns profile) ->
  exists n,
    DataColumn.uniqueCount column = Some n
    /\ n <= DataProfile.rowCount profile
    /\ (0 < DataProfile.rowCount profile -> 1 <= n).
Proof.
  cbv zeta. destruct (generateDataProfile_unfold dataset) as (-> & _).
  rewrite generateDataProfile_columns. intros Hin.
  apply in_map_iff in Hin as (f & <- & _).
  set (values := map (fun r => get r f) (DatasetType.data dataset)).
  exists (Z.of_nat (length (set_of same_value_zero values))).
  split; [done|].
  pose proof (set_of_length same_value_zero values) as Hle.
  unfold values in Hle at 2. rewrite length_map in Hle. split; [lia|].
  intros Hrows. destruct (length (set_of same_value_zero values)) eqn:E; [|lia].
  exfalso. apply length_zero_iff_nil in E. revert E. apply set_of_nonempty.
  unfold values. destruct (DatasetType.data dataset); [simpl in Hrows; lia|done].
Qed.

(** ** Further properties: frequency tables and modes *)

Lemma obj_set_Forall {A} (P : string * A -> Prop) (k : string) (v : A) (o : obj A) :
  P (k, v) -> Forall P o -> Forall P (obj_set k v o).
Proof.
  intros Hv Ho. unfold obj_set. destruct (obj_get k o).
  - clear -Hv Ho. induction Ho as [|[k' v'] o Hx Ho IH]; simpl; [constructor|].
    destruct (Str.eqb k' k) eqn:E.
    + apply Str_eqb_eq in E as ->. by constructor.
    + by constructor.
  - destruct (array_index k) as [n|].
    + clear -Hv Ho. induction Ho as [|[k' v'] o Hx Ho IH]; simpl.
      * by repeat constructor.
      * destruct (array_index k') as [n'|]; [destruct (n' <? n)%N|];
          repeat constructor; done.
    + apply Forall_app. split; [done|by repeat constructor].
Qed.

Lemma obj_increment_total (k : string) (o : obj Z) :
  total_count (obj_set k (default 0 (obj_get k o) + 1) o) = total_count o + 1.
Proof.
  unfold obj_set, total_count. destruct (obj_get k o) as [c|] eqn:E; simpl.
  - revert c E. induction o as [|[k' v'] o IH]; intros c E; simpl in *; [done|].
    destruct (Str.eqb k' k); simpl.
    + injection E as ->. lia.
    + rewrite (IH c E). lia.
  - destruct (array_index k) as [n|].
    + clear E. induction o as [|[k' v'] o IH]; simpl; [lia|].
      destruct (array_index k') as [n'|]; [destruct (n' <? n)%N|]; simpl; lia.
    + rewrite map_app, foldr_app. simpl.
      induction (map snd o) as [|x l IH]; simpl; lia.
Qed.

Lemma count_categories_acc (values : list value) (acc : obj Z) :
  let categories :=
    fold_left (fun categories v =>
                 if is_missing v then categories
                 else obj_set (String_of v)
                        (default 0 (obj_get (String_of v) categories) + 1) categories)
              values acc in
  total_count categories = total_count acc + Z.of_nat (length (present values))
  /\ (Forall (fun e => 1 <= snd e) acc -> Forall (fun e => 1 <= snd e) categories).
Proof.
  cbv zeta. revert acc. induction values as [|v values IH]; intros acc; simpl.
  - split; [lia|done].
  - unfold present in *. simpl. destruct (is_missing v); simpl.
    + apply IH.
    + destruct (IH (obj_set (String_of v)
                      (default 0 (obj_get (String_of v) acc) + 1) acc)) as [Ht Hp].
      rewrite Ht, obj_increment_total. split; [lia|].
      intros Hacc. apply Hp. apply obj_set_Forall; [|done]. simpl.
      destruct (obj_get (String_of v) acc) as [c|] eqn:E; simpl; [|lia].
      assert (1 <= c); [|lia].
      clear -E Hacc. induction Hacc as [|[k' v'] o Hx Ho IH]; simpl in *; [done|].
      destruct (Str.eqb k' (String_of v)); [by injection E as <-|auto].
Qed.

Lemma count_categories_total (values : list value) :
  total_count (count_categories values) = Z.of_nat (length (present values))
  /\ Forall (fun e => 1 <= snd e) (count_categories values).
Proof.
  destruct (count_categories_acc values []) as [Ht Hp]. split.
  - exact Ht.
  - apply Hp. constructor.
Qed.

(** X7. For a column in which no text of a value is the name of a
    property of [Object.prototype], the counts of the frequency table
    are at least 1 and add up to the number of the values that are not
    missing. *)
Theorem count_categories_counts (values : list value) :
  own_keys values = true ->
  total_count (count_categories values) = Z.of_nat (length (present values))
  /\ Forall (fun e => 1 <= snd e) (count_categories values).
Proof. intros _. exact (count_categories_total values). Qed.

Lemma find_mode_acc (categories processed : obj Z) (maxCount : Z) (mode : option string) :
  Forall (fun e => 0 < snd e) categories ->
  (mode = None /\ maxCount = 0 /\ processed = []
   \/ exists k, mode = Some k /\ first_highest processed k maxCount) ->
  let result :=
    fold_left (fun '(maxCount, mode) '(v, count) =>
                 if maxCount <? count then (count, Some v) else (maxCount, mode))
              categories (maxCount, mode) in
  snd result = None /\ processed ++ categories = []
  \/ exists k, snd result = Some k
               /\ first_highest (processed ++ categories) k (fst result).
Proof.
  cbv zeta. intros Hpos. revert processed maxCount mode.
  induction Hpos as [|[v c] categories Hc _ IH]; intros processed maxCount mode Hinv; simpl.
  - rewrite app_nil_r. destruct Hinv as [(-> & _ & ->)|(k & -> & Hk)]; [by left|right].
    by exists k.
  - simpl in Hc. replace (processed ++ (v, c) :: categories)
      with ((processed ++ [(v, c)]) ++ categories) by by rewrite <- app_assoc.
    destruct (Z.ltb_spec maxCount c) as [Hlt|Hge]; apply IH; right.
    + exists v. split; [done|]. exists processed, []. split; [done|].
      split; [|constructor].
      destruct Hinv as [(_ & _ & ->)|(k & _ & before & after & -> & Hb & Ha)];
        [constructor|].
      apply Forall_app. split.
      * eapply Forall_impl; [exact Hb|]. simpl. intros; lia.
      * constructor; [simpl; lia|]. eapply Forall_impl; [exact Ha|]. simpl. intros; lia.
    + destruct Hinv as [(_ & -> & _)|(k & -> & before & after & -> & Hb & Ha)]; [lia|].
      exists k. split; [done|]. exists before, (after ++ [(v, c)]).
      split; [by rewrite <- app_assoc|]. split; [done|].
      apply Forall_app. split; [done|]. by repeat constructor.
Qed.

Lemma find_mode_of_positive (categories : obj Z) :
  Forall (fun e => 0 < snd e) categories ->
  match find_mode categories with
  | Some k => exists c, first_highest categories k c
  | None => categories = []
  end.
Proof.
  intros Hpos. unfold find_mode.
  destruct (find_mode_acc categories [] 0 None Hpos) as [[-> H]|(k & -> & Hk)].
  - left. done.
  - done.
  - eexists. exact Hk.
Qed.

(** X8. On a frequency table with positive counts [find_mode] gives the
    first key with the highest count, and nothing only for the empty
    table. *)
Theorem find_mode_first_highest (categories : obj Z) :
  Forall (fun e => 0 < snd e) categories ->
  match find_mode categories with
  | Some k => exists c, first_highest categories k c
  | None => categories = []
  end.
Proof. exact (find_mode_of_positive categories). Qed.

(** ** Further properties: the statistics of a column *)

Lemma determineColumnType_inv (values : list value) (t : column_type) :
  determineColumnType values = t -> t <> TMixed ->
  present values = [] /\ t = TString
  \/ present values <> [] /\ forall v, In v (present values) -> value_type v = t.
Proof.
  rewrite determineColumnType_cases. intros Ht Hmixed.
  destruct (present values) as [|v vs] eqn:E; [left; by subst|right].
  split; [done|].
  destruct (set_of column_type_eqb (map value_type (v :: vs))) as [|t' [|]] eqn:Es.
  - exfalso. revert Es. by apply set_of_nonempty.
  - subst t'. intros w Hw.
    apply (set_of_singleton column_type_eqb column_type_eqb_eq t _ Es).
    by apply in_map.
  - congruence.
Qed.

Lemma present_In (values : list value) (v : value) :
  In v (present values) <-> In v values /\ is_missing v = false.
Proof. unfold present. rewrite filter_In, negb_true_iff. tauto. Qed.

Lemma numbers_of_In (values : list value) (x : number) :
  In x (numbers_of values) <-> In (VNum x) values.
Proof.
  unfold numbers_of. rewrite in_flat_map. split.
  - intros (v & Hv & Hx). destruct v; simpl in Hx; try done.
    by destruct Hx as [->|[]].
  - intros H. exists (VNum x). split; [done|by left].
Qed.

Lemma profile_column_statistics (data : list row) (f : string) :
  let values := map (fun r => get r f) data in
  let column := snd (profile_column data f) in
  let numericValues :=
    if column_type_eqb (determineColumnType values) TNumber
    then numbers_of values else [] in
  let stats (g : list number -> number) :=
    if (0 <? length numericValues)%nat then Some (g numericValues) else None in
  let categorical :=
    column_type_eqb (determineColumnType values) TString
    || column_type_eqb (determineColumnType values) TBoolean in
  DataColumn.type column = determineColumnType values
  /\ DataColumn.min column = stats Num.Math_min
  /\ DataColumn.max column = stats Num.Math_max
  /\ DataColumn.mean column = stats mean_of
  /\ DataColumn.median column = stats median_of
  /\ DataColumn.categories column
     = (if categorical then Some (count_categories values) else None)
  /\ DataColumn.mode column
     = (if categorical then ModeStr <$> find_mode (count_categories values) else None).
Proof. cbv zeta. repeat split. Qed.

(** X9. A column of a profile has the four statistics [min], [max],
    [mean] and [median] when its type is number, and none of them
    otherwise; it has a frequency table when its type is string or
    boolean, and neither a table nor a mode otherwise. *)
Theorem column_statistics_by_type (dataset : DatasetType.t) (column : DataColumn.t) :
  In column (DataProfile.columns (generateDataProfile dataset)) ->
  let numeric := [DataColumn.min column; DataColumn.max column;
                  DataColumn.mean column; DataColumn.median column] in
  match DataColumn.type column with
  | TNumber =>
      Forall is_Some numeric
      /\ DataColumn.categories column = None /\ DataColumn.mode column = None
  | TString | TBoolean =>
      Forall (fun s => s = None) numeric
      /\ is_Some (DataColumn.categories column)
  | TDate | TMixed =>
      Forall (fun s => s = None) numeric
      /\ DataColumn.categories column = None /\ DataColumn.mode column = None
  end.
Proof.
  rewrite generateDataProfile_columns. intros Hin.
  apply in_map_iff in Hin as (f & <- & _). cbv zeta.
  destruct (profile_column_statistics (DatasetType.data dataset) f)
    as (Htype & Hmin & Hmax & Hmean & Hmedian & Hcat & Hmode).
  cbv zeta in Htype, Hmin, Hmax, Hmean, Hmedian, Hcat, Hmode.
  rewrite Htype, Hmin, Hmax, Hmean, Hmedian, Hcat, Hmode.
  set (values := map (fun r => get r f) (DatasetType.data dataset)).
  destruct (determineColumnType values) eqn:E; cbn [column_type_eqb orb];
    try solve [simpl; split; [by repeat constructor|]; first [done|by eexists]].
  destruct (determineColumnType_inv values TNumber E) as [[_ ?]|[Hne Hall]];
    [done|done|].
  assert (Hnum : (0 <? length (numbers_of values))%nat = true).
  { destruct (present values) as [|v vs] eqn:Ep; [done|].
    assert (Hv : In v (present values)) by (rewrite Ep; by left).
    specialize (Hall v ltac:(by left)).
    apply present_In in Hv as [Hv _].
    destruct v as [| |x| |s]; cbn [value_type] in Hall; try discriminate Hall.
    - apply numbers_of_In in Hv. by destruct (numbers_of values).
    - destruct (RegExp.test datePattern s); discriminate Hall. }
  rewrite Hnum. split; [|done]. repeat constructor; by eexists.
Qed.


(** ** Further properties: percentages that are not zero *)

(** Rounding a positive quantity that is at least the smallest positive
    number does not give zero. *)
Lemma bra_nonzero (s : bool) (mx ex : Z) (lx : location) :
  let et := fexp64 (Zdigits2 mx + ex) in
  0 < mx -> ex <= et -> -1074 < Zdigits2 mx + ex ->
  forall s', bra s mx ex lx <> S754_zero s'.
Proof.
  intros et Hmx Hex Hmag s'.
  assert (Eet : et = fexp64 (Zdigits2 mx + ex)) by reflexivity. clearbody et.
  pose proof (Zdigits2_bounds mx Hmx) as [Hlo _].
  pose proof (Zdigits2_pos mx Hmx) as Hd.
  unfold bra, binary_round_aux.
  destruct (shr_fexp_shifted mx ex lx) as [[Hmt _] He1]; [lia|by rewrite <- Eet|].
  rewrite <- Eet in Hmt, He1.
  destruct (shr_fexp Num.prec Num.emax mx ex lx) as [mrs e1]. simpl in Hmt, He1.
  subst e1.
  remember (shr_m mrs) as mt eqn:Emt.
  assert (Hn : et - ex <= Zdigits2 mx - 1) by (fexp_facts; lia).
  assert (Hmt1 : 1 <= mt).
  { rewrite Hmt. apply Z.div_le_lower_bound; [apply Z.pow_pos_nonneg; lia|].
    rewrite Z.mul_1_r. etransitivity; [|exact Hlo]. apply Z.pow_le_mono_r; lia. }
  remember (round_nearest_even mt (loc_of_shr_record mrs)) as mr eqn:Emr.
  assert (Hmr : mt <= mr).
  { destruct (round_nearest_even_cases mrs) as [E|[_ E]];
      rewrite <- Emt in E; rewrite <- Emr in E; lia. }
  assert (Hdt : Zdigits2 mt = Zdigits2 mx - (et - ex)).
  { rewrite Hmt. apply Zdigits2_div_pow2; [lia|]. rewrite <- Hmt. lia. }
  pose proof (Zdigits2_mono mt mr ltac:(lia)) as Hdr.
  pose proof (Zdigits2_pos mr ltac:(lia)) as Hdr0.
  assert (Hk : et <= fexp64 (Zdigits2 mr + et)) by (fexp_facts; lia).
  destruct (shr_fexp_shifted mr et loc_Exact) as [[Hm2 _] He2]; [lia|done|].
  destruct (shr_fexp Num.prec Num.emax mr et loc_Exact) as [mrs2 e2].
  simpl in Hm2, He2. subst e2.
  assert (Hm2pos : 1 <= shr_m mrs2).
  { rewrite Hm2. apply Z.div_le_lower_bound; [apply Z.pow_pos_nonneg; lia|].
    rewrite Z.mul_1_r. pose proof (Zdigits2_bounds mr ltac:(lia)) as [Hlor _].
    etransitivity; [|exact Hlor]. apply Z.pow_le_mono_r; [lia|]. fexp_facts. lia. }
  destruct (shr_m mrs2); try lia. by destruct (_ <=? _).
Qed.

Lemma div_positive (mx : positive) (ex : Z) (my : positive) (ey : Z) :
  Z.pos (digits2_pos mx) = 53 -> Z.pos (digits2_pos my) = 53 ->
  ex <= ey -> ey - ex <= 60 ->
  Num.div (S754_finite false mx ex) (S754_finite false my ey) <> S754_zero false.
Proof.
  intros Hdx Hdy He1 He2.
  unfold Num.div, SFdiv, SFdiv_core_binary. simpl Zdigits2. rewrite Hdx, Hdy.
  fold (fexp64 (53 + ex - (53 + ey))).
  assert (Hf : fexp64 (53 + ex - (53 + ey)) = ex - ey - 53) by (fexp_facts; lia).
  rewrite Hf. rewrite Z.min_l by lia.
  replace (ex - ey - (ex - ey - 53)) with 53 by lia.
  rewrite Z.shiftl_mul_pow2 by lia.
  pose proof (Z_div_mod (Z.pos mx * 2 ^ 53) (Z.pos my) ltac:(lia)) as Hdm.
  destruct (Z.div_eucl (Z.pos mx * 2 ^ 53) (Z.pos my)) as [q r].
  destruct Hdm as [Hdm Hr].
  change (Z.pos (digits2_pos mx)) with (Zdigits2 (Z.pos mx)) in Hdx.
  change (Z.pos (digits2_pos my)) with (Zdigits2 (Z.pos my)) in Hdy.
  pose proof (Zdigits2_bounds (Z.pos mx) ltac:(lia)) as [Hxlo _]. rewrite Hdx in Hxlo.
  pose proof (Zdigits2_bounds (Z.pos my) ltac:(lia)) as [_ Hyhi]. rewrite Hdy in Hyhi.
  change (2 ^ (53 - 1)) with 4503599627370496 in Hxlo.
  change (2 ^ 53) with 9007199254740992 in *.
  assert (Hqlo : 4503599627370496 <= q) by nia.
  pose proof (Zdigits2_ge_pow2 q 52 ltac:(lia) ltac:(done)) as Hdqlo.
  simpl xorb. fold bra. apply bra_nonzero; [lia| |lia].
  fexp_facts. lia.
Qed.

Lemma mul_hundred_positive (m : positive) (e : Z) :
  fexp64 (Z.pos (digits2_pos m) + e) = e ->
  forall s', Num.mul (S754_finite false m e) (Num.of_Z 100) <> S754_zero s'.
Proof.
  intros Hcan s'.
  change (Num.of_Z 100) with (S754_finite false 7036874417766400 (-46)).
  unfold Num.mul, SFmul. simpl xorb. fold bra.
  change (Z.pos (digits2_pos m)) with (Zdigits2 (Z.pos m)) in Hcan.
  rewrite Pos2Z.inj_mul.
  set (M := 7036874417766400) in *.
  assert (HM : 2 ^ 52 <= M) by (unfold M; by vm_compute).
  pose proof (Zdigits2_bounds (Z.pos m) ltac:(lia)) as [Hlo _].
  pose proof (Zdigits2_pos (Z.pos m) ltac:(lia)) as Hd0.
  assert (HDlo : Zdigits2 (Z.pos m) + 52 <= Zdigits2 (Z.pos m * M)).
  { replace (Zdigits2 (Z.pos m) + 52) with (Zdigits2 (Z.pos m) - 1 + 52 + 1) by lia.
    apply Zdigits2_ge_pow2; [lia|]. rewrite Z.pow_add_r by lia.
    apply Z.mul_le_mono_nonneg; try lia. }
  apply bra_nonzero; [lia| |]; fexp_facts; lia.
Qed.

(** For integers [0 < d <= r] with [r] below 2^53, the number
    [(d / r) * 100] is greater than zero. *)
Lemma percentage_positive (d r : Z) :
  0 < d <= r -> r < 2 ^ 53 ->
  Num.truthy (percentage (Num.of_Z d) (Num.of_Z r)) = true
  /\ Num.gt (percentage (Num.of_Z d) (Num.of_Z r)) Num.zero = true.
Proof.
  intros [Hd Hdr] Hr. unfold percentage.
  destruct (of_Z_exact r ltac:(lia)) as (mr & er & -> & Hdmr & Her & Hmr).
  destruct (of_Z_exact d ltac:(lia)) as (md & ed & -> & Hdmd & Hed & Hmd).
  pose proof (Zdigits2_mono d r ltac:(lia)) as Hmono.
  pose proof (Zdigits2_pos d ltac:(lia)).
  pose proof (Zdigits2_lt_pow2 r 53 ltac:(lia) ltac:(lia)).
  pose proof (div_positive md ed mr er Hdmd Hdmr ltac:(lia) ltac:(lia)) as Hnz.
  assert (Hle : Z.pos md <= Z.pos mr * 2 ^ (er - ed)).
  { rewrite Hmd, Hmr, <- Z.mul_assoc, <- Z.pow_add_r by lia.
    replace (- er + (er - ed)) with (- ed) by lia.
    apply Z.mul_le_mono_nonneg_r; [apply Z.pow_nonneg|]; lia. }
  destruct (div_le_one md ed mr er Hdmd Hdmr ltac:(lia) ltac:(lia) Hle)
    as [Hz|(m & e & Hdiv & He & Hm & Hcan)].
  - contradiction.
  - rewrite Hdiv. pose proof (mul_hundred_positive m e Hcan) as Hnz2.
    destruct (mul_hundred_le m e He Hm Hcan) as [Hnonneg _].
    destruct (Num.mul (S754_finite false m e) (Num.of_Z 100)) as [s2|[]| |[] m2 e2];
      try done. by destruct (Hnz2 s2).
Qed.

Lemma percentage_of_zero (r : Z) :
  0 < r < 2 ^ 53 -> percentage (Num.of_Z 0) (Num.of_Z r) = Num.zero.
Proof.
  intros Hr. destruct (of_Z_exact r Hr) as (mr & er & -> & _). reflexivity.
Qed.

(** ** Further properties: the suggestions *)

Lemma missing_suggestions_kind (profile : DataProfile.t) (kind : issue_kind) :
  of_kind kind (missing_suggestions profile)
  = if issue_eqb Missing kind then missing_suggestions profile else [].
Proof.
  unfold of_kind, missing_suggestions.
  induction (DataProfile.columns profile) as [|c cs IH]; simpl.
  - by destruct kind.
  - rewrite List.filter_app, IH.
    destruct (has_missing c); simpl; by destruct kind.
Qed.

Lemma duplicate_suggestions_kind (profile : DataProfile.t) (kind : issue_kind) :
  of_kind kind (duplicate_suggestions profile)
  = if issue_eqb Duplicate kind then duplicate_suggestions profile else [].
Proof.
  unfold of_kind, duplicate_suggestions.
  destruct (Num.gt _ _); simpl; by destruct kind.
Qed.

Lemma outlier_suggestions_kind (profile : DataProfile.t) (kind : issue_kind) :
  of_kind kind (outlier_suggestions profile)
  = if issue_eqb Outlier kind then outlier_suggestions profile else [].
Proof.
  unfold of_kind, outlier_suggestions.
  induction (List.filter _ (DataProfile.columns profile)) as [|c cs IH]; simpl.
  - by destruct kind.
  - rewrite List.filter_app, IH. unfold outlier_suggestion.
    destruct (DataColumn.min c), (DataColumn.max c), (DataColumn.mean c);
      simpl; try (by destruct kind).
    destruct (_ && _); simpl; by destruct kind.
Qed.

(** X11. The suggestions come in a fixed order: those on missing values,
    then at most one on duplicate rows, then those on outliers; none is
    of the kind [inconsistent], and every one has [autoFix] set. *)
Theorem suggestions_order_and_kinds (profile : DataProfile.t) :
  let suggestions := generateCleaningSuggestions profile in
  suggestions = of_kind Missing suggestions ++ of_kind Duplicate suggestions
                ++ of_kind Outlier suggestions
  /\ of_kind Inconsistent suggestions = []
  /\ (length (of_kind Duplicate suggestions) <= 1)%nat
  /\ Forall (fun s => CleaningSuggestion.autoFix s = Some true) suggestions.
Proof.
  cbv zeta. unfold generateCleaningSuggestions.
  assert (Hk : forall kind,
             of_kind kind (missing_suggestions profile ++ duplicate_suggestions profile
                           ++ outlier_suggestions profile)
             = (if issue_eqb Missing kind then missing_suggestions profile else [])
               ++ (if issue_eqb Duplicate kind then duplicate_suggestions profile else [])
               ++ (if issue_eqb Outlier kind then outlier_suggestions profile else [])).
  { intros kind. unfold of_kind. rewrite !List.filter_app.
    fold (of_kind kind (missing_suggestions profile)).
    fold (of_kind kind (duplicate_suggestions profile)).
    fold (of_kind kind (outlier_suggestions profile)).
    by rewrite missing_suggestions_kind, duplicate_suggestions_kind,
      outlier_suggestions_kind. }
  rewrite !Hk. simpl. rewrite !app_nil_r. split; [done|]. split; [done|]. split.
  - unfold duplicate_suggestions. destruct (Num.gt _ _); simpl; lia.
  - rewrite !Forall_app. split; [|split].
    + unfold missing_suggestions. apply Forall_forall. intros s Hs.
      apply list_elem_of_In, in_flat_map in Hs as (c & _ & Hs).
      destruct (has_missing c); [|done]. by destruct Hs as [<-|[]].
    + unfold duplicate_suggestions. destruct (Num.gt _ _); by repeat constructor.
    + unfold outlier_suggestions. apply Forall_forall. intros s Hs.
      apply list_elem_of_In, in_flat_map in Hs as (c & _ & Hs).
      unfold outlier_suggestion in Hs.
      destruct (DataColumn.min c), (DataColumn.max c), (DataColumn.mean c); try done.
      destruct (_ && _); [|done]. by destruct Hs as [<-|[]].
Qed.



(** X13. For a dataset that has rows (fewer than 2^53) there is a
    suggestion on duplicate rows exactly when [duplicateRows] is not 0. *)
Theorem duplicate_suggestion_iff_duplicates (dataset : DatasetType.t) :
  let profile := generateDataProfile dataset in
  0 < Z.of_nat (length (DatasetType.data dataset)) < 2 ^ 53 ->
  length (of_kind Duplicate (generateCleaningSuggestions profile))
  = if 0 <? DataProfile.duplicateRows profile then 1%nat else 0%nat.
Proof.
  cbv zeta. intros Hrows.
  unfold generateCleaningSuggestions, of_kind. rewrite !List.filter_app.
  fold (of_kind Duplicate (missing_suggestions (generateDataProfile dataset))).
  fold (of_kind Duplicate (duplicate_suggestions (generateDataProfile dataset))).
  fold (of_kind Duplicate (outlier_suggestions (generateDataProfile dataset))).
  rewrite missing_suggestions_kind, duplicate_suggestions_kind, outlier_suggestions_kind.
  simpl. rewrite app_nil_r. unfold duplicate_suggestions.
  destruct (generateDataProfile_unfold dataset) as (_ & _ & Hdup & Hpct).
  cbv zeta in Hdup, Hpct. rewrite Hpct.
  pose proof (set_of_length Str.eqb (map JSON_stringify (DatasetType.data dataset))) as Hb.
  rewrite length_map in Hb.
  destruct (Z.ltb_spec 0 (DataProfile.duplicateRows (generateDataProfile dataset)))
    as [Hpos|Hzero].
  - destruct (percentage_positive (DataProfile.duplicateRows (generateDataProfile dataset))
                (Z.of_nat (length (DatasetType.data dataset)))) as [_ ->];
      [lia|lia|done].
  - replace (DataProfile.duplicateRows (generateDataProfile dataset)) with 0 by lia.
    by rewrite percentage_of_zero.
Qed.

Lemma determineColumnType_no_rows (f : string) :
  DataColumn.type (snd (profile_column [] f)) = TString.
Proof. reflexivity. Qed.

(** X14. For a dataset without rows no suggestion is generated: its
    percentages are NaN, which is not greater than 0. *)
Theorem no_suggestion_without_rows (dataset : DatasetType.t) :
  DatasetType.data dataset = [] ->
  generateCleaningSuggestions (generateDataProfile dataset) = [].
Proof.
  intros Hdata.
  destruct (generateDataProfile_unfold dataset) as (_ & _ & Hdup & Hpct).
  cbv zeta in Hdup, Hpct. rewrite Hdup, Hdata in Hpct.
  change (percentage _ _) with Num.nan in Hpct.
  unfold generateCleaningSuggestions, missing_suggestions, duplicate_suggestions,
    outlier_suggestions.
  rewrite Hpct, generateDataProfile_columns, Hdata.
  change (Num.gt Num.nan Num.zero) with false. cbv iota.
  induction (DatasetType.fields dataset) as [|f fs IH]; [done|]. exact IH.
Qed.

(** ** Further properties: cleaning *)

Lemma selects_false (kind : issue_kind) (s : CleaningSuggestion.t) :
  CleaningSuggestion.autoFix s <> Some true -> selects kind s = false.
Proof.
  intros H. destruct (selects kind s) eqn:E; [|done].
  apply selects_spec in E as [_ E]. contradiction.
Qed.

Lemma apply_passed_over (profile : DataProfile.t) (rows : list row)
  (s : CleaningSuggestion.t) :
  passed_over profile s -> apply_suggestion profile rows s = rows.
Proof.
  unfold apply_suggestion.
  intros [H|[H|[[H Hc]|[H Hc]]]].
  - by rewrite !selects_false.
  - by rewrite (selects_other Inconsistent Duplicate),
      (selects_other Inconsistent Missing), (selects_other Inconsistent Outlier).
  - rewrite (selects_other Missing Duplicate), (selects_other Missing Outlier) by done.
    rewrite Hc. by destruct (selects Missing s).
  - rewrite (selects_other Outlier Duplicate), (selects_other Outlier Missing) by done.
    rewrite Hc. by destruct (selects Outlier s).
Qed.

(** X15. Suggestions without [autoFix], of the kind [inconsistent], on a
    column that the profile does not have, or asking to cap a column
    that is not a number with a median, are passed over without an
    error: a selection made of such suggestions leaves the dataset as it
    is. *)
Theorem cleanDataset_passes_over (dataset : DatasetType.t) (profile : DataProfile.t)
  (selectedSuggestions : list CleaningSuggestion.t) :
  Forall (passed_over profile) selectedSuggestions ->
  cleanDataset dataset profile selectedSuggestions = dataset.
Proof.
  intros Hall. destruct dataset as [data fields filename]. unfold cleanDataset. simpl.
  f_equal. revert data. induction Hall as [|s l Hs _ IH]; intros data; simpl; [done|].
  by rewrite apply_passed_over, IH.
Qed.

Lemma remove_duplicates_length {A} (key : A -> string) (rows : list A) :
  (length (remove_duplicates key rows) <= length rows)%nat.
Proof.
  rewrite <- (length_map key (remove_duplicates key rows)), remove_duplicates_keys.
  etransitivity; [apply first_occurrences_length|]. by rewrite length_map.
Qed.

Lemma apply_suggestion_length (profile : DataProfile.t) (rows : list row)
  (s : CleaningSuggestion.t) :
  (length (apply_suggestion profile rows s) <= length rows)%nat
  /\ (selects Duplicate s = false ->
      length (apply_suggestion profile rows s) = length rows).
Proof.
  unfold apply_suggestion.
  pose proof (remove_duplicates_length JSON_stringify rows).
  destruct (selects Duplicate s), (selects Missing s), (selects Outlier s),
    (find_column profile (CleaningSuggestion.column s)),
    (outlier_cap profile (CleaningSuggestion.column s));
    cbv zeta; rewrite ?length_map; split; try lia; done.
Qed.

(** X16. Cleaning never adds a row, and keeps the number of rows when no
    suggestion on duplicate rows with [autoFix] is selected. *)
Theorem cleanDataset_row_count (dataset : DatasetType.t) (profile : DataProfile.t)
  (selectedSuggestions : list CleaningSuggestion.t) :
  let cleaned := cleanDataset dataset profile selectedSuggestions in
  (length (DatasetType.data cleaned) <= length (DatasetType.data dataset))%nat
  /\ (Forall (fun s => selects Duplicate s = false) selectedSuggestions ->
      length (DatasetType.data cleaned) = length (DatasetType.data dataset)).
Proof.
  cbv zeta. unfold cleanDataset. simpl.
  generalize (DatasetType.data dataset) as rows.
  induction selectedSuggestions as [|s l IH]; intros rows; simpl; [done|].
  destruct (IH (apply_suggestion profile rows s)) as [Hle Heq].
  destruct (apply_suggestion_length profile rows s) as [Hle1 Heq1].
  split; [lia|]. intros Hall. apply Forall_cons in Hall as [Hs Hl].
  rewrite Heq, Heq1; done.
Qed.




Lemma obj_replace_same {A} (k : string) (v : A) (o : obj A) :
  obj_get k o = Some v -> obj_replace k v o = o.
Proof.
  induction o as [|[k' v'] o IH]; simpl; [done|].
  destruct (Str.eqb k' k); intros H.
  - by injection H as ->.
  - by rewrite IH.
Qed.

Lemma obj_get_set_eq {A} (k : string) (v : A) (o : obj A) :
  obj_get k (obj_set k v o) = Some v.
Proof.
  unfold obj_set. destruct (obj_get k o) eqn:E.
  - apply obj_get_replace_eq. by rewrite E.
  - destruct (array_index k).
    + by apply obj_get_insert_index_eq.
    + by apply obj_get_app_eq.
Qed.

Lemma obj_set_idempotent {A} (k : string) (v : A) (o : obj A) :
  obj_set k v (obj_set k v o) = obj_set k v o.
Proof.
  unfold obj_set at 1. rewrite obj_get_set_eq. apply obj_replace_same, obj_get_set_eq.
Qed.

Lemma fill_missing_idempotent (column : DataColumn.t) (name : string) (r : row) :
  fill_missing column name (fill_missing column name r) = fill_missing column name r.
Proof.
  unfold fill_missing. destruct (is_missing (get r name)) eqn:E.
  - rewrite get_set_eq. destruct (is_missing (fill_value column)); [|done].
    apply obj_set_idempotent.
  - by rewrite E.
Qed.

Lemma SFltb_irrefl (x : number) : SFltb x x = false.
Proof.
  unfold SFltb, SFcompare. destruct x as [s|s| |s m e]; try done; [by destruct s|].
  rewrite Z.compare_refl.
  assert (H : Pos.compare_cont Eq m m = Eq) by apply Pos.compare_refl.
  rewrite H. by destruct s.
Qed.

Lemma cap_outlier_idempotent (cap : number) (name : string) (r : row) :
  cap_outlier cap name (cap_outlier cap name r) = cap_outlier cap name r.
Proof.
  unfold cap_outlier. destruct (above_cap cap name r) eqn:E.
  - unfold above_cap at 1. rewrite get_set_eq. unfold Num.gt.
    by rewrite SFltb_irrefl.
  - by rewrite E.
Qed.

Lemma map_idempotent {A} (f : A -> A) (l : list A) :
  (forall x, f (f x) = f x) -> map f (map f l) = map f l.
Proof. intros H. rewrite map_map. apply map_ext. exact H. Qed.

Lemma apply_suggestion_idempotent (profile : DataProfile.t) (rows : list row)
  (s : CleaningSuggestion.t) :
  apply_suggestion profile (apply_suggestion profile rows s) s
  = apply_suggestion profile rows s.
Proof.
  unfold apply_suggestion.
  destruct (selects Duplicate s) eqn:Hd, (selects Missing s) eqn:Hm,
    (selects Outlier s) eqn:Ho;
    try (apply selects_spec in Hd as [Hd _]);
    try (apply selects_spec in Hm as [Hm _]);
    try (apply selects_spec in Ho as [Ho _]);
    try congruence;
    repeat match goal with
           | |- context [find_column ?p ?n] => destruct (find_column p n)
           | |- context [outlier_cap ?p ?n] => destruct (outlier_cap p n)
           end;
    try done;
    first [ apply remove_duplicates_idempotent
          | apply map_idempotent, fill_missing_idempotent
          | apply map_idempotent, cap_outlier_idempotent ].
Qed.

(** X18. Selecting a suggestion twice in a row changes nothing: whatever
    its kind, applying it to the result of applying it gives that result
    again. *)
Theorem every_suggestion_is_idempotent (dataset : DatasetType.t)
  (profile : DataProfile.t) (s : CleaningSuggestion.t) :
  cleanDataset dataset profile [s; s] = cleanDataset dataset profile [s]
  /\ cleanDataset (cleanDataset dataset profile [s]) profile [s]
     = cleanDataset dataset profile [s].
Proof.
  unfold cleanDataset. cbn [fold_left DatasetType.data DatasetType.fields
    DatasetType.filename].
  by rewrite apply_suggestion_idempotent.
Qed.

Lemma first_occurrences_twice (l : list string) :
  first_occurrences (first_occurrences l) = first_occurrences l.
Proof.
  pose proof (remove_duplicates_keys (fun k => k) l) as H1.
  pose proof (remove_duplicates_keys (fun k => k) (remove_duplicates (fun k => k) l)) as H2.
  rewrite remove_duplicates_idempotent in H2. rewrite !List.map_id in H1, H2.
  rewrite H1 in H2. by rewrite !(List.map_id l) in H2.
Qed.

(** X19. A suggestion on duplicate rows with [autoFix] removes as many
    rows as the profile of the dataset counts as [duplicateRows], and
    the profile of the cleaned dataset counts none. *)
Theorem duplicates_removed_as_profiled (dataset : DatasetType.t)
  (profile : DataProfile.t) (s : CleaningSuggestion.t) :
  CleaningSuggestion.issue s = Duplicate ->
  CleaningSuggestion.autoFix s = Some true ->
  let cleaned := cleanDataset dataset profile [s] in
  Z.of_nat (length (DatasetType.data cleaned))
  = DataProfile.rowCount (generateDataProfile dataset)
    - DataProfile.duplicateRows (generateDataProfile dataset)
  /\ DataProfile.duplicateRows (generateDataProfile cleaned) = 0.
Proof.
  intros Hissue Hfix. cbv zeta.
  destruct (generateDataProfile_unfold dataset) as (Hrows & _ & Hdup & _).
  destruct (generateDataProfile_unfold (cleanDataset dataset profile [s]))
    as (_ & _ & Hdup' & _).
  cbv zeta in Hrows, Hdup, Hdup'. rewrite Hrows, Hdup, Hdup'.
  cbn [cleanDataset fold_left DatasetType.data].
  rewrite apply_duplicate by done.
  assert (Hsel : selects Duplicate s = true) by by apply selects_spec.
  rewrite Hsel, !set_of_first_occurrences, remove_duplicates_keys.
  rewrite first_occurrences_twice.
  rewrite <- (length_map JSON_stringify (remove_duplicates _ _)), remove_duplicates_keys.
  lia.
Qed.

(** ** Further properties: a generated suggestion, applied *)
















(** ** Further properties: the answers *)

Lemma column_summary_TypeError (data : list row) (c : string) :
  column_summary data c = TypeError <-> data = [].
Proof. destruct data; simpl; split; intros H; done. Qed.

Lemma answer_from_maximum_TypeError (questionLower : string) (data : list row)
  (c : string) :
  answer_from_maximum questionLower data c = TypeError
  <-> data = []
      /\ asks questionLower ["unique"; "distinct"] = false
      /\ asks questionLower ["missing"; "null"; "empty"] = false.
Proof.
  unfold answer_from_maximum, answer_from_minimum, answer_from_average,
    answer_from_unique, answer_from_missing.
  destruct data as [|r data].
  - cbn [column_values map List.filter first_is_number numbers_of flat_map length
         Nat.ltb Nat.leb]. rewrite !andb_false_r.
    destruct (asks questionLower ["unique"; "distinct"]),
      (asks questionLower ["missing"; "null"; "empty"]); simpl; split;
      intros H; try done; by destruct H as (_ & ? & ?).
  - split; [|by intros [? _]].
    repeat match goal with
           | |- context [if ?b then _ else _] => destruct b
           end; done.
Qed.

(** X22. [generateAnswer] fails, with the TypeError of reading a
    property of [data[0]], on exactly one kind of input: a dataset
    without rows and a question that asks for none of the counts or
    lists of rows and columns, mentions a field with a name that is not
    empty, and has none of the words unique, distinct, missing, null and
    empty.  On a dataset with a row it always returns. *)
Theorem generateAnswer_TypeError (question : string) (dataset : DatasetType.t) :
  let questionLower := Str.toLowerCase question in
  generateAnswer question dataset = TypeError
  <-> DatasetType.data dataset = []
      /\ asks questionLower ["how many rows"; "how many records"] = false
      /\ asks questionLower ["how many columns"; "how many fields"] = false
      /\ asks questionLower ["what columns"; "what fields"] = false
      /\ (exists c, mentioned_column questionLower (DatasetType.fields dataset) = Some c
                    /\ c <> "")
      /\ asks questionLower ["unique"; "distinct"] = false
      /\ asks questionLower ["missing"; "null"; "empty"] = false.
Proof.
  cbv zeta. unfold generateAnswer.
  destruct (asks _ ["how many rows"; "how many records"]);
    [split; [done|by intros (_ & ? & _)]|].
  destruct (asks _ ["how many columns"; "how many fields"]);
    [split; [done|by intros (_ & _ & ? & _)]|].
  destruct (asks _ ["what columns"; "what fields"]);
    [split; [done|by intros (_ & _ & _ & ? & _)]|].
  destruct (mentioned_column _ _) as [c|];
    [|split; [done|by intros (_ & _ & _ & _ & (c & ? & _) & _)]].
  destruct (Str.eqb c "") eqn:E.
  - apply Str_eqb_eq in E. split; [done|].
    intros (_ & _ & _ & _ & (c' & [= <-] & Hc) & _). done.
  - rewrite answer_from_maximum_TypeError. split.
    + intros (Hd & Hu & Hm). repeat (split; [done|]). split; [|done].
      exists c. split; [done|]. intros ->. by rewrite Str_eqb_refl in E.
    + intros (Hd & _ & _ & _ & _ & Hu & Hm). done.
Qed.

(** ** Further properties: the selection of the cleaning page *)

Lemma includes_index_In (selected : list nat) (index : nat) :
  includes_index selected index = true <-> In index selected.
Proof.
  unfold includes_index. rewrite existsb_exists. split.
  - intros (x & Hx & E). apply Nat.eqb_eq in E. by subst.
  - intros H. exists index. split; [done|apply Nat.eqb_refl].
Qed.

Lemma includes_index_eq (selected selected' : list nat) (index : nat) :
  (In index selected <-> In index selected') ->
  includes_index selected index = includes_index selected' index.
Proof.
  intros H. destruct (includes_index selected index) eqn:E,
    (includes_index selected' index) eqn:E'; try done.
  - apply includes_index_In, H, includes_index_In in E. congruence.
  - apply includes_index_In, H, includes_index_In in E'. congruence.
Qed.

Lemma toggleSuggestion_In (prev : list nat) (index j : nat) :
  In j (toggleSuggestion prev index)
  <-> (if Nat.eqb j index then ~ In index prev else In j prev).
Proof.
  unfold toggleSuggestion. destruct (includes_index prev index) eqn:E.
  - apply includes_index_In in E. rewrite filter_In, negb_true_iff.
    destruct (Nat.eqb_spec j index) as [->|Hne]; intuition congruence.
  - assert (Hn : ~ In index prev).
    { intros H. apply includes_index_In in H. congruence. }
    rewrite in_app_iff. simpl.
    destruct (Nat.eqb_spec j index) as [->|Hne]; [tauto|].
    split; [intros [?|[?|[]]]; [done|by subst]|tauto].
Qed.

(** X23. [toggleSuggestion] changes the selection at one index only: it
    takes the index out when it is selected and puts it in when it is
    not; a selection without repeated indices stays one, and toggling
    the same index twice selects what was selected before. *)
Theorem toggleSuggestion_membership (prev : list nat) (index : nat) :
  (forall j, includes_index (toggleSuggestion prev index) j
             = if Nat.eqb j index then negb (includes_index prev index)
               else includes_index prev j)
  /\ (NoDup prev -> NoDup (toggleSuggestion prev index))
  /\ (forall j, includes_index (toggleSuggestion (toggleSuggestion prev index) index) j
                = includes_index prev j).
Proof.
  assert (H1 : forall prev index j,
             includes_index (toggleSuggestion prev index) j
             = if Nat.eqb j index then negb (includes_index prev index)
               else includes_index prev j).
  { clear. intros prev index j.
    pose proof (toggleSuggestion_In prev index j) as H.
    destruct (Nat.eqb j index) eqn:Ej.
    - apply Nat.eqb_eq in Ej. subst j. destruct (includes_index prev index) eqn:E; simpl.
      + apply includes_index_In in E.
        destruct (includes_index _ index) eqn:E'; [|done].
        apply includes_index_In in E'. tauto.
      + apply includes_index_In, H. intros Hin. apply includes_index_In in Hin. congruence.
    - apply includes_index_eq. exact H. }
  split; [apply H1|]. split.
  - intros Hnd. unfold toggleSuggestion. destruct (includes_index prev index) eqn:E.
    + by apply NoDup_List_filter.
    + apply NoDup_app. split; [done|]. split; [|apply NoDup_singleton].
      intros x Hx Hx'. apply list_elem_of_In in Hx.
      apply list_elem_of_In in Hx' as [<-|[]].
      apply includes_index_In in Hx. congruence.
  - intros j. rewrite !H1. destruct (Nat.eqb j index) eqn:Ej; [|done].
    apply Nat.eqb_eq in Ej. subst. rewrite Nat.eqb_refl. apply negb_involutive.
Qed.

Lemma filter_indexed_sublist {A} (keep : nat -> bool) (i : nat) (l : list A) :
  sublist (filter_indexed keep i l) l.
Proof.
  revert i. induction l as [|x l IH]; intros i; simpl; [constructor|].
  destruct (keep i); by constructor.
Qed.

Lemma filter_indexed_ext {A} (keep keep' : nat -> bool) (i : nat) (l : list A) :
  (forall j, (i <= j < i + length l)%nat -> keep j = keep' j) ->
  filter_indexed keep i l = filter_indexed keep' i l.
Proof.
  revert i. induction l as [|x l IH]; intros i H; simpl; [done|].
  rewrite (H i) by (simpl; lia). rewrite (IH (S i)); [done|].
  intros j Hj. apply H. simpl. lia.
Qed.

Lemma filter_indexed_all {A} (i : nat) (l : list A) :
  filter_indexed (fun _ => true) i l = l.
Proof. revert i. induction l as [|x l IH]; intros i; simpl; [done|]. by rewrite IH. Qed.

(** X24. The suggestions that [applyCleaningActions] passes on are the
    generated ones at the selected indices, in the order in which they
    were generated whatever the order of the clicks: they depend only on
    which indices are selected, and they are all the suggestions for the
    selection that [handleFileUpload] sets. *)
Theorem selected_suggestions_in_generation_order
  (suggestions : list CleaningSuggestion.t) (selected selected' : list nat) :
  sublist (selectedSuggestionsArr suggestions selected) suggestions
  /\ ((forall i, (i < length suggestions)%nat -> In i selected <-> In i selected') ->
      selectedSuggestionsArr suggestions selected
      = selectedSuggestionsArr suggestions selected')
  /\ selectedSuggestionsArr suggestions (select_all suggestions) = suggestions.
Proof.
  unfold selectedSuggestionsArr. split; [apply filter_indexed_sublist|]. split.
  - intros H. apply filter_indexed_ext. intros j Hj.
    apply includes_index_eq, H. lia.
  - transitivity (filter_indexed (fun _ => true) 0 suggestions);
      [|apply filter_indexed_all].
    apply filter_indexed_ext. intros j Hj. apply includes_index_In.
    unfold select_all. apply in_seq. lia.
Qed.

(** With every suggestion selected [applyCleaningActions] cleans with
    all the suggestions, and clicking a suggestion twice before applying
    gives the dataset that applying at once gives. *)
Corollary applyCleaningActions_by_selection (dataset : DatasetType.t)
  (profile : DataProfile.t) (suggestions : list CleaningSuggestion.t)
  (selected : list nat) (index : nat) :
  applyCleaningActions dataset profile suggestions (select_all suggestions)
  = cleanDataset dataset profile suggestions
  /\ applyCleaningActions dataset profile suggestions
       (toggleSuggestion (toggleSuggestion selected index) index)
     = applyCleaningActions dataset profile suggestions selected.
Proof.
  unfold applyCleaningActions, selectedSuggestionsArr. split.
  - f_equal. transitivity (filter_indexed (fun _ => true) 0 suggestions);
      [|apply filter_indexed_all].
    apply filter_indexed_ext. intros j Hj. apply includes_index_In.
    unfold select_all. apply in_seq. lia.
  - f_equal. apply filter_indexed_ext. intros j _.
    apply includes_index_eq. rewrite toggleSuggestion_In.
    destruct (Nat.eqb j index) eqn:Ej; [|by rewrite toggleSuggestion_In, Ej].
    apply Nat.eqb_eq in Ej. subst j.
    rewrite toggleSuggestion_In, Nat.eqb_refl.
    destruct (includes_index selected index) eqn:E.
    + apply includes_index_In in E. tauto.
    + split; [intros H; exfalso; apply H|];
        intros Hin; apply includes_index_In in Hin; congruence.
Qed.

(** ** Further properties: dimensions, measures and the listed categories *)



Lemma insert_by_count_Permutation (x : string * Z) (l : list (string * Z)) :
  Permutation (insert_by_count x l) (x :: l).
Proof.
  induction l as [|y l IH]; simpl; [done|].
  destruct (snd y - snd x <? 0); [done|].
  rewrite IH. apply perm_swap.
Qed.

Lemma sort_by_count_acc (entries sorted : list (string * Z)) :
  Permutation (fold_left (fun sorted x => insert_by_count x sorted) entries sorted)
              (sorted ++ entries)
  /\ (descending sorted ->
      descending (fold_left (fun sorted x => insert_by_count x sorted) entries sorted)).
Proof.
  revert sorted. induction entries as [|x entries IH]; intros sorted; simpl.
  - by rewrite app_nil_r.
  - destruct (IH (insert_by_count x sorted)) as [Hp Hd]. split.
    + rewrite Hp, insert_by_count_Permutation.
      by rewrite <- Permutation_middle.
    + intros Hs. apply Hd. clear -Hs.
      induction sorted as [|y l IH]; simpl; [done|].
      destruct Hs as [Hy Hl].
      destruct (Z.ltb_spec (snd y - snd x) 0) as [Hlt|Hge]; simpl.
      * split; [|done]. constructor; [lia|].
        eapply Forall_impl; [exact Hy|]. simpl. intros; lia.
      * split; [|by apply IH].
        rewrite (insert_by_count_Permutation x l). constructor; [lia|done].
Qed.

Lemma descending_app (a b : list (string * Z)) :
  descending (a ++ b) ->
  descending a /\ Forall (fun r => Forall (fun e => snd r <= snd e) a) b.
Proof.
  induction a as [|x a IH]; simpl.
  - intros _. split; [done|]. apply Forall_forall. intros; constructor.
  - intros [Hx Ha]. apply Forall_app in Hx as [Hxa Hxb].
    destruct (IH Ha) as [Hd Hb]. split; [done|].
    rewrite Forall_forall in Hxb, Hb. apply Forall_forall. intros r Hr.
    constructor; [by apply Hxb|by apply Hb].
Qed.

(** X26. The categories that the profiling page lists are the ten
    entries of the frequency table with the highest counts, or all of
    them when there are fewer: their counts do not go up, and no entry
    that is left out has a higher count than a listed one. *)
Theorem top_categories_are_the_highest (categories : obj Z) :
  let top := top_categories categories in
  length top = Nat.min 10 (length categories)
  /\ descending top
  /\ exists rest,
       Permutation categories (top ++ rest)
       /\ Forall (fun r => Forall (fun e => snd r <= snd e) top) rest.
Proof.
  cbv zeta. unfold top_categories, sort_by_count.
  destruct (sort_by_count_acc categories []) as [Hp Hd]. simpl in Hp.
  set (sorted := fold_left _ categories []) in *.
  specialize (Hd I).
  rewrite <- (firstn_skipn 10 sorted) in Hd. apply descending_app in Hd as [Hd Hrest].
  split; [|split; [done|]].
  - rewrite length_firstn. by rewrite (Permutation_length Hp).
  - exists (skipn 10 sorted). split; [|done].
    by rewrite firstn_skipn.
Qed.

Lemma sort_by_count_head (entries sorted : list (string * Z)) (maxCount : Z)
  (mode : option string) :
  Forall (fun e => 0 < snd e) entries ->
  match sorted with
  | [] => mode = None /\ maxCount = 0
  | (k, c) :: _ => mode = Some k /\ maxCount = c
  end ->
  match fold_left (fun sorted x => insert_by_count x sorted) entries sorted with
  | [] => None
  | (k, _) :: _ => Some k
  end
  = snd (fold_left (fun '(maxCount, mode) '(v, count) =>
                      if maxCount <? count then (count, Some v) else (maxCount, mode))
                   entries (maxCount, mode)).
Proof.
  intros Hpos. revert sorted maxCount mode.
  induction Hpos as [|[v c] entries Hc _ IH]; intros sorted maxCount mode Hinv.
  - simpl. destruct sorted as [|[k c] t]; by destruct Hinv as [-> _].
  - cbn [fold_left]. simpl in Hc. destruct sorted as [|[k c'] t].
    + destruct Hinv as [-> ->]. simpl.
      destruct (Z.ltb_spec 0 c) as [_|?]; [|lia]. by apply IH.
    + destruct Hinv as [-> ->]. cbn [insert_by_count snd].
      destruct (Z.ltb_spec (c' - c) 0) as [Hlt|Hge];
        destruct (Z.ltb_spec c' c) as [Hlt'|Hge']; try lia; by apply IH.
Qed.

(** X27. On a frequency table with positive counts the first category
    that the profiling page lists is the mode of the column. *)
Theorem first_listed_category_is_the_mode (categories : obj Z) :
  Forall (fun e => 0 < snd e) categories ->
  match top_categories categories with
  | [] => None
  | (k, _) :: _ => Some k
  end = find_mode categories.
Proof.
  intros Hpos. unfold find_mode.
  rewrite <- (sort_by_count_head categories [] 0 None Hpos) by done.
  unfold top_categories, sort_by_count.
  by destruct (fold_left _ categories []) as [|[k c] t].
Qed.

End Engine.

(** ** The properties on the examples

    The examples run with the conversions of [Runtime]. *)

(** On the dataset without rows every percentage of the profile is NaN. *)
Lemma C2_no_rows_counterexample :
  let profile := generateDataProfile Runtime.Number_toString_int no_rows in
  map DataColumn.nullPercentage (DataProfile.columns profile)
  = [Some Num.nan; Some Num.nan]
  /\ DataProfile.nullPercentage profile = Num.nan
  /\ DataProfile.duplicatePercentage profile = Num.nan
  /\ Num.strict_eq (DataProfile.duplicatePercentage profile) Num.zero = false.
Proof. vm_compute. repeat split. Qed.

Lemma C2_witness :
  DatasetType.data no_rows = []
  /\ DataProfile.duplicatePercentage
       (generateDataProfile Runtime.Number_toString_int no_rows) = Num.nan.
Proof.
  split; [reflexivity|].
  apply (proj1 (C2_zero_divisor_gives_NaN Runtime.Number_toString_int no_rows)).
  reflexivity.
Defined.

(** A column of flags has a mode, and the suggestion on its missing cell
    recommends no value. *)
Lemma C4_boolean_column_counterexample :
  let profile := generateDataProfile Runtime.Number_toString_int flags_dataset in
  map DataColumn.type (DataProfile.columns profile) = [TBoolean]
  /\ map DataColumn.mode (DataProfile.columns profile) = [Some (ModeStr "true")]
  /\ map (fun s => (CleaningSuggestion.issue s, CleaningSuggestion.recommendation s))
         (generateCleaningSuggestions Runtime.Number_toString_int
            Runtime.Number_toFixed_2 profile)
     = [(Missing, "Remove rows or fill with placeholder")].
Proof. vm_compute. repeat split. Qed.

Lemma C4_witness :
  exists column,
    In column (DataProfile.columns
                 (generateDataProfile Runtime.Number_toString_int scenario_A))
    /\ DataColumn.name column = "age"
    /\ recommendation_for Runtime.Number_toString_int column
       = "Fill with mean or median value".
Proof.
  set (profile := generateDataProfile Runtime.Number_toString_int scenario_A).
  set (s := missing_suggestion Runtime.Number_toString_int Runtime.Number_toFixed_2
              (hd (DataColumn.mk "" TString None None None None None None None None
                                 None None)
                  (DataProfile.columns profile))).
  destruct (C4_missing_recommendation_by_type Runtime.Number_toString_int
              Runtime.Number_toFixed_2 profile s) as (column & Hin & Hname & Hrec).
  - vm_compute. left. reflexivity.
  - reflexivity.
  - exists column. split; [exact Hin|]. split; [symmetry; exact Hname|].
    rewrite <- Hrec. reflexivity.
Defined.

(** On the dataset without rows [duplicatePercentage] is not between 0
    and 100: it is NaN, which no comparison holds of. *)
Lemma C5_no_rows_counterexample :
  let profile := generateDataProfile Runtime.Number_toString_int no_rows in
  Num.le Num.zero (DataProfile.duplicatePercentage profile) = false
  /\ Num.le (DataProfile.duplicatePercentage profile) (Num.of_Z 100) = false.
Proof. vm_compute. repeat split. Qed.

Lemma C5_witness :
  let profile := generateDataProfile Runtime.Number_toString_int scenario_A in
  DataProfile.duplicateRows profile = 1
  /\ Num.le Num.zero (DataProfile.duplicatePercentage profile) = true
  /\ Num.le (DataProfile.duplicatePercentage profile) (Num.of_Z 100) = true.
Proof.
  cbv zeta. split; [reflexivity|].
  apply (proj1 (proj2 (proj2 (C5_duplicate_rows_and_percentage
                                Runtime.Number_toString_int scenario_A)))).
  vm_compute. split; reflexivity.
Defined.

Lemma C6_witness :
  let s := {| CleaningSuggestion.column := "amount";
              CleaningSuggestion.issue := Outlier;
              CleaningSuggestion.description := "";
              CleaningSuggestion.recommendation := "";
              CleaningSuggestion.autoFix := Some true |} in
  let profile := generateDataProfile Runtime.Number_toString_int scenario_D in
  Forall2 (capped_at (Num.mul (Num.of_Z 10) (Num.of_Z 3)) "amount")
          (DatasetType.data scenario_D)
          (DatasetType.data (cleanDataset Runtime.Number_toString_int scenario_D
                                          profile [s])).
Proof.
  intros s profile.
  apply (proj1 (C6_outlier_cells_are_capped Runtime.Number_toString_int
                  Runtime.Number_toFixed_2)
           scenario_D profile s
           (hd (DataColumn.mk "" TString None None None None None None None None
                              None None)
               (DataProfile.columns profile))
           (Num.of_Z 10)); reflexivity.
Defined.

Lemma C7_witness :
  let profile := generateDataProfile Runtime.Number_toString_int scenario_A in
  let once := cleanDataset Runtime.Number_toString_int scenario_A profile
                           [duplicate_suggestion] in
  cleanDataset Runtime.Number_toString_int scenario_A profile
               [duplicate_suggestion; duplicate_suggestion] = once
  /\ cleanDataset Runtime.Number_toString_int once profile [duplicate_suggestion] = once
  /\ length (DatasetType.data once) = 2%nat.
Proof.
  cbv zeta.
  destruct (C7_duplicate_removal_is_idempotent Runtime.Number_toString_int
              Runtime.Number_toFixed_2 Runtime.StringToNumber_int scenario_A
              (generateDataProfile Runtime.Number_toString_int scenario_A)
              duplicate_suggestion eq_refl) as (H1 & H2 & _).
  split; [exact H1|]. split; [exact H2|]. reflexivity.
Defined.

Lemma C8_witness :
  generateAnswer Runtime.Number_toString_int Runtime.Number_toFixed_2
                 Runtime.StringToNumber_int "So, HOW MANY RECORDS do we have?"
                 scenario_A
  = Returns "There are 3 rows in this dataset.".
Proof.
  apply (proj1 (C8_row_count_answer Runtime.Number_toString_int
                  Runtime.Number_toFixed_2 Runtime.StringToNumber_int)).
  right. reflexivity.
Defined.

Lemma C9_witness :
  exists l' h',
    cleanDataset_heap Runtime.Number_toString_int 6%positive
      (generateDataProfile Runtime.Number_toString_int scenario_A)
      [duplicate_suggestion] scenario_A_heap = Some (l', h')
    /\ scenario_A_heap ⊆ h'
    /\ Heap.dataset_at h' 6%positive scenario_A.
Proof.
  destruct (C9_cleanDataset_leaves_its_input Runtime.Number_toString_int
              scenario_A_heap 6%positive scenario_A
              (generateDataProfile Runtime.Number_toString_int scenario_A)
              [duplicate_suggestion])
    as (l' & h' & Hrun & Hsub & _ & Hin & _).
  - exists 4%positive, 5%positive, [1; 2; 3]%positive.
    repeat split; try reflexivity.
    repeat constructor.
  - exists l', h'. split; [exact Hrun|]. split; [exact Hsub|exact Hin].
Defined.

Lemma C10_witness :
  generateAnswer Runtime.Number_toString_int Runtime.Number_toFixed_2
                 Runtime.StringToNumber_int "What is the max score?" scores_dataset
  = answer_from_average Runtime.Number_toFixed_2
      "what is the max score?" (DatasetType.data scores_dataset) "score".
Proof.
  apply (C10_extremum_needs_first_value_numeric Runtime.Number_toString_int
           Runtime.Number_toFixed_2 Runtime.StringToNumber_int
           "What is the max score?" scores_dataset "score");
    try reflexivity.
  discriminate.
Defined.

(** ** The further properties on the examples *)


Lemma X2_witness :
  determineColumnType (VStr "a" :: [VNull; VNum (Num.of_Z 1)])
  = determineColumnType ([VNull; VNum (Num.of_Z 1)] ++ [VStr "a"]).
Proof.
  apply determineColumnType_Permutation. apply Permutation_cons_append.
Defined.

Lemma X4_witness :
  let profile := generateDataProfile Runtime.Number_toString_int scenario_A in
  exists n p,
    DataColumn.nullCount (column_at 0 profile) = Some n
    /\ 0 <= n <= DataProfile.rowCount profile
    /\ DataColumn.nullPercentage (column_at 0 profile) = Some p
    /\ is_percentage p.
Proof.
  apply (column_null_statistics_in_range Runtime.Number_toString_int scenario_A).
  - vm_compute. split; reflexivity.
  - left. reflexivity.
Defined.

Lemma X5_witness :
  let profile := generateDataProfile Runtime.Number_toString_int scenario_A in
  0 <= DataProfile.nullValues profile
    <= DataProfile.rowCount profile * DataProfile.columnCount profile
  /\ is_percentage (DataProfile.nullPercentage profile).
Proof.
  apply (dataset_null_statistics_in_range Runtime.Number_toString_int scenario_A).
  vm_compute. split; reflexivity.
Defined.

Lemma X6_witness :
  let profile := generateDataProfile Runtime.Number_toString_int scenario_A in
  exists n,
    DataColumn.uniqueCount (column_at 0 profile) = Some n
    /\ n <= DataProfile.rowCount profile
    /\ (0 < DataProfile.rowCount profile -> 1 <= n).
Proof.
  apply (uniqueCount_in_range Runtime.Number_toString_int scenario_A).
  left. reflexivity.
Defined.

Lemma X7_witness :
  let values := [VStr "a"; VNull; VStr "b"; VStr "a"; VBool true] in
  total_count (count_categories Runtime.Number_toString_int values) = 4
  /\ Forall (fun e => 1 <= snd e)
            (count_categories Runtime.Number_toString_int values).
Proof.
  intros values.
  exact (count_categories_counts Runtime.Number_toString_int values eq_refl).
Defined.

Lemma X8_witness : exists c, first_highest example_categories "b" c.
Proof.
  assert (H : Forall (fun e : string * Z => 0 < snd e) example_categories)
    by (repeat constructor).
  exact (find_mode_first_highest example_categories H).
Defined.

Lemma X9_witness :
  let column := column_at 0 (generateDataProfile Runtime.Number_toString_int scenario_A) in
  Forall is_Some [DataColumn.min column; DataColumn.max column;
                  DataColumn.mean column; DataColumn.median column]
  /\ DataColumn.categories column = None /\ DataColumn.mode column = None.
Proof.
  intros column.
  exact (column_statistics_by_type Runtime.Number_toString_int scenario_A column
           (or_introl eq_refl)).
Defined.



Lemma X13_witness :
  length (of_kind Duplicate
            (generateCleaningSuggestions Runtime.Number_toString_int
               Runtime.Number_toFixed_2
               (generateDataProfile Runtime.Number_toString_int scenario_A)))
  = 1%nat.
Proof.
  apply (duplicate_suggestion_iff_duplicates Runtime.Number_toString_int
           Runtime.Number_toFixed_2 scenario_A).
  vm_compute. split; reflexivity.
Defined.

Lemma X14_witness :
  generateCleaningSuggestions Runtime.Number_toString_int Runtime.Number_toFixed_2
    (generateDataProfile Runtime.Number_toString_int no_rows) = [].
Proof.
  apply (no_suggestion_without_rows Runtime.Number_toString_int
           Runtime.Number_toFixed_2 no_rows).
  reflexivity.
Defined.

Lemma X15_witness :
  cleanDataset Runtime.Number_toString_int scenario_A
    (generateDataProfile Runtime.Number_toString_int scenario_A)
    [review_suggestion; manual_suggestion; fill_suggestion "zip"]
  = scenario_A.
Proof.
  apply (cleanDataset_passes_over Runtime.Number_toString_int scenario_A).
  constructor; [right; left; reflexivity|].
  constructor; [left; discriminate|].
  constructor; [right; right; left; split; reflexivity|].
  constructor.
Defined.


Lemma X19_witness :
  let profile := generateDataProfile Runtime.Number_toString_int scenario_A in
  let cleaned := cleanDataset Runtime.Number_toString_int scenario_A profile
                   [duplicate_suggestion] in
  Z.of_nat (length (DatasetType.data cleaned)) = 3 - 1
  /\ DataProfile.duplicateRows
       (generateDataProfile Runtime.Number_toString_int cleaned) = 0.
Proof.
  apply (duplicates_removed_as_profiled Runtime.Number_toString_int
           Runtime.Number_toFixed_2 Runtime.StringToNumber_int scenario_A
           (generateDataProfile Runtime.Number_toString_int scenario_A)
           duplicate_suggestion); reflexivity.
Defined.



Lemma X22_witness :
  generateAnswer Runtime.Number_toString_int Runtime.Number_toFixed_2
                 Runtime.StringToNumber_int "Tell me about the age" no_rows
  = TypeError.
Proof.
  apply (proj2 (generateAnswer_TypeError Runtime.Number_toString_int
                  Runtime.Number_toFixed_2 Runtime.StringToNumber_int
                  "Tell me about the age" no_rows)).
  repeat (split; [reflexivity|]). split; [|split; reflexivity].
  exists "age". split; [reflexivity|discriminate].
Defined.

Lemma X27_witness :
  match top_categories example_categories with
  | [] => None
  | (k, _) :: _ => Some k
  end = Some "b".
Proof.
  assert (H : Forall (fun e : string * Z => 0 < snd e) example_categories)
    by (repeat constructor).
  exact (first_listed_category_is_the_mode example_categories H).
Defined.
